(** * model-emulator: the request adapter, the error classifier and the
      configuration caches

    A shallow embedding of [server/config.py], [server/litellm_client.py],
    [server/logger.py] and [server/openai_adapter.py].

    Conventions of the embedding.
    - A Python value of type [Any] (a parsed JSON document, a request
      body, a dictionary entry) is a [pyval]; a [dict] with string keys is
      a [gmap string pyval].
    - A Python [str] is a [string]; its characters are the code points
      below 256, and [len] is [String.length].
    - Module-level globals, the three JSON files, the environment, the
      clock and the random generator live in one record, [world]; a Python
      function with effects is a function [world -> outcome A * world].
    - A raised exception is the [Raise] outcome; [try]/[except] is
      [try_except].
    - Python [list] objects that the code mutates in place (the presets
      list) live in a heap of list objects and are passed by reference. *)

From Stdlib Require Import ZArith NArith QArith String Ascii List Bool Lia DecimalString.
From stdpp Require Import base option list gmap strings.

Open Scope Z_scope.
Open Scope string_scope.

Set Default Proof Using "Type".

(* ===================================================================== *)
(** ** Python values *)
(* ===================================================================== *)

#[warnings="-register-all"]
Inductive pyval : Type :=
| PNone
| PBool (b : bool)
| PInt (z : Z)
| PFloat (q : Q)
| PStr (s : string)
| PList (l : list pyval)
| PDict (d : gmap string pyval).

(** Python's truth value testing ([bool(v)], [if v], [not v]). *)
Definition truthy (v : pyval) : bool :=
  match v with
  | PNone => false
  | PBool b => b
  | PInt z => negb (Z.eqb z 0)
  | PFloat q => negb (Qeq_bool q 0)
  | PStr s => negb (String.eqb s "")
  | PList l => match l with [] => false | _ :: _ => true end
  | PDict d => negb (Nat.eqb (size d) 0)
  end.

(** [type(v).__name__], as it appears in the interpreter's messages. *)
Definition type_name (v : pyval) : string :=
  match v with
  | PNone => "NoneType"
  | PBool _ => "bool"
  | PInt _ => "int"
  | PFloat _ => "float"
  | PStr _ => "str"
  | PList _ => "list"
  | PDict _ => "dict"
  end.

(** [d.get(k)]: the entry, [None] when the key is missing. *)
Definition dict_get (d : gmap string pyval) (k : string) : pyval :=
  default PNone (d !! k).

(** [d.get(k, dflt)]. *)
Definition dict_get_default (d : gmap string pyval) (k : string) (dflt : pyval) : pyval :=
  default dflt (d !! k).

(** [a or b]. *)
Definition py_or (a b : pyval) : pyval := if truthy a then a else b.

(** [v == s] for a string [s]: only a [str] equals a [str]. *)
Definition eq_str (v : pyval) (s : string) : bool :=
  match v with
  | PStr t => String.eqb t s
  | _ => false
  end.

Definition is_none (v : pyval) : bool :=
  match v with PNone => true | _ => false end.

Definition opt_to_py (o : option string) : pyval :=
  match o with Some s => PStr s | None => PNone end.

(* ===================================================================== *)
(** ** Strings *)
(* ===================================================================== *)

Definition decimal_N (n : N) : string := NilZero.string_of_uint (N.to_uint n).
Definition decimal_Z (z : Z) : string := NilZero.string_of_int (Z.to_int z).
Definition decimal_nat (n : nat) : string := NilZero.string_of_uint (Nat.to_uint n).

(** [needle in hay]. *)
Fixpoint contains (needle hay : string) : bool :=
  String.prefix needle hay
  || match hay with
     | EmptyString => false
     | String _ rest => contains needle rest
     end.

Definition char_between (lo hi : N) (c : ascii) : bool :=
  (lo <=? N_of_ascii c)%N && (N_of_ascii c <=? hi)%N.

(** [str.lower] on the code points below 256: the letters A-Z and the
    Latin-1 capitals U+00C0-U+00DE (without the sign U+00D7) move up by 32. *)
Definition lower_char (c : ascii) : ascii :=
  if char_between 65 90 c
     || (char_between 192 222 c && negb (N_of_ascii c =? 215)%N)
  then ascii_of_N (N_of_ascii c + 32)
  else c.

Fixpoint lower (s : string) : string :=
  match s with
  | EmptyString => EmptyString
  | String c rest => String (lower_char c) (lower rest)
  end.

(** [str.isspace] on one code point below 256. *)
Definition is_space (c : ascii) : bool :=
  char_between 9 13 c || char_between 28 32 c
  || (N_of_ascii c =? 133)%N || (N_of_ascii c =? 160)%N.

Fixpoint lstrip (s : string) : string :=
  match s with
  | EmptyString => EmptyString
  | String c rest => if is_space c then lstrip rest else s
  end.

Fixpoint rstrip (s : string) : string :=
  match s with
  | EmptyString => EmptyString
  | String c rest =>
      match rstrip rest with
      | EmptyString => if is_space c then EmptyString else String c EmptyString
      | r => String c r
      end
  end.

(** [s.strip()]. *)
Definition strip (s : string) : string := rstrip (lstrip s).

Fixpoint all_chars (p : ascii -> bool) (s : string) : bool :=
  match s with
  | EmptyString => true
  | String c rest => p c && all_chars p rest
  end.

(** [sep.join(parts)]. *)
Fixpoint str_join (sep : string) (parts : list string) : string :=
  match parts with
  | [] => ""
  | [p] => p
  | p :: rest => p +:+ sep +:+ str_join sep rest
  end.

(* ===================================================================== *)
(** ** Exceptions *)
(* ===================================================================== *)

(** The exception classes the code raises or catches. [ValidationError]
    is the adapter's own class and carries [status_code] and [type];
    [GenericException] is [Exception] itself and any subclass not listed
    here, such as what the provider SDK raises. *)
Inductive exn_class : Type :=
| ValidationError (status_code : Z) (type : string)
| ValueError
| TypeError
| AttributeError
| FileNotFoundError
| JSONDecodeError
| OSError
| GenericException.

(** [exn_msg] is [str(e)]; [exn_code] is the [code] attribute when the
    exception object has one. *)
Record exn : Type := Exn {
  exn_cls : exn_class;
  exn_msg : string;
  exn_code : option pyval
}.

(** [raise ValidationError(message)] with the default status and type. *)
Definition validation_error (message : string) : exn :=
  Exn (ValidationError 400 "invalid_request_error") message None.

(** The interpreter's error for [v.get] on a [v] without that attribute. *)
Definition no_attribute_get (v : pyval) : exn :=
  Exn AttributeError ("'" +:+ type_name v +:+ "' object has no attribute 'get'") None.

Inductive outcome (A : Type) : Type :=
| Ok (a : A)
| Raise (e : exn).
Arguments Ok {A} a.
Arguments Raise {A} e.

(* ===================================================================== *)
(** ** litellm_client.py: token estimate and error classification *)
(* ===================================================================== *)

(** [estimate_tokens]: [0] for a missing or empty text, else
    [math.ceil(len(text) / 4)]. *)
Definition estimate_tokens (text : option string) : Z :=
  match text with
  | None => 0
  | Some t =>
      if String.eqb t "" then 0
      else (Z.of_nat (String.length t) + 3) / 4
  end.

Definition network_codes : list string :=
  ["ECONNREFUSED"; "ENOTFOUND"; "ETIMEDOUT"; "ECONNRESET"; "ENETUNREACH"; "EAI_AGAIN"].

(** [any(term in msg for term in terms)]. *)
Definition any_term_in (terms : list string) (msg : string) : bool :=
  existsb (fun term => contains term msg) terms.

(** [code in codes] for a list of strings. *)
Definition code_in (code : pyval) (codes : list string) : bool :=
  existsb (eq_str code) codes.

(** [getattr(error, "code", "") or ""]. *)
Definition error_code (error : exn) : pyval :=
  py_or (default (PStr "") (exn_code error)) (PStr "").

Definition classify_error (error : exn) : Z * string :=
  let msg := lower (exn_msg error) in
  let code := error_code error in
  if code_in code network_codes then (503, "service_unavailable")
  else if any_term_in
            ["network"; "timeout"; "connect"; "offline"; "unavailable"; "empty response"] msg
  then (503, "service_unavailable")
  else if any_term_in ["auth"; "token"; "unauthorized"; "api key"] msg
  then (401, "authentication_error")
  else if any_term_in ["permission"; "forbidden"] msg
  then (403, "permission_error")
  else if any_term_in ["rate"; "limit"; "quota"] msg
  then (429, "rate_limit_error")
  else if any_term_in ["invalid"; "bad request"] msg
  then (400, "invalid_request_error")
  else if contains "not found" msg
  then (404, "not_found_error")
  else (500, "internal_server_error").

(** The classifier as the specification words it: an ordered list of
    rules, each a predicate on the failure and an outcome; the first rule
    that matches decides, and the default applies when none does. *)
Module ClassifySpec.

Definition rule : Type := (exn -> bool) * (Z * string).

Definition message_has (terms : list string) : exn -> bool :=
  fun e => any_term_in terms (lower (exn_msg e)).

Definition network_rule : exn -> bool :=
  fun e =>
    code_in (error_code e) network_codes
    || message_has ["network"; "timeout"; "connect"; "offline"; "unavailable"; "empty response"] e.

Definition rules : list rule :=
  [ (network_rule, (503, "service_unavailable"));
    (message_has ["auth"; "token"; "unauthorized"; "api key"], (401, "authentication_error"));
    (message_has ["permission"; "forbidden"], (403, "permission_error"));
    (message_has ["rate"; "limit"; "quota"], (429, "rate_limit_error"));
    (message_has ["invalid"; "bad request"], (400, "invalid_request_error"));
    (message_has ["not found"], (404, "not_found_error")) ].

Fixpoint first_match (rs : list rule) (e : exn) : Z * string :=
  match rs with
  | [] => (500, "internal_server_error")
  | (applies, result) :: rest => if applies e then result else first_match rest e
  end.

Definition Classify (e : exn) : Z * string := first_match rules e.

Definition no_rule_matches (e : exn) : Prop :=
  Forall (fun r : rule => fst r e = false) rules.

End ClassifySpec.

(* ===================================================================== *)
(** ** The world: module globals, files, environment *)
(* ===================================================================== *)

(** A file holds a JSON document; [file_doc] is [None] when its bytes do
    not parse ([json.load] raises [JSONDecodeError]). *)
Record file : Type := File {
  file_doc : option pyval;
  file_mtime : N
}.

(** How a write to a path fails, when it does: [open(path, "w")] raises
    and the file is untouched, or [json.dump] raises after the file was
    truncated and leaves bytes that do not parse. *)
Inductive write_fault : Type := OpenFails | DumpFails.

(** The keyword arguments of one call of the provider SDK's [completion]. *)
Record completion_options : Type := CompletionOptions {
  co_model : pyval;
  co_messages : list pyval;
  co_api_key : pyval;
  co_temperature : option pyval;
  co_max_tokens : option pyval
}.

(** The SDK's response object, as far as [chat] reads it. *)
Record usage_obj : Type := UsageObj {
  u_prompt_tokens : option Z;
  u_completion_tokens : option Z;
  u_total_tokens : option Z
}.

Record message_obj : Type := MessageObj { msg_content : option string }.

Record choice_obj : Type := ChoiceObj { choice_message : option message_obj }.

Record response : Type := Response {
  resp_choices : option (list choice_obj);
  resp_usage : option usage_obj
}.

(** A line printed by the logger: its kind, the clock reading of its
    timestamp and the data it shows. *)
Inductive log_line : Type :=
| LogRequest (at_ms : N) (data : gmap string pyval)
| LogSuccess (at_ms : N) (data : gmap string pyval)
| LogError (at_ms : N) (message : string) (context : gmap string pyval).

(** The globals of [config.py]. *)
Record config_globals : Type := ConfigGlobals {
  cached_config : option pyval;
  cached_models : option pyval;
  cached_saved_configs : option nat;
  config_mtime : option N;
  emulator_active : bool
}.

(** The globals of [logger.py]; [get_config_set] tells whether
    [set_config_getter(get_config)] has run. *)
Record logger_globals : Type := LoggerGlobals {
  get_config_set : bool;
  last_successful_completion : option pyval;
  last_error : option pyval
}.

(** What the operating system holds: the files under [CONFIG_DIR], the
    writes that fail, [os.environ], the clock and the random generator
    (each a stream with a cursor), and the standard output. *)
Record system : Type := System {
  files : gmap string file;
  write_faults : gmap string write_fault;
  environ : gmap string string;
  clock : nat -> N;
  clock_reads : nat;
  rng : nat -> nat;
  rng_draws : nat;
  stdout : list log_line
}.

(** [provider_online] is the history of the assignments
    [_provider_online[provider] = flag], the most recent first; [heap]
    holds the Python list objects passed by reference, addressed by their
    index; [completion_calls] records every call of the SDK's
    [completion], the most recent first. *)
Record world : Type := World {
  cfg : config_globals;
  lg : logger_globals;
  provider_online : list (pyval * bool);
  heap : list (list pyval);
  sys : system;
  completion_calls : list completion_options
}.

Definition with_cfg (f : config_globals -> config_globals) (w : world) : world :=
  World (f (cfg w)) (lg w) (provider_online w) (heap w) (sys w) (completion_calls w).
Definition with_lg (f : logger_globals -> logger_globals) (w : world) : world :=
  World (cfg w) (f (lg w)) (provider_online w) (heap w) (sys w) (completion_calls w).
Definition with_provider_online (f : list (pyval * bool) -> list (pyval * bool))
    (w : world) : world :=
  World (cfg w) (lg w) (f (provider_online w)) (heap w) (sys w) (completion_calls w).
Definition with_heap (f : list (list pyval) -> list (list pyval)) (w : world) : world :=
  World (cfg w) (lg w) (provider_online w) (f (heap w)) (sys w) (completion_calls w).
Definition with_sys (f : system -> system) (w : world) : world :=
  World (cfg w) (lg w) (provider_online w) (heap w) (f (sys w)) (completion_calls w).
Definition with_completion_calls (f : list completion_options -> list completion_options)
    (w : world) : world :=
  World (cfg w) (lg w) (provider_online w) (heap w) (sys w) (f (completion_calls w)).

Definition put_cached_config (v : option pyval) (c : config_globals) : config_globals :=
  ConfigGlobals v (cached_models c) (cached_saved_configs c) (config_mtime c) (emulator_active c).
Definition put_cached_models (v : option pyval) (c : config_globals) : config_globals :=
  ConfigGlobals (cached_config c) v (cached_saved_configs c) (config_mtime c) (emulator_active c).
Definition put_cached_saved_configs (v : option nat) (c : config_globals) : config_globals :=
  ConfigGlobals (cached_config c) (cached_models c) v (config_mtime c) (emulator_active c).
Definition put_config_mtime (v : option N) (c : config_globals) : config_globals :=
  ConfigGlobals (cached_config c) (cached_models c) (cached_saved_configs c) v (emulator_active c).
Definition put_emulator_active (v : bool) (c : config_globals) : config_globals :=
  ConfigGlobals (cached_config c) (cached_models c) (cached_saved_configs c) (config_mtime c) v.

Definition put_last_successful_completion (v : option pyval) (l : logger_globals)
    : logger_globals :=
  LoggerGlobals (get_config_set l) v (last_error l).
Definition put_last_error (v : option pyval) (l : logger_globals) : logger_globals :=
  LoggerGlobals (get_config_set l) (last_successful_completion l) v.

Definition put_files (v : gmap string file) (s : system) : system :=
  System v (write_faults s) (environ s) (clock s) (clock_reads s) (rng s) (rng_draws s) (stdout s).
Definition put_clock_reads (v : nat) (s : system) : system :=
  System (files s) (write_faults s) (environ s) (clock s) v (rng s) (rng_draws s) (stdout s).
Definition put_rng_draws (v : nat) (s : system) : system :=
  System (files s) (write_faults s) (environ s) (clock s) (clock_reads s) (rng s) v (stdout s).
Definition put_stdout (v : list log_line) (s : system) : system :=
  System (files s) (write_faults s) (environ s) (clock s) (clock_reads s) (rng s) (rng_draws s) v.

(* ===================================================================== *)
(** ** Effects *)
(* ===================================================================== *)

Definition M (A : Type) : Type := world -> outcome A * world.

Definition ret {A : Type} (a : A) : M A := fun w => (Ok a, w).

Definition raise {A : Type} (e : exn) : M A := fun w => (Raise e, w).

Definition bind {A B : Type} (m : M A) (k : A -> M B) : M B :=
  fun w =>
    match m w with
    | (Ok a, w') => k a w'
    | (Raise e, w') => (Raise e, w')
    end.

(** [try: body  except Exception as e: handler(e)]. A handler that does not
    catch [e] raises it again. *)
Definition try_except {A : Type} (body : M A) (handler : exn -> M A) : M A :=
  fun w =>
    match body w with
    | (Ok a, w') => (Ok a, w')
    | (Raise e, w') => handler e w'
    end.

Definition gets {A : Type} (f : world -> A) : M A := fun w => (Ok (f w), w).

Definition modify (f : world -> world) : M unit := fun w => (Ok tt, f w).

Definition lift {A : Type} (o : outcome A) : M A := fun w => (o, w).

Notation "x <- m ;; k" := (bind m (fun x => k))
  (at level 100, m at next level, right associativity).
Notation "m ;;; k" := (bind m (fun _ => k))
  (at level 100, right associativity).

(** One reading of the clock, in milliseconds since the epoch:
    [int(time.time() * 1000)]. *)
Definition time_ms : M N :=
  fun w =>
    let s := sys w in
    (Ok (clock s (clock_reads s)), with_sys (put_clock_reads (S (clock_reads s))) w).

(** One draw of the random generator, an index below [n]. *)
Definition random_below (n : nat) : M nat :=
  fun w =>
    let s := sys w in
    (Ok (rng s (rng_draws s) mod n)%nat, with_sys (put_rng_draws (S (rng_draws s))) w).

Definition char_at (alphabet : string) (i : nat) : string :=
  match String.get i alphabet with
  | Some c => String c EmptyString
  | None => EmptyString
  end.

(** [''.join(random.choices(alphabet, k=k))]. *)
Fixpoint random_choices (alphabet : string) (k : nat) : M string :=
  match k with
  | O => ret ""
  | S k' =>
      i <- random_below (String.length alphabet) ;;
      rest <- random_choices alphabet k' ;;
      ret (char_at alphabet i +:+ rest)
  end.

Definition ascii_lowercase : string := "abcdefghijklmnopqrstuvwxyz".
Definition digits : string := "0123456789".

(** [path.exists()]. *)
Definition path_exists (path : string) : M bool :=
  gets (fun w => bool_decide (is_Some (files (sys w) !! path))).

Definition file_not_found (path : string) : exn :=
  Exn FileNotFoundError ("[Errno 2] No such file or directory: '" +:+ path +:+ "'") None.

(** [path.stat().st_mtime]. *)
Definition path_stat_mtime (path : string) : M N :=
  f <- gets (fun w => files (sys w) !! path) ;;
  match f with
  | Some f => ret (file_mtime f)
  | None => raise (file_not_found path)
  end.

(** [with open(path, "r") as f: json.load(f)]. *)
Definition json_load (path : string) : M pyval :=
  f <- gets (fun w => files (sys w) !! path) ;;
  match f with
  | None => raise (file_not_found path)
  | Some f =>
      match file_doc f with
      | Some doc => ret doc
      | None => raise (Exn JSONDecodeError "Expecting value" None)
      end
  end.

Definition write_file (path : string) (f : file) : M unit :=
  modify (with_sys (fun s => put_files (<[path := f]> (files s)) s)).

(** [with open(path, "w") as f: json.dump(doc, f, indent=2)]. The new
    modification time is the clock's reading at the write. *)
Definition json_dump (path : string) (doc : pyval) : M unit :=
  fault <- gets (fun w => write_faults (sys w) !! path) ;;
  match fault with
  | Some OpenFails => raise (Exn OSError ("[Errno 13] Permission denied: '" +:+ path +:+ "'") None)
  | Some DumpFails =>
      now <- time_ms ;;
      write_file path (File None now) ;;;
      raise (Exn OSError "[Errno 28] No space left on device" None)
  | None =>
      now <- time_ms ;;
      write_file path (File (Some doc) now)
  end.

(** A new list object. *)
Definition alloc_list (l : list pyval) : M nat :=
  fun w => (Ok (List.length (heap w)), with_heap (fun h => (h ++ [l])%list) w).

(** The elements of a list object. *)
Definition read_list (ref : nat) : M (list pyval) :=
  gets (fun w => default [] (heap w !! ref)).

(** In-place mutation of a list object. *)
Definition write_list (ref : nat) (l : list pyval) : M unit :=
  modify (with_heap (fun h => <[ref := l]> h)).

(** [v.get(k)] on a value of type [Any]. *)
Definition py_get (v : pyval) (k : string) : outcome pyval :=
  match v with
  | PDict d => Ok (dict_get d k)
  | _ => Raise (no_attribute_get v)
  end.

(** [v.get(k, dflt)] on a value of type [Any]. *)
Definition py_get_default (v : pyval) (k : string) (dflt : pyval) : outcome pyval :=
  match v with
  | PDict d => Ok (dict_get_default d k dflt)
  | _ => Raise (no_attribute_get v)
  end.

(* ===================================================================== *)
(** ** config.py *)
(* ===================================================================== *)

Definition CONFIG_PATH : string := "config/default.json".
Definition MODELS_CACHE_PATH : string := "config/models-cache.json".
Definition SAVED_CONFIGS_PATH : string := "config/saved-configs.json".

Definition set_cached_config (v : option pyval) : M unit :=
  modify (with_cfg (put_cached_config v)).
Definition set_cached_models (v : option pyval) : M unit :=
  modify (with_cfg (put_cached_models v)).
Definition set_cached_saved_configs (v : option nat) : M unit :=
  modify (with_cfg (put_cached_saved_configs v)).
Definition set_config_mtime (v : option N) : M unit :=
  modify (with_cfg (put_config_mtime v)).
Definition set_emulator_active (v : bool) : M unit :=
  modify (with_cfg (put_emulator_active v)).

(** A dictionary display [{k1: v1, ...}]. *)
Definition mk_dict (entries : list (string * pyval)) : gmap string pyval :=
  list_to_map entries.

Definition generate_id : M string :=
  random_chars <- random_choices (ascii_lowercase +:+ digits) 6 ;;
  now <- time_ms ;;
  ret ("cfg-" +:+ decimal_N now +:+ "-" +:+ random_chars).

Definition get_default_config : pyval :=
  PDict (mk_dict
    [ ("port", PInt 11434);
      ("provider", PStr "openai");
      ("model", PStr "gpt-4");
      ("apiKeyEnvVar", PStr "OPENAI_API_KEY");
      ("emulatorActive", PBool false);
      ("lastConfig", PNone);
      ("logging", PDict (mk_dict
         [ ("enabled", PBool true);
           ("logRequests", PBool true);
           ("logErrors", PBool true) ])) ]).

Definition same_mtime (known : option N) (st_mtime : N) : bool :=
  match known with
  | Some m => N.eqb st_mtime m
  | None => false
  end.

(** [get_config]. The first step is the [if _cached_config is not None]
    block: it yields the cached document on a hit and otherwise falls
    through to the load. *)
Definition get_config : M pyval :=
  try_except
    (cached <- gets (fun w => cached_config (cfg w)) ;;
     hit <- match cached with
            | Some c =>
                st_mtime <- path_stat_mtime CONFIG_PATH ;;
                known <- gets (fun w => config_mtime (cfg w)) ;;
                if same_mtime known st_mtime then ret (Some c)
                else (set_config_mtime (Some st_mtime) ;;; ret None)
            | None => ret None
            end ;;
     match hit with
     | Some c => ret c
     | None =>
         doc <- json_load CONFIG_PATH ;;
         set_cached_config (Some doc) ;;;
         st_mtime <- path_stat_mtime CONFIG_PATH ;;
         set_config_mtime (Some st_mtime) ;;;
         ret doc
     end)
    (fun e =>
       match exn_cls e with
       | FileNotFoundError | JSONDecodeError => ret get_default_config
       | _ => raise e
       end).

(** [{**base, **updates}]. *)
Definition dict_merge (base : pyval) (updates : gmap string pyval) : outcome (gmap string pyval) :=
  match base with
  | PDict d => Ok (updates ∪ d)
  | _ => Raise (Exn TypeError ("'" +:+ type_name base +:+ "' object is not a mapping") None)
  end.

Definition update_config (updates : gmap string pyval) : M bool :=
  current <- get_config ;;
  config <- lift (dict_merge current updates) ;;
  try_except
    (json_dump CONFIG_PATH (PDict config) ;;;
     set_cached_config (Some (PDict config)) ;;;
     st_mtime <- path_stat_mtime CONFIG_PATH ;;
     set_config_mtime (Some st_mtime) ;;;
     ret true)
    (fun _ => ret false).

Definition is_emulator_active : M bool :=
  gets (fun w => emulator_active (cfg w)).

Definition start_emulator (provider model api_key_env_var : string) : M bool :=
  success <- update_config (mk_dict
    [ ("provider", PStr provider);
      ("model", PStr model);
      ("apiKeyEnvVar", PStr api_key_env_var);
      ("emulatorActive", PBool true);
      ("lastConfig", PDict (mk_dict
         [ ("provider", PStr provider);
           ("model", PStr model);
           ("apiKeyEnvVar", PStr api_key_env_var) ])) ]) ;;
  (if success then set_emulator_active true else ret tt) ;;;
  ret success.

Definition stop_emulator : M bool :=
  success <- update_config (mk_dict [ ("emulatorActive", PBool false) ]) ;;
  (if success then set_emulator_active false else ret tt) ;;;
  ret success.

Definition is_list (v : pyval) : bool :=
  match v with PList _ => true | _ => false end.

Definition empty_models_cache : pyval :=
  PDict (mk_dict [ ("models", PList []); ("lastUpdated", PNone) ]).

(** [get_models_cache]. The [try] block yields the loaded cache when it
    returns from inside, and nothing when it falls through or raises. *)
Definition get_models_cache : M pyval :=
  cached <- gets (fun w => cached_models (cfg w)) ;;
  match cached with
  | Some c => ret c
  | None =>
      loaded <- try_except
        (present <- path_exists MODELS_CACHE_PATH ;;
         if present then
           cache <- json_load MODELS_CACHE_PATH ;;
           models <- lift (py_get cache "models") ;;
           if is_list models
           then (set_cached_models (Some cache) ;;; ret (Some cache))
           else ret None
         else ret None)
        (fun _ => ret None) ;;
      match loaded with
      | Some cache => ret cache
      | None => ret empty_models_cache
      end
  end.

Definition save_models_cache (models : list pyval) : M bool :=
  try_except
    (now <- time_ms ;;
     let cache :=
       PDict (mk_dict [ ("lastUpdated", PInt (Z.of_N now)); ("models", PList models) ]) in
     json_dump MODELS_CACHE_PATH cache ;;;
     set_cached_models (Some cache) ;;;
     ret true)
    (fun _ => ret false).

(** [get_saved_configs] returns a reference to a list object: the cached
    one, the one just loaded (and now cached), or a new empty list that
    nothing else refers to. *)
Definition get_saved_configs : M nat :=
  cached <- gets (fun w => cached_saved_configs (cfg w)) ;;
  match cached with
  | Some configs => ret configs
  | None =>
      loaded <- try_except
        (present <- path_exists SAVED_CONFIGS_PATH ;;
         if present then
           doc <- json_load SAVED_CONFIGS_PATH ;;
           match doc with
           | PList l =>
               configs <- alloc_list l ;;
               set_cached_saved_configs (Some configs) ;;;
               ret (Some configs)
           | _ => ret None
           end
         else ret None)
        (fun _ => ret None) ;;
      match loaded with
      | Some configs => ret configs
      | None => alloc_list []
      end
  end.

Definition save_saved_configs (configs : nat) : M bool :=
  try_except
    (l <- read_list configs ;;
     json_dump SAVED_CONFIGS_PATH (PList l) ;;;
     set_cached_saved_configs (Some configs) ;;;
     ret true)
    (fun _ => ret false).

Definition add_saved_config (name provider model api_key_env_var : string)
    : M (option pyval) :=
  configs <- get_saved_configs ;;
  new_id <- generate_id ;;
  let new_config := PDict (mk_dict
    [ ("id", PStr new_id);
      ("name", PStr name);
      ("provider", PStr provider);
      ("model", PStr model);
      ("apiKeyEnvVar", PStr api_key_env_var) ]) in
  l <- read_list configs ;;
  write_list configs (l ++ [new_config])%list ;;;
  saved <- save_saved_configs configs ;;
  ret (if saved then Some new_config else None).

(** [next((c for c in configs if c.get("id") == config_id), None)], with
    the position of the element found. *)
Fixpoint find_by_id (config_id : string) (configs : list pyval) (i : nat)
    : outcome (option (nat * gmap string pyval)) :=
  match configs with
  | [] => Ok None
  | c :: rest =>
      match c with
      | PDict d =>
          if eq_str (dict_get d "id") config_id then Ok (Some (i, d))
          else find_by_id config_id rest (S i)
      | _ => Raise (no_attribute_get c)
      end
  end.

(** [if value: config[key] = value]. *)
Definition assign_if_truthy (key : string) (value : option string)
    (d : gmap string pyval) : gmap string pyval :=
  match value with
  | Some s => if truthy (PStr s) then <[key := PStr s]> d else d
  | None => d
  end.

(** [if value is not None: config[key] = value]. *)
Definition assign_if_not_none (key : string) (value : option string)
    (d : gmap string pyval) : gmap string pyval :=
  match value with
  | Some s => <[key := PStr s]> d
  | None => d
  end.

Definition update_saved_config (config_id : string)
    (new_name provider model api_key_env_var : option string) : M bool :=
  configs <- get_saved_configs ;;
  l <- read_list configs ;;
  found <- lift (find_by_id config_id l 0) ;;
  match found with
  | None => ret false
  | Some (i, config) =>
      let config := assign_if_truthy "name" new_name config in
      let config := assign_if_truthy "provider" provider config in
      let config := assign_if_truthy "model" model config in
      let config := assign_if_not_none "apiKeyEnvVar" api_key_env_var config in
      write_list configs (<[i := PDict config]> l) ;;;
      save_saved_configs configs
  end.

(** [[c for c in configs if c.get("id") != config_id]]. *)
Fixpoint without_id (config_id : string) (configs : list pyval) : outcome (list pyval) :=
  match configs with
  | [] => Ok []
  | c :: rest =>
      match c with
      | PDict d =>
          match without_id config_id rest with
          | Ok kept => Ok (if eq_str (dict_get d "id") config_id then kept else c :: kept)
          | Raise e => Raise e
          end
      | _ => Raise (no_attribute_get c)
      end
  end.

Definition delete_saved_config (config_id : string) : M bool :=
  configs <- get_saved_configs ;;
  l <- read_list configs ;;
  kept <- lift (without_id config_id l) ;;
  filtered <- alloc_list kept ;;
  if Nat.eqb (List.length kept) (List.length l) then ret false
  else save_saved_configs filtered.


(** [_init_emulator_state]: [get_config().get("emulatorActive", False) is True]. *)
Definition init_emulator_state : M unit :=
  config <- get_config ;;
  flag <- lift (py_get_default config "emulatorActive" (PBool false)) ;;
  set_emulator_active (match flag with PBool true => true | _ => false end).

(* ===================================================================== *)
(** ** logger.py *)
(* ===================================================================== *)

Definition print (line : log_line) : M unit :=
  modify (with_sys (fun s => put_stdout (line :: stdout s) s)).

(** [config.get("logging", {}).get(flag, True)], as a truth value. *)
Definition logging_flag (config : pyval) (flag : string) : outcome bool :=
  match py_get_default config "logging" (PDict ∅) with
  | Raise e => Raise e
  | Ok section =>
      match py_get_default section flag (PBool true) with
      | Raise e => Raise e
      | Ok v => Ok (truthy v)
      end
  end.

Definition log_request (data : gmap string pyval) : M unit :=
  wired <- gets (fun w => get_config_set (lg w)) ;;
  if negb wired then ret tt
  else
    config <- get_config ;;
    on <- lift (logging_flag config "logRequests") ;;
    if negb on then ret tt
    else
      now <- time_ms ;;
      print (LogRequest now data).

Definition log_success (data : gmap string pyval) : M unit :=
  wired <- gets (fun w => get_config_set (lg w)) ;;
  if negb wired then ret tt
  else
    config <- get_config ;;
    on <- lift (logging_flag config "enabled") ;;
    if negb on then ret tt
    else
      let provider := dict_get_default data "provider" (PStr "") in
      let model := dict_get_default data "model" (PStr "") in
      let prompt_tokens := dict_get_default data "promptTokens" (PInt 0) in
      let completion_tokens := dict_get_default data "completionTokens" (PInt 0) in
      let total_tokens := dict_get_default data "totalTokens" (PInt 0) in
      now <- time_ms ;;
      print (LogSuccess now data) ;;;
      stamp <- time_ms ;;
      modify (with_lg (put_last_successful_completion (Some (PDict (mk_dict
        [ ("timestamp", PInt (Z.of_N stamp));
          ("provider", provider);
          ("model", model);
          ("tokens", PDict (mk_dict
             [ ("promptTokens", prompt_tokens);
               ("completionTokens", completion_tokens);
               ("totalTokens", total_tokens) ])) ]))))).

Definition log_error (error : exn) (context : gmap string pyval) : M unit :=
  wired <- gets (fun w => get_config_set (lg w)) ;;
  if negb wired then ret tt
  else
    config <- get_config ;;
    on <- lift (logging_flag config "logErrors") ;;
    if negb on then ret tt
    else
      now <- time_ms ;;
      print (LogError now (exn_msg error) context) ;;;
      stamp <- time_ms ;;
      modify (with_lg (put_last_error (Some (PDict (mk_dict
        [ ("timestamp", PInt (Z.of_N stamp));
          ("message", PStr (exn_msg error));
          ("context", PDict context) ]))))).

(* ===================================================================== *)
(** ** litellm_client.py: the call of the provider *)
(* ===================================================================== *)

(** The entries of [SUPPORTED_PROVIDERS] as [chat] reads them: the display
    name and the name of the environment variable of the API key. *)
Definition SUPPORTED_PROVIDERS : gmap string (string * string) :=
  list_to_map
    [ ("openai", ("OpenAI", "OPENAI_API_KEY"));
      ("anthropic", ("Anthropic", "ANTHROPIC_API_KEY"));
      ("groq", ("Groq", "GROQ_API_KEY"));
      ("mistral", ("Mistral", "MISTRAL_API_KEY"));
      ("google", ("Google (Gemini)", "GEMINI_API_KEY"));
      ("cohere", ("Cohere", "COHERE_API_KEY"));
      ("together_ai", ("Together AI", "TOGETHER_API_KEY"));
      ("openrouter", ("OpenRouter", "OPENROUTER_API_KEY"));
      ("deepseek", ("DeepSeek", "DEEPSEEK_API_KEY"));
      ("cerebras", ("Cerebras", "CEREBRAS_API_KEY")) ].

Definition unhashable (v : pyval) : exn :=
  Exn TypeError ("unhashable type: '" +:+ type_name v +:+ "'") None.

(** [SUPPORTED_PROVIDERS[provider]] when [provider in SUPPORTED_PROVIDERS];
    a list or a dict is not hashable. *)
Definition supported_provider (provider : pyval) : outcome (option (string * string)) :=
  match provider with
  | PStr p => Ok (SUPPORTED_PROVIDERS !! p)
  | PList _ | PDict _ => Raise (unhashable provider)
  | _ => Ok None
  end.

(** [_provider_online[provider] = flag]. *)
Definition mark_online (provider : pyval) (flag : bool) : M unit :=
  match provider with
  | PList _ | PDict _ => raise (unhashable provider)
  | _ => modify (with_provider_online (fun h => (provider, flag) :: h))
  end.

(** [response.usage.field or 0]. *)
Definition or_zero (field : option Z) : Z :=
  match field with
  | Some n => if Z.eqb n 0 then 0 else n
  | None => 0
  end.

(** The text of the first choice, [""] when there is none. *)
Definition response_text (r : response) : string :=
  match resp_choices r with
  | Some (first :: _) =>
      match choice_message first with
      | Some message =>
          match msg_content message with
          | Some content => if truthy (PStr content) then content else ""
          | None => ""
          end
      | None => ""
      end
  | _ => ""
  end.

(** The [usage] entry of the result of [chat]. *)
Definition response_usage (r : response) : pyval :=
  match resp_usage r with
  | None => PNone
  | Some u =>
      let prompt_tokens := or_zero (u_prompt_tokens u) in
      let completion_tokens := or_zero (u_completion_tokens u) in
      let total_tokens := or_zero (u_total_tokens u) in
      PDict (mk_dict
        [ ("prompt_tokens", PInt prompt_tokens);
          ("completion_tokens", PInt completion_tokens);
          ("total_tokens",
            PInt (if Z.eqb total_tokens 0 then prompt_tokens + completion_tokens
                  else total_tokens)) ])
  end.

Definition not_none (v : pyval) : option pyval :=
  match v with PNone => None | _ => Some v end.

Section Provider.

(** The provider SDK's [completion]: what it answers to the [n]-th call
    of the process with the given keyword arguments, either a failure
    (its message and its [code] attribute, if any) or a response. *)
Variable completion : nat -> completion_options -> (string * option pyval) + response.

(** [str(v)] for a float, a list or a dict (the interpreter's
    formatting of these values). *)
Variable repr_of : pyval -> string.

(** [str(v)], as an f-string formats a value. *)
Definition py_str (v : pyval) : string :=
  match v with
  | PStr s => s
  | PNone => "None"
  | PBool true => "True"
  | PBool false => "False"
  | PInt z => decimal_Z z
  | _ => repr_of v
  end.

Definition get_provider_model_string (provider model : pyval) : pyval :=
  if eq_str provider "openai" then model
  else if eq_str provider "anthropic" then model
  else if eq_str provider "groq" then PStr ("groq/" +:+ py_str model)
  else if eq_str provider "mistral" then PStr ("mistral/" +:+ py_str model)
  else if eq_str provider "google" then PStr ("gemini/" +:+ py_str model)
  else if eq_str provider "cohere" then PStr ("cohere/" +:+ py_str model)
  else if eq_str provider "together_ai" then PStr ("together_ai/" +:+ py_str model)
  else if eq_str provider "openrouter" then PStr ("openrouter/" +:+ py_str model)
  else if eq_str provider "deepseek" then PStr ("deepseek/" +:+ py_str model)
  else if eq_str provider "cerebras" then PStr ("cerebras/" +:+ py_str model)
  else model.

(** The call of the SDK's [completion] with the keyword arguments [opts]. *)
Definition call_completion (opts : completion_options) : M response :=
  fun w =>
    let w' := with_completion_calls (cons opts) w in
    match completion (List.length (completion_calls w)) opts with
    | inl (message, code) => (Raise (Exn GenericException message code), w')
    | inr r => (Ok r, w')
    end.

Definition chat (messages : list pyval) (options : gmap string pyval) : M pyval :=
  let provider := dict_get_default options "provider" (PStr "openai") in
  let model := dict_get_default options "model" (PStr "gpt-4") in
  let api_key := dict_get options "api_key" in
  api_key <- (if negb (truthy api_key) then
                info <- lift (supported_provider provider) ;;
                match info with
                | Some (_, env_var) =>
                    value <- gets (fun w => environ (sys w) !! env_var) ;;
                    ret (opt_to_py value)
                | None => ret api_key
                end
              else ret api_key) ;;
  if negb (truthy api_key)
  then raise (Exn ValueError ("No API key found for provider '" +:+ py_str provider +:+ "'") None)
  else
    let model_string := get_provider_model_string provider model in
    let completion_options :=
      CompletionOptions model_string messages api_key
        (not_none (dict_get options "temperature"))
        (not_none (dict_get options "max_tokens")) in
    try_except
      (response <- call_completion completion_options ;;
       mark_online provider true ;;;
       let text := response_text response in
       if negb (truthy (PStr text))
       then raise (Exn ValueError "Backend returned empty response" None)
       else ret (PDict (mk_dict [ ("text", PStr text); ("usage", response_usage response) ])))
      (fun e => mark_online provider false ;;; raise e).

(* =================================================================== *)
(** ** openai_adapter.py *)
(* =================================================================== *)

Definition generate_completion_id : M string :=
  random_chars <- random_choices (ascii_lowercase +:+ digits) 7 ;;
  now <- time_ms ;;
  ret ("chatcmpl-" +:+ decimal_N now +:+ "-" +:+ random_chars).

(** [str(error) or "An error occurred"]. *)
Definition error_message (error : exn) : string :=
  if truthy (PStr (exn_msg error)) then exn_msg error else "An error occurred".

Definition create_error_response (error : exn) (status_code : Z) (error_type : string)
    : pyval :=
  PDict (mk_dict
    [ ("statusCode", PInt status_code);
      ("body", PDict (mk_dict
         [ ("error", PDict (mk_dict
              [ ("message", PStr (error_message error));
                ("type", PStr error_type);
                ("code", default PNone (exn_code error)) ])) ])) ]).

Definition validate_message (msg : pyval) : outcome unit :=
  match msg with
  | PDict m =>
      if negb (bool_decide (is_Some (m !! "role"))) || is_none (dict_get m "content")
      then Raise (validation_error "Each message must have role and content fields")
      else Ok tt
  | _ => Raise (validation_error "Each message must be an object")
  end.

Fixpoint validate_messages (messages : list pyval) : outcome unit :=
  match messages with
  | [] => Ok tt
  | msg :: rest =>
      match validate_message msg with
      | Ok _ => validate_messages rest
      | Raise e => Raise e
      end
  end.

(** [not model or not isinstance(model, str) or not model.strip()]. *)
Definition model_missing (model : pyval) : bool :=
  negb (truthy model)
  || match model with
     | PStr s => negb (truthy (PStr (strip s)))
     | _ => true
     end.

Definition validate_request (body : pyval) : outcome bool :=
  if negb (truthy body) then Raise (validation_error "Request body is required")
  else
    match body with
    | PDict b =>
        if model_missing (dict_get b "model")
        then Raise (validation_error "model field is required")
        else if negb (truthy (dict_get b "messages")) && negb (truthy (dict_get b "prompt"))
        then Raise (validation_error "Either messages or prompt field is required")
        else
          match dict_get b "messages" with
          | PNone => Ok true
          | PList [] => Raise (validation_error "messages must be a non-empty array")
          | PList messages =>
              match validate_messages messages with
              | Ok _ => Ok true
              | Raise e => Raise e
              end
          | _ => Raise (validation_error "messages must be a non-empty array")
          end
    | _ => Raise (no_attribute_get body)
    end.

(** [" ".join(...)] over the collected items: every item must be a
    [str]. *)
Fixpoint join_items (items : list pyval) (i : nat) : outcome (list string) :=
  match items with
  | [] => Ok []
  | PStr s :: rest =>
      match join_items rest (S i) with
      | Ok parts => Ok (s :: parts)
      | Raise e => Raise e
      end
  | v :: _ =>
      Raise (Exn TypeError
        ("sequence item " +:+ decimal_nat i +:+ ": expected str instance, "
         +:+ type_name v +:+ " found") None)
  end.

(** [m.get("content", "") for m in input_messages]. *)
Fixpoint message_contents (input_messages : list pyval) : outcome (list pyval) :=
  match input_messages with
  | [] => Ok []
  | m :: rest =>
      match py_get_default m "content" (PStr "") with
      | Raise e => Raise e
      | Ok content =>
          match message_contents rest with
          | Ok contents => Ok (content :: contents)
          | Raise e => Raise e
          end
      end
  end.

Definition py_str_value (v : pyval) : option string :=
  match v with PStr s => Some s | _ => None end.

(** The [usage] block the adapter computes when the result of [chat]
    carries none. *)
Definition estimate_usage (input_messages : list pyval) (text : pyval) : outcome pyval :=
  match message_contents input_messages with
  | Raise e => Raise e
  | Ok contents =>
      match join_items contents 0 with
      | Raise e => Raise e
      | Ok parts =>
          let prompt_text := str_join " " parts in
          let prompt_tokens := estimate_tokens (Some prompt_text) in
          let completion_tokens := estimate_tokens (py_str_value text) in
          Ok (PDict (mk_dict
            [ ("prompt_tokens", PInt prompt_tokens);
              ("completion_tokens", PInt completion_tokens);
              ("total_tokens", PInt (prompt_tokens + completion_tokens)) ]))
      end
  end.

(** [len(messages) if messages else 1], for [messages] that passed the
    validation (nothing, or a list that is not empty). *)
Definition message_count (messages : pyval) : pyval :=
  match messages with
  | PList (m :: rest) => PInt (Z.of_nat (List.length (m :: rest)))
  | _ => PInt 1
  end.

Definition insert_if_not_none (key : string) (v : pyval) (d : gmap string pyval)
    : gmap string pyval :=
  if is_none v then d else <[key := v]> d.

(** [messages if messages else [{"role": "user", "content": prompt}]], for
    [messages] that passed the validation. *)
Definition build_input_messages (messages prompt : pyval) : list pyval :=
  match messages with
  | PList (m :: rest) => m :: rest
  | _ => [PDict (mk_dict [ ("role", PStr "user"); ("content", prompt) ])]
  end.

(** The context of the error log: [request_body.get("model")] is
    evaluated in the handler, before [log_error] is called. *)
Definition error_context (request_body : pyval) : outcome (gmap string pyval) :=
  match py_get request_body "model" with
  | Raise e => Raise e
  | Ok requested =>
      Ok (mk_dict [ ("endpoint", PStr "/v1/chat/completions"); ("requestedModel", requested) ])
  end.

(** The body of the [try] block after the activation check. *)
Definition serve (request_body : pyval) : M pyval :=
  lift (validate_request request_body) ;;;
  config <- get_config ;;
  requested_model <- lift (py_get_default request_body "model" (PStr "")) ;;
  messages <- lift (py_get request_body "messages") ;;
  prompt <- lift (py_get request_body "prompt") ;;
  temperature <- lift (py_get request_body "temperature") ;;
  max_tokens_first <- lift (py_get request_body "max_tokens") ;;
  max_tokens_second <- lift (py_get request_body "max_completion_tokens") ;;
  let max_tokens := py_or max_tokens_first max_tokens_second in
  provider <- lift (py_get_default config "provider" (PStr "openai")) ;;
  model <- lift (py_get_default config "model" (PStr "gpt-4")) ;;
  api_key_env_var <- lift (py_get_default config "apiKeyEnvVar" (PStr "OPENAI_API_KEY")) ;;
  log_request (mk_dict
    [ ("incomingModel", requested_model);
      ("provider", provider);
      ("model", model);
      ("messageCount", message_count messages);
      ("status", PStr "processing") ]) ;;;
  let options :=
    insert_if_not_none "max_tokens" max_tokens
      (insert_if_not_none "temperature" temperature
         (mk_dict [ ("provider", provider); ("model", model); ("api_key", PNone) ])) in
  let input_messages := build_input_messages messages prompt in
  result <- chat input_messages options ;;
  reported <- lift (py_get result "usage") ;;
  text <- lift (py_get result "text") ;;
  usage <- (if truthy reported then ret reported
            else lift (estimate_usage input_messages text)) ;;
  prompt_tokens <- lift (py_get usage "prompt_tokens") ;;
  completion_tokens <- lift (py_get usage "completion_tokens") ;;
  total_tokens <- lift (py_get usage "total_tokens") ;;
  log_success (mk_dict
    [ ("provider", provider);
      ("model", model);
      ("promptTokens", prompt_tokens);
      ("completionTokens", completion_tokens);
      ("totalTokens", total_tokens) ]) ;;;
  let response_model := requested_model in
  completion_id <- generate_completion_id ;;
  created <- time_ms ;;
  ret (PDict (mk_dict
    [ ("statusCode", PInt 200);
      ("body", PDict (mk_dict
         [ ("id", PStr completion_id);
           ("object", PStr "chat.completion");
           ("created", PInt (Z.of_N (created / 1000)));
           ("model", response_model);
           ("choices", PList
              [ PDict (mk_dict
                  [ ("index", PInt 0);
                    ("message", PDict (mk_dict
                       [ ("role", PStr "assistant"); ("content", text) ]));
                    ("finish_reason", PStr "stop") ]) ]);
           ("usage", usage) ])) ])).

Definition handle_chat_completion (request_body : pyval) : M pyval :=
  try_except
    (active <- is_emulator_active ;;
     if negb active
     then ret (create_error_response
                 (Exn GenericException
                    "Emulator is not active. Start it from the configuration UI." None)
                 503 "service_unavailable")
     else serve request_body)
    (fun e =>
       match exn_cls e with
       | ValidationError status_code type =>
           context <- lift (error_context request_body) ;;
           log_error e context ;;;
           ret (create_error_response e status_code type)
       | _ =>
           context <- lift (error_context request_body) ;;
           log_error e context ;;;
           let '(status_code, error_type) := classify_error e in
           ret (create_error_response e status_code error_type)
       end).

End Provider.

(* ===================================================================== *)
(** ** Reading a response of the adapter *)
(* ===================================================================== *)

(** [result["statusCode"]]. *)
Definition status_of (result : pyval) : option Z :=
  match result with
  | PDict r => match r !! "statusCode" with Some (PInt n) => Some n | _ => None end
  | _ => None
  end.

(** [result["body"][key]]. *)
Definition body_entry (key : string) (result : pyval) : option pyval :=
  match result with
  | PDict r => match r !! "body" with Some (PDict b) => b !! key | _ => None end
  | _ => None
  end.

(** [result["body"]["error"]["type"]]. *)
Definition error_type_of (result : pyval) : option string :=
  match body_entry "error" result with
  | Some (PDict e) => match e !! "type" with Some (PStr t) => Some t | _ => None end
  | _ => None
  end.

(** [result["body"]["usage"][key]]. *)
Definition usage_entry (key : string) (result : pyval) : option pyval :=
  match body_entry "usage" result with
  | Some (PDict u) => u !! key
  | _ => None
  end.

(** [result["body"]["choices"][0]["message"]["content"]]. *)
Definition returned_text (result : pyval) : option pyval :=
  match body_entry "choices" result with
  | Some (PList (PDict c :: _)) =>
      match c !! "message" with
      | Some (PDict m) => m !! "content"
      | _ => None
      end
  | _ => None
  end.

(* ===================================================================== *)
(** ** What happens outside the process *)
(* ===================================================================== *)

(** Another program (or the operator) replaces a file. *)
Definition external_write (path : string) (f : file) (w : world) : world :=
  with_sys (fun s => put_files (<[path := f]> (files s)) s) w.

(** Another program (or the operator) deletes a file. *)
Definition external_delete (path : string) (w : world) : world :=
  with_sys (fun s => put_files (delete path (files s)) s) w.

(* ===================================================================== *)
(** ** Worlds to run the code in *)
(* ===================================================================== *)

(** A process that has just started in an empty configuration directory:
    nothing cached, the logger wired to [get_config] as [main.py] does, an
    API key for OpenAI in the environment, a clock that advances by one
    millisecond per reading, writes that succeed. *)
Definition fresh_system : system :=
  System ∅ ∅ (list_to_map [ ("OPENAI_API_KEY", "sk-test") ])
    (fun n => N.of_nat n + 1700000000000)%N 0 (fun n => n) 0 [].

Definition fresh_world : world :=
  World (ConfigGlobals None None None None false) (LoggerGlobals true None None)
    [] [] fresh_system [].

(** The same process once the emulator has been switched on. *)
Definition active_world : world := with_cfg (put_emulator_active true) fresh_world.

(** The same process when every write into the configuration directory is
    refused. *)
Definition read_only_world : world :=
  with_sys (fun s =>
    System (files s)
      (list_to_map [ (CONFIG_PATH, OpenFails); (MODELS_CACHE_PATH, OpenFails);
                     (SAVED_CONFIGS_PATH, OpenFails) ])
      (environ s) (clock s) (clock_reads s) (rng s) (rng_draws s) (stdout s))
    fresh_world.

(** The document in the models-cache file, when the file is there, parses,
    and holds a list under [models]. *)
Definition models_document (w : world) : option pyval :=
  match files (sys w) !! MODELS_CACHE_PATH with
  | Some (File (Some (PDict d)) _) =>
      if is_list (dict_get d "models") then Some (PDict d) else None
  | _ => None
  end.

(** C5 as the specification states it: like the configuration, a cached
    models document is superseded by the file once the file has changed. *)
Definition models_cache_follows_file : Prop :=
  forall (w w1 : world) (cached : pyval) (f : file) (d : gmap string pyval),
    get_models_cache w = (Ok cached, w1) ->
    cached_models (cfg w1) = Some cached ->
    file_doc f = Some (PDict d) ->
    is_list (dict_get d "models") = true ->
    (file_mtime <$> files (sys w1) !! MODELS_CACHE_PATH) <> Some (file_mtime f) ->
    fst (get_models_cache (external_write MODELS_CACHE_PATH f w1)) = Ok (PDict d).

(* ===================================================================== *)
(** ** Presets: observations and invariants *)
(* ===================================================================== *)

(** The presets as [main.py] reports them: the elements of the list that
    [get_saved_configs()] returns. *)
Definition list_presets : M (list pyval) :=
  configs <- get_saved_configs ;;
  read_list configs.

(** The list in the presets file, when the file is there, parses, and
    holds a list. *)
Definition presets_document (w : world) : option (list pyval) :=
  match files (sys w) !! SAVED_CONFIGS_PATH with
  | Some (File (Some (PList l)) _) => Some l
  | _ => None
  end.

(** A reference held in a global refers to an object of the heap. *)
Definition heap_ok (w : world) : Prop :=
  forall configs, cached_saved_configs (cfg w) = Some configs ->
                  (configs < List.length (heap w))%nat.

(** The preset that [add_saved_config] builds. *)
Definition new_preset (new_id name provider model api_key_env_var : string) : pyval :=
  PDict (mk_dict
    [ ("id", PStr new_id);
      ("name", PStr name);
      ("provider", PStr provider);
      ("model", PStr model);
      ("apiKeyEnvVar", PStr api_key_env_var) ]).

Definition is_digit (c : ascii) : bool := char_between 48 57 c.

Definition is_lower_alnum (c : ascii) : bool := char_between 97 122 c || is_digit c.

(** The longest prefix of digits, and what follows it. *)
Fixpoint span_digits (s : string) : string * string :=
  match s with
  | EmptyString => (EmptyString, EmptyString)
  | String c rest =>
      if is_digit c
      then let '(ds, tail) := span_digits rest in (String c ds, tail)
      else (EmptyString, s)
  end.

Fixpoint drop_prefix (prefix s : string) : option string :=
  match prefix, s with
  | EmptyString, _ => Some s
  | String a prefix', String b s' => if Ascii.eqb a b then drop_prefix prefix' s' else None
  | String _ _, EmptyString => None
  end.

(** The pattern [<prefix><digits>-<k lowercase letters or digits>], with at
    least one digit. *)
Definition matches_id_pattern (prefix : string) (k : nat) (s : string) : bool :=
  match drop_prefix prefix s with
  | None => false
  | Some rest =>
      match span_digits rest with
      | (EmptyString, _) => false
      | (_, String "-" tail) =>
          Nat.eqb (String.length tail) k && all_chars is_lower_alnum tail
      | _ => false
      end
  end.

(** C9 as stated: whenever the save fails, [add_saved_config] returns
    [None] and the presets listed afterwards contain the new preset. *)
Definition failed_add_is_listed : Prop :=
  forall (name provider model api_key_env_var : string) (w : world),
    heap_ok w ->
    is_Some (write_faults (sys w) !! SAVED_CONFIGS_PATH) ->
    exists (w1 w2 : world) (l : list pyval) (new_id : string),
      add_saved_config name provider model api_key_env_var w = (Ok None, w1)
      /\ list_presets w1 = (Ok l, w2)
      /\ In (new_preset new_id name provider model api_key_env_var) l.

(** A stored preset, and the processes above with that preset in the
    presets file. *)
Definition sample_preset : pyval :=
  new_preset "cfg-1699999999999-abc123" "work" "groq" "llama-3.1-8b-instant" "GROQ_API_KEY".

Definition one_preset_world : world :=
  external_write SAVED_CONFIGS_PATH (File (Some (PList [sample_preset])) 5) fresh_world.

Definition one_preset_read_only_world : world :=
  external_write SAVED_CONFIGS_PATH (File (Some (PList [sample_preset])) 5) read_only_world.

(* ===================================================================== *)
(** ** The adapter: what the claims speak of *)
(* ===================================================================== *)

(** The ceiling of [n / 4]. *)
Definition ceil_quarter (n : nat) : Z := (Z.of_nat n + 3) / 4.

(** The logger can evaluate a toggle: either it is not wired to
    [get_config], or the configuration is an object whose [logging] entry
    is missing or an object. *)
Definition logger_can_read (flag : string) (w : world) : Prop :=
  get_config_set (lg w) = true ->
  exists (config : pyval) (w1 : world) (on : bool),
    get_config w = (Ok config, w1) /\ logging_flag config flag = Ok on.

(** The content of one message, when it is a string. *)
Definition content_of (m : pyval) : option string :=
  match py_get_default m "content" (PStr "") with
  | Ok (PStr c) => Some c
  | _ => None
  end.

(** C1 as stated: the prompt tokens of a successful answer without a
    usage report are the sum, over the input messages, of the ceiling of a
    quarter of the length of the content. *)
Definition prompt_tokens_are_summed : Prop :=
  forall (completion : nat -> completion_options -> (string * option pyval) + response)
         (repr_of : pyval -> string)
         (b : gmap string pyval) (messages : list pyval) (w w1 : world) (result : pyval),
    (forall n opts r, completion n opts = inr r -> resp_usage r = None) ->
    dict_get b "messages" = PList messages ->
    handle_chat_completion completion repr_of (PDict b) w = (Ok result, w1) ->
    status_of result = Some 200 ->
    usage_entry "prompt_tokens" result
    = Some (PInt (foldr Z.add 0
        (map (fun m => ceil_quarter (String.length (default "" (content_of m)))) messages))).

(** C4 as stated: a request without a model is answered 400
    invalid_request_error, whatever the state of the emulator. *)
Definition missing_model_is_always_400 : Prop :=
  forall (completion : nat -> completion_options -> (string * option pyval) + response)
         (repr_of : pyval -> string)
         (b : gmap string pyval) (w : world),
    b !! "model" = None ->
    exists (result : pyval) (w1 : world),
      handle_chat_completion completion repr_of (PDict b) w = (Ok result, w1)
      /\ status_of result = Some 400
      /\ error_type_of result = Some "invalid_request_error".

(** A backend that answers every call with the text "ok" and reports no
    usage, and a formatting of floats, lists and dicts. *)
Definition ok_backend : nat -> completion_options -> (string * option pyval) + response :=
  fun _ _ => inr (Response (Some [ChoiceObj (Some (MessageObj (Some "ok")))]) None).

Definition plain_repr : pyval -> string := fun _ => "<value>".

Definition user_message (content : string) : pyval :=
  PDict (mk_dict [ ("role", PStr "user"); ("content", PStr content) ]).

(** A request with two messages, "a" and "b". *)
Definition two_message_request : gmap string pyval :=
  mk_dict [ ("model", PStr "gpt-4");
            ("messages", PList [user_message "a"; user_message "b"]) ].

(** A request with messages and no model. *)
Definition no_model_request : gmap string pyval :=
  mk_dict [ ("messages", PList [user_message "hi"]) ].

(** An exception that, caught by the handler, cannot produce a status
    other than 400: it is not a [ValidationError], or carries 400. *)
Definition benign (e : exn) : Prop :=
  match exn_cls e with
  | ValidationError status_code _ => status_code = 400
  | _ => True
  end.

(** The world after [generate_id]: six draws and one reading of the
    clock. *)
Definition after_generate_id (w : world) : world :=
  with_sys (put_clock_reads (S (clock_reads (sys w))))
    (with_sys (put_rng_draws (6 + rng_draws (sys w))) w).

(** [m] never calls the provider SDK. *)
Definition keeps_calls {A : Type} (m : M A) : Prop :=
  forall w r w', m w = (r, w') -> completion_calls w' = completion_calls w.

(** Whatever [m] raises is [benign]. *)
Definition raises_benign {A : Type} (m : M A) : Prop :=
  forall w e w', m w = (Raise e, w') -> benign e.

(* ===================================================================== *)
(** ** The rest of config.py, logger.py and litellm_client.py *)
(* ===================================================================== *)

(** [get_last_config]: [get_config().get("lastConfig")]. *)
Definition get_last_config : M pyval :=
  config <- get_config ;;
  lift (py_get config "lastConfig").

(** [set_config_getter(get_config)], as [main.py] calls it. *)
Definition set_config_getter : M unit :=
  modify (with_lg (fun l =>
    LoggerGlobals true (last_successful_completion l) (last_error l))).

(** [get_health_info]. *)
Definition get_health_info : M pyval :=
  gets (fun w => PDict (mk_dict
    [ ("lastSuccessfulCompletion", default PNone (last_successful_completion (lg w)));
      ("lastError", default PNone (last_error (lg w))) ])).

(** The globals of a process that has just been started, before any
    module-level code has run. *)
Definition blank_process (s : system) : world :=
  World (ConfigGlobals None None None None false) (LoggerGlobals false None None) [] [] s [].

(** The start of the process: importing [config.py] runs
    [_init_emulator_state()], then [main.py] wires the logger. *)
Definition start_process (s : system) : outcome unit * world :=
  (init_emulator_state ;;; set_config_getter) (blank_process s).

(** [is_provider_online]: [_provider_online.get(provider, False)], the
    flag of the latest assignment under the key. *)
Definition is_provider_online (provider : string) : M bool :=
  gets (fun w =>
    match List.find (fun entry => eq_str (fst entry) provider) (provider_online w) with
    | Some (_, flag) => flag
    | None => false
    end).

(** An entry of [SUPPORTED_PROVIDERS] in full. *)
Record provider_info : Type := ProviderInfo {
  provider_name : string;
  provider_env_var : string;
  provider_models : list (string * string)
}.

(** [SUPPORTED_PROVIDERS], in the order of the source: each provider with
    its display name, its environment variable and its models (id and
    label). *)
Definition PROVIDER_CATALOG : list (string * provider_info) :=
  [ ("openai", ProviderInfo "OpenAI" "OPENAI_API_KEY"
       [ ("gpt-4", "GPT-4");
         ("gpt-4-turbo", "GPT-4 Turbo");
         ("gpt-4o", "GPT-4o");
         ("gpt-4o-mini", "GPT-4o Mini");
         ("gpt-3.5-turbo", "GPT-3.5 Turbo");
         ("o1", "o1");
         ("o1-mini", "o1 Mini");
         ("o1-preview", "o1 Preview") ]);
    ("anthropic", ProviderInfo "Anthropic" "ANTHROPIC_API_KEY"
       [ ("claude-3-5-sonnet-20241022", "Claude 3.5 Sonnet");
         ("claude-3-5-haiku-20241022", "Claude 3.5 Haiku");
         ("claude-3-opus-20240229", "Claude 3 Opus");
         ("claude-3-sonnet-20240229", "Claude 3 Sonnet");
         ("claude-3-haiku-20240307", "Claude 3 Haiku") ]);
    ("groq", ProviderInfo "Groq" "GROQ_API_KEY"
       [ ("llama-3.3-70b-versatile", "Llama 3.3 70B");
         ("llama-3.1-70b-versatile", "Llama 3.1 70B");
         ("llama-3.1-8b-instant", "Llama 3.1 8B");
         ("mixtral-8x7b-32768", "Mixtral 8x7B");
         ("gemma2-9b-it", "Gemma 2 9B") ]);
    ("mistral", ProviderInfo "Mistral" "MISTRAL_API_KEY"
       [ ("mistral-large-latest", "Mistral Large");
         ("mistral-medium-latest", "Mistral Medium");
         ("mistral-small-latest", "Mistral Small");
         ("open-mixtral-8x22b", "Mixtral 8x22B");
         ("open-mixtral-8x7b", "Mixtral 8x7B");
         ("codestral-latest", "Codestral") ]);
    ("google", ProviderInfo "Google (Gemini)" "GEMINI_API_KEY"
       [ ("gemini-1.5-pro", "Gemini 1.5 Pro");
         ("gemini-1.5-flash", "Gemini 1.5 Flash");
         ("gemini-1.0-pro", "Gemini 1.0 Pro") ]);
    ("cohere", ProviderInfo "Cohere" "COHERE_API_KEY"
       [ ("command-r-plus", "Command R+");
         ("command-r", "Command R");
         ("command", "Command");
         ("command-light", "Command Light") ]);
    ("together_ai", ProviderInfo "Together AI" "TOGETHER_API_KEY"
       [ ("meta-llama/Llama-3.3-70B-Instruct-Turbo", "Llama 3.3 70B");
         ("meta-llama/Meta-Llama-3.1-405B-Instruct-Turbo", "Llama 3.1 405B");
         ("mistralai/Mixtral-8x22B-Instruct-v0.1", "Mixtral 8x22B");
         ("Qwen/Qwen2.5-72B-Instruct-Turbo", "Qwen 2.5 72B") ]);
    ("openrouter", ProviderInfo "OpenRouter" "OPENROUTER_API_KEY"
       [ ("openai/gpt-4-turbo", "GPT-4 Turbo");
         ("anthropic/claude-3.5-sonnet", "Claude 3.5 Sonnet");
         ("google/gemini-pro-1.5", "Gemini 1.5 Pro");
         ("meta-llama/llama-3.1-405b-instruct", "Llama 3.1 405B") ]);
    ("deepseek", ProviderInfo "DeepSeek" "DEEPSEEK_API_KEY"
       [ ("deepseek-chat", "DeepSeek Chat");
         ("deepseek-coder", "DeepSeek Coder") ]);
    ("cerebras", ProviderInfo "Cerebras" "CEREBRAS_API_KEY"
       [ ("llama3.1-8b", "Llama 3.1 8B");
         ("llama3.1-70b", "Llama 3.1 70B") ]) ].

(** [SUPPORTED_PROVIDERS[provider]] when [provider in SUPPORTED_PROVIDERS]. *)
Definition catalog_lookup (provider : string) : option provider_info :=
  snd <$> List.find (fun entry => String.eqb (fst entry) provider) PROVIDER_CATALOG.



(** One element of the result of [list_models]. *)
Definition listed_model (prov : string) (info : provider_info) (m : string * string)
    : pyval :=
  PDict (mk_dict
    [ ("id", PStr (fst m));
      ("label", PStr (snd m));
      ("provider", PStr prov);
      ("providerName", PStr (provider_name info)) ]).

(** [[provider] if provider else SUPPORTED_PROVIDERS.keys()]. *)
Definition providers_to_check (provider : option string) : list string :=
  match provider with
  | Some p => if truthy (PStr p) then [p] else map fst PROVIDER_CATALOG
  | None => map fst PROVIDER_CATALOG
  end.

Definition list_models (provider : option string) : list pyval :=
  flat_map
    (fun prov =>
       match catalog_lookup prov with
       | None => []
       | Some info => map (listed_model prov info) (provider_models info)
       end)
    (providers_to_check provider).

(** [get_api_key]. *)
Definition get_api_key (provider : string) (env_var : option string) : M (option string) :=
  env <- gets (fun w => environ (sys w)) ;;
  match env_var with
  | Some v =>
      if truthy (PStr v) then ret (env !! v)
      else ret (match catalog_lookup provider with
                | Some info => env !! provider_env_var info
                | None => None
                end)
  | None =>
      ret (match catalog_lookup provider with
           | Some info => env !! provider_env_var info
           | None => None
           end)
  end.

(** [a or b] on optional strings. *)
Definition opt_or (a b : option string) : option string :=
  match a with
  | Some s => if truthy (PStr s) then a else b
  | None => b
  end.

(** [not key] on an optional string. *)
Definition opt_falsy (key : option string) : bool :=
  match key with
  | Some s => negb (truthy (PStr s))
  | None => true
  end.

(* ===================================================================== *)
(** ** main.py: model normalisation and the chat route *)
(* ===================================================================== *)

Definition normalize_model (model : pyval) : outcome (option pyval) :=
  if negb (truthy model) then Ok None
  else
    match model with
    | PStr _ =>
        Ok (Some (PDict (mk_dict
          [ ("id", model); ("label", model); ("provider", PStr "unknown") ])))
    | PDict d =>
        let model_id := py_or (py_or (dict_get d "id") (dict_get d "model")) (dict_get d "name") in
        if negb (truthy model_id) then Ok None
        else
          Ok (Some (PDict (mk_dict
            [ ("id", model_id);
              ("label",
                py_or (py_or (py_or (dict_get d "label") (dict_get d "title"))
                         (dict_get d "display_name")) model_id);
              ("provider", py_or (dict_get d "provider") (PStr "unknown"));
              ("providerName",
                py_or (py_or (dict_get d "providerName") (dict_get d "provider"))
                  (PStr "Unknown")) ])))
    | _ => Raise (no_attribute_get model)
    end.

Section Surface.

(** The provider SDK's [completion] called with the keyword [timeout]: what
    it answers, by the timeout, to the [n]-th call of the process. *)
Variable completion_within :
  Z -> nat -> completion_options -> (string * option pyval) + response.

Variable completion : nat -> completion_options -> (string * option pyval) + response.

Variable repr_of : pyval -> string.

(** [check_connectivity]. The test call carries [max_tokens=5] and
    [timeout=10]; the record of the call keeps the other keyword
    arguments. *)
Definition check_connectivity (provider : string) (api_key : option string) : M bool :=
  match catalog_lookup provider with
  | None => ret false
  | Some info =>
      env <- gets (fun w => environ (sys w)) ;;
      let key := opt_or api_key (env !! provider_env_var info) in
      if opt_falsy key then (mark_online (PStr provider) false ;;; ret false)
      else
        let test_model :=
          match provider_models info with
          | first :: _ => PStr (fst first)
          | [] => PNone
          end in
        if negb (truthy test_model) then ret false
        else
          try_except
            (let model_string := get_provider_model_string repr_of (PStr provider) test_model in
             call_completion (completion_within 10)
               (CompletionOptions model_string
                  [PDict (mk_dict [ ("role", PStr "user"); ("content", PStr "Hi") ])]
                  (opt_to_py key) None (Some (PInt 5))) ;;;
             mark_online (PStr provider) true ;;;
             ret true)
            (fun _ => mark_online (PStr provider) false ;;; ret false)
  end.

(** The answer of [main.py] when the handler of a route raises. *)
Definition internal_server_error_content : pyval :=
  PDict (mk_dict
    [ ("error", PDict (mk_dict
         [ ("message", PStr "Internal server error");
           ("type", PStr "internal_server_error") ])) ]).

(** The route [POST /v1/chat/completions]: the status code and the content
    of the [JSONResponse]. [parsed] is the outcome of [request.json()].
    The subscripts [result["statusCode"]] and [result["body"]] are read as
    lookups: every result of the handler holds both keys, so neither can
    raise [KeyError]. *)
Definition chat_completions (parsed : outcome pyval) : M (pyval * pyval) :=
  try_except
    (body <- lift parsed ;;
     result <- handle_chat_completion completion repr_of body ;;
     status_code <- lift (py_get result "statusCode") ;;
     content <- lift (py_get result "body") ;;
     ret (status_code, content))
    (fun e =>
       log_error e (mk_dict [ ("endpoint", PStr "/v1/chat/completions") ]) ;;;
       ret (PInt 500, internal_server_error_content)).

End Surface.

(* ===================================================================== *)
(** ** Stored presets, as values *)
(* ===================================================================== *)

Definition is_dict (v : pyval) : bool :=
  match v with PDict _ => true | _ => false end.

(** [c.get("id") == config_id], for a stored preset that is an object. *)
Definition preset_has_id (config_id : string) (c : pyval) : bool :=
  match c with
  | PDict d => eq_str (dict_get d "id") config_id
  | _ => false
  end.

(** The value an optional argument of [update_saved_config] leaves under a
    key: an argument that is given (and, unless [keep_empty], not empty)
    replaces the old value. *)
Definition overwritten (keep_empty : bool) (value : option string) (old : option pyval)
    : option pyval :=
  match value with
  | Some s => if keep_empty || truthy (PStr s) then Some (PStr s) else old
  | None => old
  end.

(** [m["provider"] == provider], for an element of the result of
    [list_models]. *)
Definition has_provider (provider : string) (m : pyval) : bool :=
  match m with
  | PDict d => eq_str (dict_get d "provider") provider
  | _ => false
  end.


(** The models [list_models] yields for one provider id. *)
Definition models_of (prov : string) : list pyval :=
  match catalog_lookup prov with
  | None => []
  | Some info => map (listed_model prov info) (provider_models info)
  end.

(** A [ValidationError] as the code raises it: with the default status
    and type. *)
Definition standard (e : exn) : Prop :=
  match exn_cls e with
  | ValidationError status_code type => status_code = 400 /\ type = "invalid_request_error"
  | _ => True
  end.

(** Whatever [m] raises is [standard]. *)
Definition raises_standard {A : Type} (m : M A) : Prop :=
  forall w e w', m w = (Raise e, w') -> standard e.

(** The status codes of the error answers, each with its error type. *)
Definition error_statuses : list (Z * string) :=
  [ (400, "invalid_request_error");
    (401, "authentication_error");
    (403, "permission_error");
    (404, "not_found_error");
    (429, "rate_limit_error");
    (500, "internal_server_error");
    (503, "service_unavailable") ].


(** A backend that answers "ok" and reports seven prompt tokens, two
    completion tokens and no total. *)
Definition reporting_backend : nat -> completion_options -> (string * option pyval) + response :=
  fun _ _ =>
    inr (Response (Some [ChoiceObj (Some (MessageObj (Some "ok")))])
           (Some (UsageObj (Some 7) (Some 2) None))).

(** [m] calls the provider SDK at most [n] times. *)
Definition calls_at_most (n : nat) {A : Type} (m : M A) : Prop :=
  forall w r w', m w = (r, w') ->
    exists calls, completion_calls w' = (calls ++ completion_calls w)%list
                  /\ (List.length calls <= n)%nat.

(** [m] leaves the globals of the logger as they are. *)
Definition keeps_logger {A : Type} (m : M A) : Prop :=
  forall w r w', m w = (r, w') -> lg w' = lg w.

(** The record [log_success] keeps of a completion. *)
Definition success_record (stamp : N) (provider model : pyval)
    (prompt_tokens completion_tokens total_tokens : pyval) : pyval :=
  PDict (mk_dict
    [ ("timestamp", PInt (Z.of_N stamp));
      ("provider", provider);
      ("model", model);
      ("tokens", PDict (mk_dict
         [ ("promptTokens", prompt_tokens);
           ("completionTokens", completion_tokens);
           ("totalTokens", total_tokens) ])) ]).

(* ===================================================================== *)
(** ** The preset round trip, as stated *)
(* ===================================================================== *)




(* ===================================================================== *)
(** * Properties *)
(* ===================================================================== *)

Lemma status_of_error_response (e : exn) (sc : Z) (ty : string) :
  status_of (create_error_response e sc ty) = Some sc.
Proof. reflexivity. Qed.

Lemma error_type_of_error_response (e : exn) (sc : Z) (ty : string) :
  error_type_of (create_error_response e sc ty) = Some ty.
Proof. reflexivity. Qed.

(* --------------------------------------------------------------------- *)
(** ** The unit tests of [tests/test_adapter.py], run on the embedding *)
(* --------------------------------------------------------------------- *)

Example test_valid_request_with_messages :
  validate_request
    (PDict (mk_dict [ ("model", PStr "gpt-4"); ("messages", PList [user_message "Hello"]) ]))
  = Ok true.
Proof. vm_compute. reflexivity. Qed.

Example test_valid_request_with_prompt :
  validate_request (PDict (mk_dict [ ("model", PStr "gpt-4"); ("prompt", PStr "Hello") ]))
  = Ok true.
Proof. vm_compute. reflexivity. Qed.

Example test_reject_missing_messages_and_prompt :
  validate_request (PDict (mk_dict [ ("model", PStr "gpt-4") ]))
  = Raise (validation_error "Either messages or prompt field is required").
Proof. vm_compute. reflexivity. Qed.

Example test_reject_empty_messages_array :
  validate_request (PDict (mk_dict [ ("model", PStr "gpt-4"); ("messages", PList []) ]))
  = Raise (validation_error "Either messages or prompt field is required").
Proof. vm_compute. reflexivity. Qed.

Example test_reject_invalid_message_format :
  validate_request
    (PDict (mk_dict [ ("model", PStr "gpt-4");
                      ("messages", PList [PDict (mk_dict [ ("role", PStr "user") ])]) ]))
  = Raise (validation_error "Each message must have role and content fields").
Proof. vm_compute. reflexivity. Qed.

Example test_reject_missing_model :
  validate_request (PDict no_model_request)
  = Raise (Exn (ValidationError 400 "invalid_request_error") "model field is required" None).
Proof. vm_compute. reflexivity. Qed.

Example test_reject_empty_model :
  validate_request
    (PDict (mk_dict [ ("model", PStr ""); ("messages", PList [user_message "Hello"]) ]))
  = Raise (validation_error "model field is required").
Proof. vm_compute. reflexivity. Qed.

Example test_reject_whitespace_model :
  validate_request
    (PDict (mk_dict [ ("model", PStr "   "); ("messages", PList [user_message "Hello"]) ]))
  = Raise (validation_error "model field is required").
Proof. vm_compute. reflexivity. Qed.

Example test_empty_content_accepted :
  validate_request
    (PDict (mk_dict [ ("model", PStr "gpt-4"); ("messages", PList [user_message ""]) ]))
  = Ok true.
Proof. vm_compute. reflexivity. Qed.

Example test_reject_none_body :
  validate_request PNone = Raise (validation_error "Request body is required").
Proof. reflexivity. Qed.

Example test_error_response_format :
  let resp := create_error_response (Exn GenericException "Test error" None)
                400 "invalid_request_error" in
  status_of resp = Some 400
  /\ error_type_of resp = Some "invalid_request_error"
  /\ match body_entry "error" resp with
     | Some (PDict e) => e !! "message" = Some (PStr "Test error")
     | _ => False
     end.
Proof. vm_compute. auto. Qed.

Example test_estimate_tokens_basic : estimate_tokens (Some "Test message") = 3.
Proof. reflexivity. Qed.

Example test_estimate_tokens_empty : estimate_tokens (Some "") = 0.
Proof. reflexivity. Qed.

Example test_estimate_tokens_none : estimate_tokens None = 0.
Proof. reflexivity. Qed.

Example test_network_error_econnrefused :
  classify_error (Exn GenericException "Connection refused" (Some (PStr "ECONNREFUSED")))
  = (503, "service_unavailable").
Proof. reflexivity. Qed.

Example test_network_error_etimedout :
  classify_error (Exn GenericException "Request timed out" (Some (PStr "ETIMEDOUT")))
  = (503, "service_unavailable").
Proof. reflexivity. Qed.

Example test_empty_response_error :
  classify_error (Exn GenericException "Backend returned empty response" None)
  = (503, "service_unavailable").
Proof. reflexivity. Qed.

Example test_auth_error :
  classify_error (Exn GenericException "Authentication failed: invalid token" None)
  = (401, "authentication_error").
Proof. reflexivity. Qed.

Example test_api_key_error :
  classify_error (Exn GenericException "Invalid API key provided" None)
  = (401, "authentication_error").
Proof. reflexivity. Qed.

Example test_rate_limit_error :
  classify_error (Exn GenericException "Rate limit exceeded" None)
  = (429, "rate_limit_error").
Proof. reflexivity. Qed.

Example test_permission_error :
  classify_error (Exn GenericException "Permission denied" None)
  = (403, "permission_error").
Proof. reflexivity. Qed.

Example test_not_found_error :
  classify_error (Exn GenericException "Model not found" None)
  = (404, "not_found_error").
Proof. reflexivity. Qed.

Example test_unknown_error :
  classify_error (Exn GenericException "Something unexpected happened" None)
  = (500, "internal_server_error").
Proof. reflexivity. Qed.

(* --------------------------------------------------------------------- *)
(** ** The error classifier *)
(* --------------------------------------------------------------------- *)

Lemma any_term_in_single (term msg : string) :
  any_term_in [term] msg = contains term msg.
Proof. unfold any_term_in. simpl. apply orb_false_r. Qed.

Lemma any_term_in_elem (terms : list string) (term msg : string) :
  In term terms -> contains term msg = true -> any_term_in terms msg = true.
Proof.
  intros Hin Hc. unfold any_term_in. apply existsb_exists. exists term. split; assumption.
Qed.

(** The code is the ordered rule list of the specification. *)
Lemma classify_error_refines (e : exn) :
  classify_error e = ClassifySpec.Classify e.
Proof.
  unfold classify_error, ClassifySpec.Classify, ClassifySpec.rules, ClassifySpec.first_match,
    ClassifySpec.network_rule, ClassifySpec.message_has.
  destruct (code_in (error_code e) network_codes); [reflexivity|].
  rewrite orb_false_l.
  repeat match goal with
         | |- (if ?c then _ else _) = (if ?c then _ else _) => destruct c; [reflexivity|]
         end.
  rewrite any_term_in_single. reflexivity.
Qed.

(** C2. [classify_error] is a function of the failure alone and equals the
    ordered rule list with the first match winning; a failure whose
    lowercased message contains both "invalid" and "api key", and which no
    network rule matches, is classified (401, authentication_error), not
    (400, invalid_request_error); a failure that no rule matches is
    classified (500, internal_server_error). *)
Theorem classify_error_first_match (e : exn) :
  classify_error e = ClassifySpec.Classify e
  /\ (ClassifySpec.network_rule e = false ->
      contains "invalid" (lower (exn_msg e)) = true ->
      contains "api key" (lower (exn_msg e)) = true ->
      classify_error e = (401, "authentication_error")
      /\ classify_error e <> (400, "invalid_request_error"))
  /\ (ClassifySpec.no_rule_matches e ->
      classify_error e = (500, "internal_server_error")).
Proof.
  split; [apply classify_error_refines|]. split.
  - intros Hnet _ Hkey.
    assert (Hc : classify_error e = (401, "authentication_error")).
    { unfold ClassifySpec.network_rule, ClassifySpec.message_has in Hnet.
      apply orb_false_iff in Hnet as [Hcode Hmsg].
      unfold classify_error. rewrite Hcode, Hmsg.
      rewrite (any_term_in_elem _ "api key" _); [reflexivity| |exact Hkey].
      simpl. tauto. }
    split; [exact Hc|]. rewrite Hc. discriminate.
  - intros Hnone. rewrite classify_error_refines.
    unfold ClassifySpec.no_rule_matches, ClassifySpec.rules in Hnone.
    repeat match goal with
           | H : Forall _ (_ :: _) |- _ => apply Forall_cons in H as [? H]
           end.
    cbn [fst] in *. unfold ClassifySpec.Classify, ClassifySpec.rules, ClassifySpec.first_match.
    repeat match goal with
           | H : ?c = false |- context [if ?c then _ else _] => rewrite H
           end.
    reflexivity.
Qed.

Lemma classify_error_first_match_witness :
  classify_error (Exn GenericException "Invalid API key provided" None)
    = (401, "authentication_error")
  /\ classify_error (Exn GenericException "Something unexpected happened" None)
    = (500, "internal_server_error").
Proof.
  split.
  - apply (proj1 (proj2 (classify_error_first_match
                           (Exn GenericException "Invalid API key provided" None))));
      reflexivity.
  - apply (proj2 (proj2 (classify_error_first_match
                           (Exn GenericException "Something unexpected happened" None)))).
    unfold ClassifySpec.no_rule_matches, ClassifySpec.rules.
    repeat constructor.
Defined.

(* --------------------------------------------------------------------- *)
(** ** Running the effects *)
(* --------------------------------------------------------------------- *)

Create HintDb effects.
#[global] Hint Unfold bind ret raise gets modify lift try_except : effects.
#[global] Hint Unfold path_exists path_stat_mtime json_load json_dump write_file time_ms
  alloc_list read_list write_list : effects.
#[global] Hint Unfold set_cached_config set_cached_models set_cached_saved_configs
  set_config_mtime set_emulator_active : effects.

(** Unfold the effect combinators and the primitive operations, then
    compute. *)
Ltac run := autounfold with effects; cbn.
Ltac run_in H := autounfold with effects in H; cbn in H.

Lemma bind_ok {A B : Type} (m : M A) (k : A -> M B) (w w1 : world) (a : A) :
  m w = (Ok a, w1) -> bind m k w = k a w1.
Proof. intros H. unfold bind. rewrite H. reflexivity. Qed.

Lemma bind_raise {A B : Type} (m : M A) (k : A -> M B) (w w1 : world) (e : exn) :
  m w = (Raise e, w1) -> bind m k w = (Raise e, w1).
Proof. intros H. unfold bind. rewrite H. reflexivity. Qed.

Lemma bind_ok_inv {A B : Type} (m : M A) (k : A -> M B) (w w2 : world) (b : B) :
  bind m k w = (Ok b, w2) ->
  exists a w1, m w = (Ok a, w1) /\ k a w1 = (Ok b, w2).
Proof.
  unfold bind. destruct (m w) as [[a|e] w1]; intros H.
  - exists a, w1. split; [reflexivity | exact H].
  - discriminate H.
Qed.

(* --------------------------------------------------------------------- *)
(** ** The configuration cache *)
(* --------------------------------------------------------------------- *)

(** [get_config] catches what it raises. *)
Lemma get_config_total (w : world) :
  exists v w1, get_config w = (Ok v, w1).
Proof.
  unfold get_config. run.
  destruct (cached_config (cfg w)) as [c|]; cbn;
    destruct (files (sys w) !! CONFIG_PATH) as [f|] eqn:Hf; cbn; eauto.
  - destruct (same_mtime (config_mtime (cfg w)) (file_mtime f)); cbn; eauto.
    rewrite Hf. cbn. destruct (file_doc f); cbn; eauto. rewrite Hf. cbn. eauto.
  - destruct (file_doc f); cbn; eauto. rewrite Hf. cbn. eauto.
Qed.

(** [get_config] touches two globals only, [_cached_config] and
    [_config_mtime]. *)
Lemma get_config_frame (w w1 : world) (r : outcome pyval) :
  get_config w = (r, w1) ->
  sys w1 = sys w /\ lg w1 = lg w /\ heap w1 = heap w
  /\ provider_online w1 = provider_online w
  /\ completion_calls w1 = completion_calls w
  /\ emulator_active (cfg w1) = emulator_active (cfg w)
  /\ cached_models (cfg w1) = cached_models (cfg w)
  /\ cached_saved_configs (cfg w1) = cached_saved_configs (cfg w).
Proof.
  unfold get_config. run.
  destruct (cached_config (cfg w)) as [c|]; cbn;
    destruct (files (sys w) !! CONFIG_PATH) as [f|] eqn:Hf; cbn.
  - destruct (same_mtime (config_mtime (cfg w)) (file_mtime f)); cbn.
    + intros [= <- <-]. tauto.
    + rewrite Hf. cbn. destruct (file_doc f); cbn.
      * rewrite Hf. cbn. intros [= <- <-]. cbn. tauto.
      * intros [= <- <-]. cbn. tauto.
  - intros [= <- <-]. tauto.
  - destruct (file_doc f); cbn.
    + rewrite Hf. cbn. intros [= <- <-]. cbn. tauto.
    + intros [= <- <-]. tauto.
  - intros [= <- <-]. tauto.
Qed.

(** Without the file, [get_config] answers the defaults and changes
    nothing, whatever the cache holds. *)
Lemma get_config_no_file (w : world) :
  files (sys w) !! CONFIG_PATH = None ->
  get_config w = (Ok get_default_config, w).
Proof.
  intros Hf. unfold get_config. run.
  destruct (cached_config (cfg w)) as [c|]; cbn; rewrite Hf; reflexivity.
Qed.

(** A cache whose fencepost is the file's modification time is a hit. *)
Lemma get_config_hit (w : world) (c : pyval) (f : file) :
  cached_config (cfg w) = Some c ->
  files (sys w) !! CONFIG_PATH = Some f ->
  config_mtime (cfg w) = Some (file_mtime f) ->
  get_config w = (Ok c, w).
Proof.
  intros Hc Hf Hm. unfold get_config. run.
  rewrite Hc. cbn. rewrite Hf. cbn. rewrite Hm. cbn.
  rewrite N.eqb_refl. reflexivity.
Qed.

(** [update_config] on a configuration that is a JSON object: what it
    returns and the world it leaves, by the fault of the write. *)
Lemma update_config_run (updates current : gmap string pyval) (w w1 : world) :
  get_config w = (Ok (PDict current), w1) ->
  update_config updates w =
    match write_faults (sys w1) !! CONFIG_PATH with
    | None =>
        let now := clock (sys w1) (clock_reads (sys w1)) in
        (Ok true,
         with_cfg (put_config_mtime (Some now))
           (with_cfg (put_cached_config (Some (PDict (updates ∪ current))))
              (with_sys (fun s => put_files
                   (<[CONFIG_PATH := File (Some (PDict (updates ∪ current))) now]> (files s)) s)
                 (with_sys (put_clock_reads (S (clock_reads (sys w1)))) w1))))
    | Some OpenFails => (Ok false, w1)
    | Some DumpFails =>
        let now := clock (sys w1) (clock_reads (sys w1)) in
        (Ok false,
         with_sys (fun s => put_files (<[CONFIG_PATH := File None now]> (files s)) s)
           (with_sys (put_clock_reads (S (clock_reads (sys w1)))) w1))
    end.
Proof.
  intros Hget. unfold update_config.
  rewrite (bind_ok _ _ _ _ _ Hget). run.
  destruct (write_faults (sys w1) !! CONFIG_PATH) as [[|]|]; cbn; try reflexivity.
  rewrite lookup_insert_eq. cbn. reflexivity.
Qed.

(** C7. [update_config] merges the update over the result of
    [get_config], key by key, the update winning; when the write
    succeeds the merged document is the file and the cache, and the next
    [get_config] answers it; when the write fails it returns [False], the
    cache and its fencepost are as [get_config] left them, and the world it
    leaves does not depend on the update, so that no later [get_config] can
    observe the attempted merge. *)
Theorem update_config_merge_or_unchanged
    (updates current : gmap string pyval) (w w1 : world) :
  get_config w = (Ok (PDict current), w1) ->
  exists (ok : bool) (w2 : world),
    update_config updates w = (Ok ok, w2)
    /\ (forall k, (updates ∪ current) !! k
                  = match updates !! k with Some v => Some v | None => current !! k end)
    /\ (ok = true ->
        write_faults (sys w) !! CONFIG_PATH = None
        /\ cached_config (cfg w2) = Some (PDict (updates ∪ current))
        /\ (file_doc <$> files (sys w2) !! CONFIG_PATH) = Some (Some (PDict (updates ∪ current)))
        /\ get_config w2 = (Ok (PDict (updates ∪ current)), w2))
    /\ (ok = false ->
        is_Some (write_faults (sys w) !! CONFIG_PATH)
        /\ cached_config (cfg w2) = cached_config (cfg w1)
        /\ config_mtime (cfg w2) = config_mtime (cfg w1)
        /\ forall updates', update_config updates' w = (Ok false, w2)).
Proof.
  intros Hget.
  pose proof (get_config_frame _ _ _ Hget) as (Hsys & _).
  assert (Hmerge : forall k, (updates ∪ current) !! k
            = match updates !! k with Some v => Some v | None => current !! k end).
  { intros k. rewrite lookup_union. destruct (updates !! k), (current !! k); reflexivity. }
  pose proof (update_config_run updates current w w1 Hget) as Hrun.
  destruct (write_faults (sys w1) !! CONFIG_PATH) as [[|]|] eqn:Hfault;
    cbn zeta in Hrun; eexists _, _; (split; [exact Hrun|]); (split; [exact Hmerge|]);
    (split; [intros Hok | intros Hok]); try discriminate Hok.
  - rewrite <- Hsys, Hfault. repeat split; eauto.
    intros updates'. rewrite (update_config_run updates' current w w1 Hget), Hfault. reflexivity.
  - rewrite <- Hsys, Hfault. repeat split; eauto.
    intros updates'. rewrite (update_config_run updates' current w w1 Hget), Hfault. reflexivity.
  - rewrite <- Hsys, Hfault. split; [reflexivity|]. split; [reflexivity|]. split.
    + cbn. rewrite lookup_insert_eq. reflexivity.
    + eapply get_config_hit; cbn; [reflexivity | apply lookup_insert_eq | reflexivity].
Qed.

Lemma update_config_caches (updates : gmap string pyval) (w w1 : world) :
  update_config updates w = (Ok true, w1) ->
  is_Some (cached_config (cfg w1)).
Proof.
  intros Hupd.
  destruct (get_config_total w) as (v & w' & Hget).
  destruct v as [| | | | | |current];
    try (unfold update_config in Hupd; rewrite (bind_ok _ _ _ _ _ Hget) in Hupd;
         run_in Hupd; discriminate Hupd).
  rewrite (update_config_run updates current w w' Hget) in Hupd.
  destruct (write_faults (sys w') !! CONFIG_PATH) as [[|]|]; cbn zeta in Hupd;
    try discriminate Hupd.
  injection Hupd as <-. cbn. eauto.
Qed.

(** C10. Once the configuration has been loaded or updated, so that a
    cached copy is held, deleting the configuration file makes the next
    [get_config] answer the compiled-in defaults: the cached copy is still
    held and is not returned. *)
Theorem get_config_deleted_file_defaults
    (updates : gmap string pyval) (c : pyval) (w w1 : world) :
  update_config updates w = (Ok true, w1)
  \/ (get_config w = (Ok c, w1) /\ cached_config (cfg w1) = Some c) ->
  let w2 := external_delete CONFIG_PATH w1 in
  cached_config (cfg w2) = cached_config (cfg w1)
  /\ is_Some (cached_config (cfg w2))
  /\ get_config w2 = (Ok get_default_config, w2).
Proof.
  intros Hheld w2.
  assert (Hsome : is_Some (cached_config (cfg w1))).
  { destruct Hheld as [Hupd | [_ Hc]].
    - exact (update_config_caches _ _ _ Hupd).
    - rewrite Hc. eauto. }
  split; [reflexivity|]. split; [exact Hsome|].
  apply get_config_no_file. subst w2. cbn. apply lookup_delete_eq.
Qed.

(* --------------------------------------------------------------------- *)
(** ** The models cache *)
(* --------------------------------------------------------------------- *)

Lemma get_models_cache_cached (w : world) (c : pyval) :
  cached_models (cfg w) = Some c ->
  get_models_cache w = (Ok c, w).
Proof.
  intros Hc. unfold get_models_cache. run. rewrite Hc. reflexivity.
Qed.

Lemma get_models_cache_load (w : world) (doc : pyval) :
  cached_models (cfg w) = None ->
  models_document w = Some doc ->
  get_models_cache w = (Ok doc, with_cfg (put_cached_models (Some doc)) w).
Proof.
  intros Hc Hdoc. unfold models_document in Hdoc.
  unfold get_models_cache. run. rewrite Hc. cbn.
  destruct (files (sys w) !! MODELS_CACHE_PATH) as [[[v|] m]|] eqn:Hf; try discriminate Hdoc.
  destruct v; try discriminate Hdoc. cbn. rewrite Hf. cbn.
  destruct (is_list (dict_get d "models")); [|discriminate Hdoc].
  injection Hdoc as <-. reflexivity.
Qed.

Lemma get_models_cache_miss (w : world) :
  cached_models (cfg w) = None ->
  models_document w = None ->
  get_models_cache w = (Ok empty_models_cache, w).
Proof.
  intros Hc Hdoc. unfold models_document in Hdoc.
  unfold get_models_cache. run. rewrite Hc. cbn.
  destruct (files (sys w) !! MODELS_CACHE_PATH) as [[[v|] m]|] eqn:Hf; cbn;
    rewrite ?Hf; cbn; try reflexivity.
  destruct v; cbn; try reflexivity.
  destruct (is_list (dict_get d "models")); [discriminate Hdoc | reflexivity].
Qed.

(** C5, as amended. [get_models_cache] never looks at the modification time
    of the file. A cached models document is returned whatever has
    happened to the file since, be it replaced or deleted; the file is read
    only while nothing is cached, and a document read there is cached; a
    successful [save_models_cache] replaces the cached document; on a
    miss (nothing cached and no file, or one that does not parse or has no
    list under [models]) the answer is an empty model list with no
    timestamp, and nothing is cached. *)
Theorem get_models_cache_keeps_cached (w : world) :
  (forall c, cached_models (cfg w) = Some c ->
     get_models_cache w = (Ok c, w)
     /\ (forall f, let w' := external_write MODELS_CACHE_PATH f w in
                   get_models_cache w' = (Ok c, w'))
     /\ (let w' := external_delete MODELS_CACHE_PATH w in
         get_models_cache w' = (Ok c, w')))
  /\ (forall doc, cached_models (cfg w) = None -> models_document w = Some doc ->
        exists w1, get_models_cache w = (Ok doc, w1) /\ cached_models (cfg w1) = Some doc)
  /\ (cached_models (cfg w) = None -> models_document w = None ->
        get_models_cache w = (Ok empty_models_cache, w)
        /\ empty_models_cache = PDict (mk_dict [ ("models", PList []); ("lastUpdated", PNone) ]))
  /\ (forall models w1, save_models_cache models w = (Ok true, w1) ->
        exists c, cached_models (cfg w1) = Some c
                  /\ py_get c "models" = Ok (PList models)
                  /\ get_models_cache w1 = (Ok c, w1)).
Proof.
  split; [|split; [|split]].
  - intros c Hc. split; [|split].
    + apply get_models_cache_cached, Hc.
    + intros f w'. apply get_models_cache_cached. exact Hc.
    + intros w'. apply get_models_cache_cached. exact Hc.
  - intros doc Hc Hdoc. eexists. split; [apply get_models_cache_load; assumption|reflexivity].
  - intros Hc Hdoc. split; [apply get_models_cache_miss; assumption|reflexivity].
  - intros models w1. unfold save_models_cache. run.
    destruct (write_faults (sys w) !! MODELS_CACHE_PATH) as [[|]|]; cbn;
      intros Hsave; try discriminate Hsave.
    injection Hsave as <-. eexists. split; [reflexivity|]. split; [reflexivity|].
    apply get_models_cache_cached. reflexivity.
Qed.

Lemma get_models_cache_keeps_cached_witness :
  let w := with_cfg (put_cached_models (Some empty_models_cache)) fresh_world in
  cached_models (cfg w) = Some empty_models_cache
  /\ get_models_cache (external_delete MODELS_CACHE_PATH w)
     = (Ok empty_models_cache, external_delete MODELS_CACHE_PATH w).
Proof.
  intros w. split; [reflexivity|].
  apply (proj1 (get_models_cache_keeps_cached w) empty_models_cache eq_refl).
Defined.

(** C5 as stated fails: a models document is loaded and cached, the file
    is then replaced by another document with a later modification time,
    and the next [get_models_cache] still answers the first document. *)
Lemma models_cache_follows_file_counterexample : ~ models_cache_follows_file.
Proof.
  intros Hclaim.
  pose (first := mk_dict [ ("models", PList [PStr "a"]); ("lastUpdated", PInt 1) ]).
  pose (second := mk_dict [ ("models", PList [PStr "b"]); ("lastUpdated", PInt 2) ]).
  pose (w := external_write MODELS_CACHE_PATH (File (Some (PDict first)) 10) fresh_world).
  pose (w1 := with_cfg (put_cached_models (Some (PDict first))) w).
  assert (Hget : get_models_cache w = (Ok (PDict first), w1)).
  { apply get_models_cache_load; reflexivity. }
  assert (Hne : (file_mtime <$> files (sys w1) !! MODELS_CACHE_PATH) <> Some 20%N).
  { vm_compute. discriminate. }
  pose proof (Hclaim w w1 (PDict first) (File (Some (PDict second)) 20) second
                Hget eq_refl eq_refl eq_refl Hne) as Hlater.
  rewrite (get_models_cache_cached _ (PDict first)) in Hlater by reflexivity.
  apply (f_equal (fun o => match o with
                           | Ok (PDict d) => d !! "lastUpdated"
                           | _ => None
                           end)) in Hlater.
  vm_compute in Hlater. discriminate Hlater.
Qed.

(* --------------------------------------------------------------------- *)
(** ** Generated identifiers *)
(* --------------------------------------------------------------------- *)

Lemma string_of_uint_digits (d : Decimal.uint) :
  all_chars is_digit (NilEmpty.string_of_uint d) = true.
Proof. induction d; cbn; auto. Qed.

Lemma decimal_N_digits (n : N) :
  all_chars is_digit (decimal_N n) = true /\ decimal_N n <> "".
Proof.
  unfold decimal_N, NilZero.string_of_uint.
  destruct (N.to_uint n) eqn:Hd; try (split; [reflexivity | discriminate]);
    (split; [rewrite <- Hd at 1; cbn; try apply string_of_uint_digits | cbn; discriminate]).
Qed.

Lemma span_digits_app (ds tail : string) :
  all_chars is_digit ds = true ->
  span_digits (ds +:+ String "-" tail) = (ds, String "-" tail).
Proof.
  induction ds as [|c ds IH]; intros H; [reflexivity|].
  cbn [all_chars] in H. apply andb_true_iff in H as [Hc Hds].
  change (String c ds +:+ String "-" tail) with (String c (ds +:+ String "-" tail)).
  cbn [span_digits]. rewrite Hc, (IH Hds). reflexivity.
Qed.

Lemma alphabet_char (i : nat) :
  (i < 36)%nat ->
  exists c, char_at (ascii_lowercase +:+ digits) i = String c EmptyString
            /\ is_lower_alnum c = true.
Proof.
  intros Hi.
  do 36 (destruct i as [|i]; [eexists; split; reflexivity|]).
  lia.
Qed.

Lemma random_choices_run (k : nat) (w : world) :
  exists s,
    random_choices (ascii_lowercase +:+ digits) k w
    = (Ok s, with_sys (put_rng_draws (k + rng_draws (sys w))) w)
    /\ String.length s = k
    /\ all_chars is_lower_alnum s = true.
Proof.
  revert w. induction k as [|k IH]; intros w.
  - exists "". cbn. unfold ret. destruct w as [c l p h [] cc]. cbn. auto.
  - cbn [random_choices].
    set (r := (rng (sys w) (rng_draws (sys w)) mod 36)%nat).
    set (w1 := with_sys (put_rng_draws (S (rng_draws (sys w)))) w).
    assert (Hdraw : random_below (String.length (ascii_lowercase +:+ digits)) w = (Ok r, w1))
      by reflexivity.
    rewrite (bind_ok _ _ _ _ _ Hdraw).
    destruct (IH w1) as (s & Hrun & Hlen & Hall).
    rewrite (bind_ok _ _ _ _ _ Hrun).
    destruct (alphabet_char r) as (c & Hc & Halnum).
    { apply Nat.mod_upper_bound. discriminate. }
    rewrite Hc. exists (String c s). split; [|split].
    + unfold ret. f_equal. subst w1. unfold with_sys, put_rng_draws. cbn.
      rewrite Nat.add_succ_r. reflexivity.
    + cbn. rewrite Hlen. reflexivity.
    + cbn [all_chars]. rewrite Halnum, Hall. reflexivity.
Qed.

Lemma generate_id_run (w : world) :
  exists new_id,
    generate_id w = (Ok new_id, after_generate_id w)
    /\ matches_id_pattern "cfg-" 6 new_id = true.
Proof.
  unfold generate_id.
  destruct (random_choices_run 6 w) as (s & Hrun & Hlen & Hall).
  rewrite (bind_ok _ _ _ _ _ Hrun). run.
  eexists. split; [reflexivity|].
  unfold matches_id_pattern.
  change (drop_prefix "cfg-"
            ("cfg-" +:+ decimal_N (clock (sys w) (clock_reads (sys w))) +:+ "-" +:+ s))
    with (Some (decimal_N (clock (sys w) (clock_reads (sys w))) +:+ String "-" s)).
  destruct (decimal_N_digits (clock (sys w) (clock_reads (sys w)))) as [Hd Hne].
  rewrite (span_digits_app _ _ Hd).
  destruct (decimal_N (clock (sys w) (clock_reads (sys w)))); [congruence|].
  rewrite Hlen, Hall. reflexivity.
Qed.

(* --------------------------------------------------------------------- *)
(** ** The presets store *)
(* --------------------------------------------------------------------- *)

Lemma get_saved_configs_cached (w : world) (configs : nat) :
  cached_saved_configs (cfg w) = Some configs ->
  get_saved_configs w = (Ok configs, w).
Proof.
  intros Hc. unfold get_saved_configs. run. rewrite Hc. reflexivity.
Qed.

Lemma get_saved_configs_load (w : world) (l : list pyval) :
  cached_saved_configs (cfg w) = None ->
  presets_document w = Some l ->
  get_saved_configs w
  = (Ok (List.length (heap w)),
     with_cfg (put_cached_saved_configs (Some (List.length (heap w))))
       (with_heap (fun h => (h ++ [l])%list) w)).
Proof.
  intros Hc Hdoc. unfold presets_document in Hdoc.
  unfold get_saved_configs. run. rewrite Hc. cbn.
  destruct (files (sys w) !! SAVED_CONFIGS_PATH) as [[[v|] m]|] eqn:Hf; try discriminate Hdoc.
  destruct v; try discriminate Hdoc. injection Hdoc as ->.
  cbn. rewrite Hf. reflexivity.
Qed.

Lemma get_saved_configs_new (w : world) :
  cached_saved_configs (cfg w) = None ->
  presets_document w = None ->
  get_saved_configs w
  = (Ok (List.length (heap w)), with_heap (fun h => (h ++ [[]])%list) w).
Proof.
  intros Hc Hdoc. unfold presets_document in Hdoc.
  unfold get_saved_configs. run. rewrite Hc. cbn.
  destruct (files (sys w) !! SAVED_CONFIGS_PATH) as [[[v|] m]|] eqn:Hf; cbn;
    rewrite ?Hf; cbn; try reflexivity.
  destruct v; try discriminate Hdoc; reflexivity.
Qed.

(** What [get_saved_configs] returns: a reference to a list of the heap;
    the list is the cached one, unless nothing was cached and nothing could
    be loaded, and then it is a new empty list that no global refers to. *)
Lemma get_saved_configs_spec (w : world) :
  heap_ok w ->
  exists (configs : nat) (w1 : world) (l : list pyval),
    get_saved_configs w = (Ok configs, w1)
    /\ heap w1 !! configs = Some l
    /\ sys w1 = sys w
    /\ heap_ok w1
    /\ (cached_saved_configs (cfg w1) = Some configs
        \/ (l = [] /\ cached_saved_configs (cfg w1) = None
            /\ cached_saved_configs (cfg w) = None /\ presets_document w = None)).
Proof.
  intros Hok.
  destruct (cached_saved_configs (cfg w)) as [configs|] eqn:Hc.
  - destruct (lookup_lt_is_Some_2 (heap w) configs (Hok _ Hc)) as [l Hl].
    exists configs, w, l. rewrite (get_saved_configs_cached _ _ Hc). auto 10.
  - destruct (presets_document w) as [l|] eqn:Hdoc.
    + eexists _, _, l. rewrite (get_saved_configs_load _ _ Hc Hdoc).
      split; [reflexivity|]. cbn. split; [|split; [reflexivity|split]].
      * rewrite lookup_app_r by reflexivity. rewrite Nat.sub_diag. reflexivity.
      * intros configs [= <-]. cbn. rewrite length_app. cbn. lia.
      * left. reflexivity.
    + eexists _, _, []. rewrite (get_saved_configs_new _ Hc Hdoc).
      split; [reflexivity|]. cbn. split; [|split; [reflexivity|split]].
      * rewrite lookup_app_r by reflexivity. rewrite Nat.sub_diag. reflexivity.
      * intros configs Hcached. cbn in Hcached. congruence.
      * right. auto.
Qed.

(** [save_saved_configs], by the fault of the write. *)
Lemma save_saved_configs_run (configs : nat) (w : world) :
  save_saved_configs configs w =
    match write_faults (sys w) !! SAVED_CONFIGS_PATH with
    | None =>
        let now := clock (sys w) (clock_reads (sys w)) in
        (Ok true,
         with_cfg (put_cached_saved_configs (Some configs))
           (with_sys (fun s => put_files
                (<[SAVED_CONFIGS_PATH := File (Some (PList (default [] (heap w !! configs)))) now]>
                   (files s)) s)
              (with_sys (put_clock_reads (S (clock_reads (sys w)))) w)))
    | Some OpenFails => (Ok false, w)
    | Some DumpFails =>
        let now := clock (sys w) (clock_reads (sys w)) in
        (Ok false,
         with_sys (fun s => put_files (<[SAVED_CONFIGS_PATH := File None now]> (files s)) s)
           (with_sys (put_clock_reads (S (clock_reads (sys w)))) w))
    end.
Proof.
  unfold save_saved_configs. run.
  destruct (write_faults (sys w) !! SAVED_CONFIGS_PATH) as [[|]|]; reflexivity.
Qed.

(** A save, successful or not, leaves the list objects alone, and after it
    the global refers to [configs] if it did before or the save succeeded. *)
Lemma save_saved_configs_spec (configs : nat) (w : world) :
  exists (ok : bool) (w1 : world),
    save_saved_configs configs w = (Ok ok, w1)
    /\ heap w1 = heap w
    /\ (ok = true <-> write_faults (sys w) !! SAVED_CONFIGS_PATH = None)
    /\ (ok = true -> cached_saved_configs (cfg w1) = Some configs
                     /\ presets_document w1 = Some (default [] (heap w !! configs)))
    /\ (ok = false -> cached_saved_configs (cfg w1) = cached_saved_configs (cfg w)).
Proof.
  rewrite save_saved_configs_run.
  destruct (write_faults (sys w) !! SAVED_CONFIGS_PATH) as [[|]|]; cbn zeta;
    eexists _, _; (split; [reflexivity|]); cbn; (split; [reflexivity|]);
    (split; [split; intros; congruence|]); split; intros; try congruence; try reflexivity.
  split; [reflexivity|]. unfold presets_document. cbn. rewrite lookup_insert_eq. reflexivity.
Qed.

Lemma find_by_id_index (config_id : string) (l : list pyval) (base i : nat)
    (d : gmap string pyval) :
  find_by_id config_id l base = Ok (Some (i, d)) ->
  (base <= i)%nat /\ l !! (i - base)%nat = Some (PDict d)
  /\ eq_str (dict_get d "id") config_id = true.
Proof.
  revert base. induction l as [|c l IH]; intros base; cbn; [discriminate|].
  destruct c; try discriminate.
  destruct (eq_str (dict_get d0 "id") config_id) eqn:Heq.
  - intros [= <- <-]. rewrite Nat.sub_diag. auto.
  - intros H. destruct (IH _ H) as (Hle & Hl & Hid).
    split; [lia|]. split; [|exact Hid].
    replace (i - base)%nat with (S (i - S base)) by lia. exact Hl.
Qed.




Lemma list_presets_inv (w w1 : world) (l : list pyval) :
  list_presets w = (Ok l, w1) ->
  exists configs,
    get_saved_configs w = (Ok configs, w1) /\ l = default [] (heap w1 !! configs).
Proof.
  intros H. apply bind_ok_inv in H as (configs & w' & Hget & Hread).
  unfold read_list, gets in Hread. injection Hread as <- <-.
  exists configs. auto.
Qed.

Lemma list_presets_cached (w : world) (configs : nat) (l : list pyval) :
  cached_saved_configs (cfg w) = Some configs ->
  heap w !! configs = Some l ->
  list_presets w = (Ok l, w).
Proof.
  intros Hc Hl. unfold list_presets.
  rewrite (bind_ok _ _ _ _ _ (get_saved_configs_cached _ _ Hc)).
  unfold read_list, gets. rewrite Hl. reflexivity.
Qed.

(** The reference that [get_saved_configs] returns is the cached one
    afterwards, or refers to an empty list. *)
Lemma get_saved_configs_cases (w w1 : world) (configs : nat) :
  get_saved_configs w = (Ok configs, w1) ->
  sys w1 = sys w
  /\ (cached_saved_configs (cfg w1) = Some configs
      \/ (heap w1 !! configs = Some []
          /\ cached_saved_configs (cfg w) = None /\ presets_document w = None)).
Proof.
  destruct (cached_saved_configs (cfg w)) as [c|] eqn:Hc.
  - rewrite (get_saved_configs_cached _ _ Hc). intros [= <- <-]. auto.
  - destruct (presets_document w) as [l|] eqn:Hdoc.
    + rewrite (get_saved_configs_load _ _ Hc Hdoc). intros [= <- <-]. cbn. auto.
    + rewrite (get_saved_configs_new _ Hc Hdoc). intros [= <- <-]. cbn.
      split; [reflexivity|]. right.
      rewrite lookup_app_r by reflexivity. rewrite Nat.sub_diag. auto.
Qed.



Lemma without_id_length (config_id : string) (l kept : list pyval) :
  without_id config_id l = Ok kept ->
  (List.length kept <= List.length l)%nat.
Proof.
  revert kept. induction l as [|c l IH]; intros kept; cbn.
  - intros [= <-]. reflexivity.
  - destruct c; try discriminate.
    destruct (without_id config_id l) as [kept'|e]; [|discriminate].
    specialize (IH _ eq_refl).
    destruct (eq_str (dict_get d "id") config_id); intros [= <-]; cbn; lia.
Qed.

(** [without_id] drops at least the element that has the id. *)
Lemma without_id_shorter (config_id : string) (l kept : list pyval)
    (d : gmap string pyval) :
  without_id config_id l = Ok kept ->
  In (PDict d) l ->
  eq_str (dict_get d "id") config_id = true ->
  (List.length kept < List.length l)%nat.
Proof.
  revert kept. induction l as [|c l IH]; intros kept; cbn; [tauto|].
  destruct c; try discriminate.
  destruct (without_id config_id l) as [kept'|e] eqn:Hrest; [|discriminate].
  pose proof (without_id_length _ _ _ Hrest) as Hle.
  destruct (eq_str (dict_get d0 "id") config_id) eqn:Heq; intros [= <-] Hin Hid.
  - lia.
  - destruct Hin as [Hhead | Hin].
    + injection Hhead as ->. congruence.
    + specialize (IH _ eq_refl Hin Hid). cbn. lia.
Qed.

(** [add_saved_config] up to the save: the new preset is appended to the
    list that [get_saved_configs] returned. *)
Lemma add_saved_config_run (name provider model api_key_env_var : string)
    (w w1 : world) (configs : nat) (l : list pyval) :
  get_saved_configs w = (Ok configs, w1) ->
  heap w1 !! configs = Some l ->
  exists new_id,
    matches_id_pattern "cfg-" 6 new_id = true
    /\ add_saved_config name provider model api_key_env_var w
       = bind (save_saved_configs configs)
           (fun saved =>
              ret (if saved
                   then Some (new_preset new_id name provider model api_key_env_var)
                   else None))
           (with_heap
              (fun h => <[configs := (l ++ [new_preset new_id name provider model
                                              api_key_env_var])%list]> h)
              (after_generate_id w1)).
Proof.
  intros Hget Hl.
  destruct (generate_id_run w1) as (new_id & Hgen & Hpat).
  exists new_id. split; [exact Hpat|].
  unfold add_saved_config.
  rewrite (bind_ok _ _ _ _ _ Hget), (bind_ok _ _ _ _ _ Hgen).
  unfold read_list at 1. unfold gets at 1. unfold bind at 1.
  change (heap (after_generate_id w1)) with (heap w1). rewrite Hl.
  reflexivity.
Qed.




(** C9, as amended. When the presets list is held in memory at the append
    (it was cached already, or this call loads it from the file and caches
    it) and the save fails, [add_saved_config] returns [None] although the
    new preset is by then the last element of the cached list: the presets
    listed afterwards are the old ones followed by the preset that was
    reported as not saved. *)
Theorem failed_add_stays_in_cached_list (name provider model api_key_env_var : string)
    (w : world) :
  heap_ok w ->
  is_Some (write_faults (sys w) !! SAVED_CONFIGS_PATH) ->
  is_Some (cached_saved_configs (cfg w)) \/ is_Some (presets_document w) ->
  exists (w0 w1 : world) (l : list pyval) (new_id : string),
    list_presets w = (Ok l, w0)
    /\ add_saved_config name provider model api_key_env_var w = (Ok None, w1)
    /\ matches_id_pattern "cfg-" 6 new_id = true
    /\ list_presets w1
       = (Ok (l ++ [new_preset new_id name provider model api_key_env_var])%list, w1).
Proof.
  intros Hok [fault Hfault] Hheld.
  destruct (get_saved_configs_spec w Hok)
    as (configs & w0 & l & Hget & Hl & Hsys & Hok0 & Hcase).
  assert (Hcached : cached_saved_configs (cfg w0) = Some configs).
  { destruct Hcase as [Hc | (_ & _ & Hnone & Hdoc)]; [exact Hc|].
    rewrite Hnone, Hdoc in Hheld. destruct Hheld as [[? H] | [? H]]; discriminate H. }
  destruct (add_saved_config_run name provider model api_key_env_var _ _ _ _ Hget Hl)
    as (new_id & Hpat & Hrun).
  set (p := new_preset new_id name provider model api_key_env_var) in *.
  set (wa := with_heap _ (after_generate_id w0)) in Hrun.
  destruct (save_saved_configs_spec configs wa)
    as (ok & ws & Hsave & Hheap & Hiff & _ & Hfalse).
  assert (Hno : ok = false).
  { destruct ok; [|reflexivity]. destruct Hiff as [Hiff _]. specialize (Hiff eq_refl).
    subst wa. cbn in Hiff. rewrite Hsys, Hfault in Hiff. discriminate Hiff. }
  subst ok.
  exists w0, ws, l, new_id. split; [|split; [|split]].
  - unfold list_presets. rewrite (bind_ok _ _ _ _ _ Hget).
    unfold read_list, gets. rewrite Hl. reflexivity.
  - rewrite Hrun, (bind_ok _ _ _ _ _ Hsave). reflexivity.
  - exact Hpat.
  - apply (list_presets_cached _ configs).
    + rewrite (Hfalse eq_refl). exact Hcached.
    + rewrite Hheap. subst wa. cbn. apply list_lookup_insert_eq.
      eapply lookup_lt_Some, Hl.
Qed.

(** C9 as stated fails: in a process that has no presets yet and cannot
    write, [add_saved_config] returns [None] and the presets listed
    afterwards are empty, because the list it appended to was a new one
    that no global refers to. *)
Lemma failed_add_is_listed_counterexample : ~ failed_add_is_listed.
Proof.
  intros Hclaim.
  destruct (Hclaim "n" "openai" "gpt-4" "OPENAI_API_KEY" read_only_world)
    as (w1 & w2 & l & new_id & Hadd & Hlist & Hin).
  - intros configs Hc. discriminate Hc.
  - vm_compute. eauto.
  - assert (Hw1 : w1 = snd (add_saved_config "n" "openai" "gpt-4" "OPENAI_API_KEY"
                              read_only_world))
      by (rewrite Hadd; reflexivity).
    subst w1. apply (f_equal fst) in Hlist. vm_compute in Hlist.
    injection Hlist as <-. destruct Hin.
Qed.

(* --------------------------------------------------------------------- *)
(** ** The references held in globals stay valid *)
(* --------------------------------------------------------------------- *)

Lemma heap_ok_nothing_cached (w : world) :
  cached_saved_configs (cfg w) = None -> heap_ok w.
Proof. intros Hc configs Hsome. rewrite Hc in Hsome. discriminate Hsome. Defined.

Lemma heap_ok_fresh_world : heap_ok fresh_world.
Proof. apply heap_ok_nothing_cached. reflexivity. Qed.

Lemma save_saved_configs_heap_ok (configs : nat) (w w1 : world) (r : outcome bool) :
  heap_ok w ->
  (configs < List.length (heap w))%nat ->
  save_saved_configs configs w = (r, w1) ->
  heap_ok w1.
Proof.
  intros Hok Hlen. rewrite save_saved_configs_run.
  destruct (write_faults (sys w) !! SAVED_CONFIGS_PATH) as [[|]|]; cbn zeta;
    intros [= <- <-]; try exact Hok.
  intros c [= <-]. exact Hlen.
Qed.

Lemma add_saved_config_heap_ok (name provider model api_key_env_var : string)
    (w w1 : world) (r : outcome (option pyval)) :
  heap_ok w ->
  add_saved_config name provider model api_key_env_var w = (r, w1) ->
  heap_ok w1.
Proof.
  intros Hok Hadd.
  destruct (get_saved_configs_spec w Hok) as (configs & w0 & l & Hget & Hl & _ & Hok0 & _).
  destruct (add_saved_config_run name provider model api_key_env_var _ _ _ _ Hget Hl)
    as (new_id & _ & Hrun).
  rewrite Hrun in Hadd. clear Hrun.
  set (wa := with_heap _ (after_generate_id w0)) in Hadd.
  unfold bind in Hadd.
  destruct (save_saved_configs configs wa) as [[saved|e] ws] eqn:Hsave;
    injection Hadd as _ <-;
    apply (save_saved_configs_heap_ok configs wa ws _) in Hsave; try exact Hsave;
    subst wa; try (intros c Hc; cbn; rewrite length_insert; exact (Hok0 c Hc));
    cbn; rewrite length_insert; eapply lookup_lt_Some, Hl.
Qed.

Lemma update_saved_config_heap_ok (config_id : string)
    (new_name provider model api_key_env_var : option string)
    (w w1 : world) (r : outcome bool) :
  heap_ok w ->
  update_saved_config config_id new_name provider model api_key_env_var w = (r, w1) ->
  heap_ok w1.
Proof.
  intros Hok Hupd.
  destruct (get_saved_configs_spec w Hok) as (configs & w0 & l & Hget & Hl & _ & Hok0 & _).
  unfold update_saved_config in Hupd.
  rewrite (bind_ok _ _ _ _ _ Hget) in Hupd.
  unfold read_list at 1 in Hupd. unfold gets at 1 in Hupd. unfold bind at 1 in Hupd.
  unfold lift at 1 in Hupd. unfold bind at 1 in Hupd.
  destruct (find_by_id config_id (default [] (heap w0 !! configs)) 0) as [[[i d]|]|e].
  - unfold write_list at 1 in Hupd. unfold modify at 1 in Hupd. unfold bind at 1 in Hupd.
    eapply save_saved_configs_heap_ok; [| |exact Hupd].
    + intros c Hc. cbn. rewrite length_insert. exact (Hok0 c Hc).
    + cbn. rewrite length_insert. eapply lookup_lt_Some, Hl.
  - injection Hupd as _ <-. exact Hok0.
  - injection Hupd as _ <-. exact Hok0.
Qed.

Lemma delete_saved_config_heap_ok (config_id : string) (w w1 : world) (r : outcome bool) :
  heap_ok w ->
  delete_saved_config config_id w = (r, w1) ->
  heap_ok w1.
Proof.
  intros Hok Hdel.
  destruct (get_saved_configs_spec w Hok) as (configs & w0 & l & Hget & Hl & _ & Hok0 & _).
  unfold delete_saved_config in Hdel.
  rewrite (bind_ok _ _ _ _ _ Hget) in Hdel.
  unfold read_list at 1 in Hdel. unfold gets at 1 in Hdel. unfold bind at 1 in Hdel.
  unfold lift at 1 in Hdel. unfold bind at 1 in Hdel.
  destruct (without_id config_id (default [] (heap w0 !! configs))) as [kept|e].
  - unfold alloc_list at 1 in Hdel. unfold bind at 1 in Hdel.
    assert (Hgrown : heap_ok (with_heap (fun h => (h ++ [kept])%list) w0)).
    { intros c Hc. cbn. rewrite length_app. cbn. specialize (Hok0 c Hc). lia. }
    destruct (Nat.eqb (List.length kept) _).
    + injection Hdel as _ <-. exact Hgrown.
    + eapply save_saved_configs_heap_ok; [exact Hgrown| |exact Hdel].
      cbn. rewrite length_app. cbn. lia.
  - injection Hdel as _ <-. exact Hok0.
Qed.

(* --------------------------------------------------------------------- *)
(** ** The activation state *)
(* --------------------------------------------------------------------- *)

(** [stop_emulator] turns the flag off exactly when the write succeeds. *)
Lemma stop_emulator_flag (w w1 : world) (success : bool) :
  stop_emulator w = (Ok success, w1) ->
  emulator_active (cfg w1) = if success then false else emulator_active (cfg w).
Proof.
  unfold stop_emulator. intros H.
  apply bind_ok_inv in H as (ok & w0 & Hupd & H).
  assert (Hflag : emulator_active (cfg w0) = emulator_active (cfg w)).
  { destruct (get_config_total w) as (v & wg & Hget).
    pose proof (get_config_frame _ _ _ Hget) as (_ & _ & _ & _ & _ & Hactive & _).
    unfold update_config in Hupd. rewrite (bind_ok _ _ _ _ _ Hget) in Hupd.
    destruct v; try (run_in Hupd; discriminate Hupd).
    fold (update_config (mk_dict [ ("emulatorActive", PBool false) ])) in Hupd.
    pose proof (update_config_run (mk_dict [ ("emulatorActive", PBool false) ]) d w wg Hget)
      as Hrun.
    unfold update_config in Hrun. rewrite (bind_ok _ _ _ _ _ Hget) in Hrun.
    rewrite Hrun in Hupd.
    destruct (write_faults (sys wg) !! CONFIG_PATH) as [[|]|]; cbn zeta in Hupd;
      injection Hupd as _ <-; exact Hactive. }
  destruct ok; run_in H; injection H as <- <-; [reflexivity | exact Hflag].
Qed.

(* --------------------------------------------------------------------- *)
(** ** The theorems above at concrete worlds *)
(* --------------------------------------------------------------------- *)

Lemma update_config_merge_or_unchanged_witness :
  get_config fresh_world = (Ok get_default_config, fresh_world)
  /\ (exists ok w2,
        update_config (mk_dict [ ("port", PInt 8080) ]) fresh_world = (Ok ok, w2))
  /\ (exists ok w2,
        update_config (mk_dict [ ("port", PInt 8080) ]) read_only_world = (Ok ok, w2)).
Proof.
  split; [reflexivity|]. split.
  - destruct (update_config_merge_or_unchanged (mk_dict [ ("port", PInt 8080) ]) _
                fresh_world fresh_world eq_refl) as (ok & w2 & H & _).
    exists ok, w2. exact H.
  - destruct (update_config_merge_or_unchanged (mk_dict [ ("port", PInt 8080) ]) _
                read_only_world read_only_world eq_refl) as (ok & w2 & H & _).
    exists ok, w2. exact H.
Defined.

Lemma get_config_deleted_file_defaults_witness :
  let w1 := snd (update_config (mk_dict [ ("port", PInt 8080) ]) fresh_world) in
  update_config (mk_dict [ ("port", PInt 8080) ]) fresh_world = (Ok true, w1)
  /\ get_config (external_delete CONFIG_PATH w1)
     = (Ok get_default_config, external_delete CONFIG_PATH w1).
Proof.
  intros w1.
  assert (H : update_config (mk_dict [ ("port", PInt 8080) ]) fresh_world = (Ok true, w1))
    by (vm_compute; reflexivity).
  split; [exact H|].
  exact (proj2 (proj2 (get_config_deleted_file_defaults
                         (mk_dict [ ("port", PInt 8080) ]) PNone fresh_world w1
                         (or_introl H)))).
Defined.




Lemma failed_add_stays_in_cached_list_witness :
  heap_ok one_preset_read_only_world
  /\ is_Some (write_faults (sys one_preset_read_only_world) !! SAVED_CONFIGS_PATH)
  /\ is_Some (presets_document one_preset_read_only_world)
  /\ exists w1,
       add_saved_config "n" "openai" "gpt-4" "OPENAI_API_KEY" one_preset_read_only_world
       = (Ok None, w1)
       /\ exists new_id,
            list_presets w1
            = (Ok [sample_preset;
                   new_preset new_id "n" "openai" "gpt-4" "OPENAI_API_KEY"], w1).
Proof.
  assert (Hok : heap_ok one_preset_read_only_world)
    by (apply heap_ok_nothing_cached; reflexivity).
  assert (Hfault : is_Some (write_faults (sys one_preset_read_only_world)
                              !! SAVED_CONFIGS_PATH))
    by (exists OpenFails; vm_compute; reflexivity).
  assert (Hdoc : is_Some (presets_document one_preset_read_only_world))
    by (exists [sample_preset]; vm_compute; reflexivity).
  split; [exact Hok|]. split; [exact Hfault|]. split; [exact Hdoc|].
  destruct (failed_add_stays_in_cached_list "n" "openai" "gpt-4" "OPENAI_API_KEY"
              one_preset_read_only_world Hok Hfault (or_intror Hdoc))
    as (w0 & w1 & l & new_id & Hlist & Hadd & _ & Hafter).
  exists w1. split; [exact Hadd|]. exists new_id.
  assert (Hl : l = [sample_preset]).
  { apply (f_equal fst) in Hlist. vm_compute in Hlist. injection Hlist as <-.
    vm_compute. reflexivity. }
  rewrite Hl in Hafter. exact Hafter.
Defined.

(* --------------------------------------------------------------------- *)
(** ** Effects that leave the backend alone *)
(* --------------------------------------------------------------------- *)

Lemma keeps_calls_ret {A : Type} (a : A) : keeps_calls (ret a).
Proof. intros w r w' [= <- <-]. reflexivity. Qed.

Lemma keeps_calls_raise {A : Type} (e : exn) : keeps_calls (@raise A e).
Proof. intros w r w' [= <- <-]. reflexivity. Qed.

Lemma keeps_calls_lift {A : Type} (o : outcome A) : keeps_calls (lift o).
Proof. intros w r w' [= <- <-]. reflexivity. Qed.

Lemma keeps_calls_gets {A : Type} (f : world -> A) : keeps_calls (gets f).
Proof. intros w r w' [= <- <-]. reflexivity. Qed.

Lemma keeps_calls_modify (f : world -> world) :
  (forall w, completion_calls (f w) = completion_calls w) -> keeps_calls (modify f).
Proof. intros Hf w r w' [= <- <-]. apply Hf. Qed.

Lemma keeps_calls_bind {A B : Type} (m : M A) (k : A -> M B) :
  keeps_calls m -> (forall a, keeps_calls (k a)) -> keeps_calls (bind m k).
Proof.
  intros Hm Hk w r w'. unfold bind.
  destruct (m w) as [[a|e] w1] eqn:Hrun; intros H.
  - rewrite (Hk a _ _ _ H). exact (Hm _ _ _ Hrun).
  - injection H as <- <-. exact (Hm _ _ _ Hrun).
Qed.

Lemma keeps_calls_get_config : keeps_calls get_config.
Proof. intros w r w' H. apply get_config_frame in H. tauto. Qed.

Lemma keeps_calls_time_ms : keeps_calls time_ms.
Proof. intros w r w' [= <- <-]. reflexivity. Qed.

Ltac keeps_calls_step :=
  first
    [ apply keeps_calls_ret
    | apply keeps_calls_raise
    | apply keeps_calls_lift
    | apply keeps_calls_gets
    | apply keeps_calls_get_config
    | apply keeps_calls_time_ms
    | apply keeps_calls_modify; intros; reflexivity
    | apply keeps_calls_bind; [|intros]
    | match goal with
      | |- keeps_calls (if ?c then _ else _) => destruct c
      end ].

Lemma keeps_calls_log_request (data : gmap string pyval) : keeps_calls (log_request data).
Proof. unfold log_request, print. repeat keeps_calls_step. Qed.

Lemma keeps_calls_log_success (data : gmap string pyval) : keeps_calls (log_success data).
Proof. unfold log_success, print. repeat keeps_calls_step. Qed.

Lemma keeps_calls_log_error (e : exn) (context : gmap string pyval) :
  keeps_calls (log_error e context).
Proof. unfold log_error, print. repeat keeps_calls_step. Qed.

(** With a readable toggle, [log_error] returns. *)
Lemma log_error_returns (e : exn) (context : gmap string pyval) (w : world) :
  logger_can_read "logErrors" w ->
  exists w1, log_error e context w = (Ok tt, w1)
             /\ completion_calls w1 = completion_calls w.
Proof.
  intros Hread.
  assert (Hrun : exists w1, log_error e context w = (Ok tt, w1)).
  { unfold log_error. unfold gets at 1. unfold bind at 1.
    destruct (get_config_set (lg w)) eqn:Hwired; cbn [negb]; [|unfold ret; eauto].
    destruct (Hread Hwired) as (config & w1 & on & Hget & Hflag).
    rewrite (bind_ok _ _ _ _ _ Hget). unfold lift at 1. unfold bind at 1. rewrite Hflag.
    destruct on; cbn [negb]; [|unfold ret; eauto].
    run. eauto. }
  destruct Hrun as (w1 & Hrun). exists w1. split; [exact Hrun|].
  exact (keeps_calls_log_error e context _ _ _ Hrun).
Qed.

(* --------------------------------------------------------------------- *)
(** ** Validation *)
(* --------------------------------------------------------------------- *)

Lemma lstrip_all_space (s : string) :
  all_chars is_space s = true -> lstrip s = "".
Proof.
  induction s as [|c s IH]; [reflexivity|].
  cbn [all_chars lstrip]. intros H. apply andb_true_iff in H as [Hc Hs].
  rewrite Hc. exact (IH Hs).
Qed.

Lemma strip_all_space (s : string) :
  all_chars is_space s = true -> strip s = "".
Proof. intros H. unfold strip. rewrite (lstrip_all_space _ H). reflexivity. Qed.

Section Adapter.

Variable completion : nat -> completion_options -> (string * option pyval) + response.
Variable repr_of : pyval -> string.

(** A model that is missing, empty or made of whitespace is rejected
    by the model check. *)
Lemma model_missing_absent_or_blank (b : gmap string pyval) :
  b !! "model" = None
  \/ (exists s, b !! "model" = Some (PStr s) /\ all_chars is_space s = true) ->
  model_missing (dict_get b "model") = true.
Proof.
  unfold dict_get. intros [-> | (s & -> & Hs)]; [reflexivity|].
  cbn [default from_option id]. unfold model_missing.
  rewrite (strip_all_space _ Hs). apply orb_true_r.
Qed.

Lemma validate_request_model_missing (b : gmap string pyval) :
  model_missing (dict_get b "model") = true ->
  exists message, validate_request (PDict b) = Raise (validation_error message).
Proof.
  intros Hm. unfold validate_request.
  destruct (negb (truthy (PDict b))); [eauto|]. rewrite Hm. eauto.
Qed.

(** While the emulator is inactive the handler answers at once. *)
Lemma handle_chat_completion_inactive (request_body : pyval) (w : world) :
  emulator_active (cfg w) = false ->
  handle_chat_completion completion repr_of request_body w
  = (Ok (create_error_response
           (Exn GenericException
              "Emulator is not active. Start it from the configuration UI." None)
           503 "service_unavailable"), w).
Proof.
  intros Hoff. unfold handle_chat_completion, try_except, bind, is_emulator_active, gets.
  rewrite Hoff. reflexivity.
Qed.

(** C3. While the emulator is inactive, [handle_chat_completion] answers
    every request, valid or not, with status 503 and error type
    service_unavailable; it changes nothing in the process, and in
    particular the provider's [completion] is not called. *)
Theorem inactive_rejects_without_backend (request_body : pyval) (w : world) :
  emulator_active (cfg w) = false ->
  exists (result : pyval) (w1 : world),
    handle_chat_completion completion repr_of request_body w = (Ok result, w1)
    /\ status_of result = Some 503
    /\ error_type_of result = Some "service_unavailable"
    /\ completion_calls w1 = completion_calls w
    /\ w1 = w.
Proof.
  intros Hoff. eexists _, w.
  split; [apply handle_chat_completion_inactive, Hoff|].
  repeat split; reflexivity.
Qed.

(** C4, as amended. While the emulator is active and the error log can
    read its toggle, a request whose body is an object without a model,
    or with a model that is empty or made of whitespace only, is answered
    with status 400 and error type invalid_request_error, and the
    provider's [completion] is not called. *)
Theorem missing_model_rejected_when_active (b : gmap string pyval) (w : world) :
  emulator_active (cfg w) = true ->
  logger_can_read "logErrors" w ->
  b !! "model" = None
  \/ (exists s, b !! "model" = Some (PStr s) /\ all_chars is_space s = true) ->
  exists (result : pyval) (w1 : world),
    handle_chat_completion completion repr_of (PDict b) w = (Ok result, w1)
    /\ status_of result = Some 400
    /\ error_type_of result = Some "invalid_request_error"
    /\ completion_calls w1 = completion_calls w.
Proof.
  intros Hon Hlog Hmodel.
  destruct (validate_request_model_missing b (model_missing_absent_or_blank b Hmodel))
    as (message & Hval).
  destruct (log_error_returns (validation_error message)
              (mk_dict [ ("endpoint", PStr "/v1/chat/completions");
                         ("requestedModel", dict_get b "model") ]) w Hlog)
    as (w1 & Hlogged & Hcalls).
  exists (create_error_response (validation_error message) 400 "invalid_request_error"), w1.
  split; [|repeat split; try reflexivity; exact Hcalls].
  unfold handle_chat_completion, try_except.
  unfold is_emulator_active, gets. unfold bind at 1. rewrite Hon. cbn [negb].
  unfold serve. unfold lift at 1. unfold bind at 1. rewrite Hval.
  cbn [exn_cls validation_error].
  unfold error_context. cbn [py_get]. unfold lift at 1. unfold bind at 1.
  rewrite (bind_ok _ _ _ _ _ Hlogged). reflexivity.
Qed.

End Adapter.

Lemma missing_model_rejected_when_active_witness :
  emulator_active (cfg active_world) = true
  /\ no_model_request !! "model" = None
  /\ exists result w1,
       handle_chat_completion ok_backend plain_repr (PDict no_model_request) active_world
       = (Ok result, w1)
       /\ status_of result = Some 400.
Proof.
  split; [reflexivity|]. split; [reflexivity|].
  destruct (missing_model_rejected_when_active ok_backend plain_repr
              no_model_request active_world eq_refl) as (result & w1 & Hrun & Hstatus & _).
  - intros _. exists get_default_config, active_world, true. split; reflexivity.
  - left. reflexivity.
  - exists result, w1. split; [exact Hrun | exact Hstatus].
Defined.

Lemma inactive_rejects_without_backend_witness :
  emulator_active (cfg fresh_world) = false
  /\ exists result,
       handle_chat_completion ok_backend plain_repr (PDict two_message_request) fresh_world
       = (Ok result, fresh_world)
       /\ status_of result = Some 503.
Proof.
  split; [reflexivity|].
  destruct (inactive_rejects_without_backend ok_backend plain_repr
              (PDict two_message_request) fresh_world eq_refl)
    as (result & w1 & Hrun & Hstatus & _ & _ & ->).
  exists result. split; [exact Hrun | exact Hstatus].
Defined.

(** C4 as stated fails: the request without a model is answered 503 while
    the emulator is inactive. *)
Lemma missing_model_is_always_400_counterexample : ~ missing_model_is_always_400.
Proof.
  intros Hclaim.
  destruct (Hclaim ok_backend plain_repr no_model_request fresh_world eq_refl)
    as (result & w1 & Hrun & Hstatus & _).
  rewrite handle_chat_completion_inactive in Hrun by reflexivity.
  injection Hrun as <- _.
  rewrite status_of_error_response in Hstatus. discriminate Hstatus.
Qed.

(* --------------------------------------------------------------------- *)
(** ** What the request path can raise *)
(* --------------------------------------------------------------------- *)

Lemma raises_benign_ret {A : Type} (a : A) : raises_benign (ret a).
Proof. intros w e w' H. discriminate H. Qed.

Lemma raises_benign_gets {A : Type} (f : world -> A) : raises_benign (gets f).
Proof. intros w e w' H. discriminate H. Qed.

Lemma raises_benign_modify (f : world -> world) : raises_benign (modify f).
Proof. intros w e w' H. discriminate H. Qed.

Lemma raises_benign_raise {A : Type} (e : exn) : benign e -> raises_benign (@raise A e).
Proof. intros He w e' w' [= <- _]. exact He. Qed.

Lemma raises_benign_lift {A : Type} (o : outcome A) :
  (forall e, o = Raise e -> benign e) -> raises_benign (lift o).
Proof. intros Ho w e w' [= -> _]. apply Ho. reflexivity. Qed.

Lemma raises_benign_bind {A B : Type} (m : M A) (k : A -> M B) :
  raises_benign m -> (forall a, raises_benign (k a)) -> raises_benign (bind m k).
Proof.
  intros Hm Hk w e w'. unfold bind.
  destruct (m w) as [[a|e0] w1] eqn:Hrun; intros H.
  - exact (Hk a _ _ _ H).
  - injection H as <- _. exact (Hm _ _ _ Hrun).
Qed.

Lemma raises_benign_try_except {A : Type} (m : M A) (h : exn -> M A) :
  raises_benign m -> (forall e, benign e -> raises_benign (h e)) ->
  raises_benign (try_except m h).
Proof.
  intros Hm Hh w e w'. unfold try_except.
  destruct (m w) as [[a|e0] w1] eqn:Hrun; intros H; [discriminate H|].
  exact (Hh e0 (Hm _ _ _ Hrun) _ _ _ H).
Qed.

Lemma raises_benign_get_config : raises_benign get_config.
Proof.
  intros w e w' H. destruct (get_config_total w) as (v & w1 & Hok).
  rewrite Hok in H. discriminate H.
Qed.

Lemma raises_benign_time_ms : raises_benign time_ms.
Proof. intros w e w' H. discriminate H. Qed.

Lemma raises_benign_random_choices (alphabet : string) (k : nat) :
  raises_benign (random_choices alphabet k).
Proof.
  induction k as [|k IH]; cbn [random_choices].
  - apply raises_benign_ret.
  - apply raises_benign_bind; [intros w e w' H; discriminate H|].
    intros i. apply raises_benign_bind; [exact IH|]. intros rest. apply raises_benign_ret.
Qed.

Lemma py_get_benign (v : pyval) (k : string) (e : exn) :
  py_get v k = Raise e -> benign e.
Proof. destruct v; cbn; intros [= <-]; exact I. Qed.

Lemma py_get_default_benign (v : pyval) (k : string) (dflt : pyval) (e : exn) :
  py_get_default v k dflt = Raise e -> benign e.
Proof. destruct v; cbn; intros [= <-]; exact I. Qed.

Lemma logging_flag_benign (config : pyval) (flag : string) (e : exn) :
  logging_flag config flag = Raise e -> benign e.
Proof.
  unfold logging_flag.
  destruct (py_get_default config "logging" (PDict ∅)) as [section|e1] eqn:H1.
  - destruct (py_get_default section flag (PBool true)) as [v|e2] eqn:H2;
      intros [= <-]. exact (py_get_default_benign _ _ _ _ H2).
  - intros [= <-]. exact (py_get_default_benign _ _ _ _ H1).
Qed.

Lemma supported_provider_benign (provider : pyval) (e : exn) :
  supported_provider provider = Raise e -> benign e.
Proof. destruct provider; cbn; intros [= <-]; exact I. Qed.

Lemma validate_messages_benign (messages : list pyval) (e : exn) :
  validate_messages messages = Raise e -> benign e.
Proof.
  induction messages as [|msg rest IH]; cbn; [discriminate|].
  destruct (validate_message msg) as [[]|e1] eqn:Hmsg; [exact IH|].
  intros [= <-]. unfold validate_message in Hmsg.
  destruct msg; try (injection Hmsg as <-; reflexivity).
  destruct (_ || _); [injection Hmsg as <-; reflexivity | discriminate Hmsg].
Qed.

Lemma validate_request_benign (body : pyval) (e : exn) :
  validate_request body = Raise e -> benign e.
Proof.
  unfold validate_request.
  destruct (negb (truthy body)); [intros [= <-]; reflexivity|].
  destruct body; try (intros [= <-]; exact I).
  destruct (model_missing _); [intros [= <-]; reflexivity|].
  destruct (_ && _); [intros [= <-]; reflexivity|].
  destruct (dict_get d "messages") as [| | | | |l|]; try (intros [= <-]; reflexivity);
    try discriminate.
  destruct l as [|m rest]; [intros [= <-]; reflexivity|].
  destruct (validate_messages (m :: rest)) as [[]|e1] eqn:Hmsgs; [discriminate|].
  intros [= <-]. exact (validate_messages_benign _ _ Hmsgs).
Qed.

Lemma message_contents_benign (input_messages : list pyval) (e : exn) :
  message_contents input_messages = Raise e -> benign e.
Proof.
  induction input_messages as [|m rest IH]; cbn; [discriminate|].
  destruct (py_get_default m "content" (PStr "")) as [content|e1] eqn:Hget.
  - destruct (message_contents rest) as [contents|e2]; [discriminate|].
    intros [= <-]. apply IH. reflexivity.
  - intros [= <-]. exact (py_get_default_benign _ _ _ _ Hget).
Qed.

Lemma join_items_benign (items : list pyval) (i : nat) (e : exn) :
  join_items items i = Raise e -> benign e.
Proof.
  revert i. induction items as [|v rest IH]; intros i; cbn; [discriminate|].
  destruct v; try (intros [= <-]; exact I).
  destruct (join_items rest (S i)) as [parts|e1] eqn:Hrest; [discriminate|].
  intros [= <-]. exact (IH _ Hrest).
Qed.

Lemma estimate_usage_benign (input_messages : list pyval) (text : pyval) (e : exn) :
  estimate_usage input_messages text = Raise e -> benign e.
Proof.
  unfold estimate_usage.
  destruct (message_contents input_messages) as [contents|e1] eqn:Hc.
  - destruct (join_items contents 0) as [parts|e2] eqn:Hj; [discriminate|].
    intros [= <-]. exact (join_items_benign _ _ _ Hj).
  - intros [= <-]. exact (message_contents_benign _ _ Hc).
Qed.

Ltac raises_benign_step :=
  first
    [ apply raises_benign_ret
    | apply raises_benign_gets
    | apply raises_benign_modify
    | apply raises_benign_get_config
    | apply raises_benign_time_ms
    | apply raises_benign_random_choices
    | apply raises_benign_raise; first [assumption | exact I]
    | apply raises_benign_lift; intros ? ?;
      first [ eapply py_get_benign; eassumption
            | eapply py_get_default_benign; eassumption
            | eapply logging_flag_benign; eassumption
            | eapply supported_provider_benign; eassumption
            | eapply validate_request_benign; eassumption
            | eapply estimate_usage_benign; eassumption ]
    | apply raises_benign_bind; [|intros]
    | apply raises_benign_try_except; [|intros]
    | match goal with
      | |- raises_benign (if ?c then _ else _) => destruct c
      | |- raises_benign (match ?x with _ => _ end) => destruct x
      end ].

Lemma raises_benign_log_request (data : gmap string pyval) :
  raises_benign (log_request data).
Proof. unfold log_request, print. repeat raises_benign_step. Qed.

Lemma raises_benign_log_success (data : gmap string pyval) :
  raises_benign (log_success data).
Proof. unfold log_success, print. repeat raises_benign_step. Qed.

Lemma raises_benign_mark_online (provider : pyval) (flag : bool) :
  raises_benign (mark_online provider flag).
Proof. unfold mark_online. destruct provider; repeat raises_benign_step. Qed.

Section AdapterRaises.

Variable completion : nat -> completion_options -> (string * option pyval) + response.
Variable repr_of : pyval -> string.

Lemma raises_benign_call_completion (opts : completion_options) :
  raises_benign (call_completion completion opts).
Proof.
  intros w e w'. unfold call_completion.
  destruct (completion _ opts) as [[message code]|r]; intros [= <- _]; exact I.
Qed.

Lemma raises_benign_chat (messages : list pyval) (options : gmap string pyval) :
  raises_benign (chat completion repr_of messages options).
Proof.
  unfold chat.
  repeat first [ apply raises_benign_call_completion
               | apply raises_benign_mark_online
               | raises_benign_step ].
Qed.

Lemma raises_benign_serve (request_body : pyval) :
  raises_benign (serve completion repr_of request_body).
Proof.
  unfold serve, generate_completion_id.
  repeat first [ apply raises_benign_chat
               | apply raises_benign_log_request
               | apply raises_benign_log_success
               | raises_benign_step ].
Qed.

End AdapterRaises.

(* --------------------------------------------------------------------- *)
(** ** Usage accounting *)
(* --------------------------------------------------------------------- *)

Lemma ceil_quarter_spec (n : nat) :
  4 * (ceil_quarter n - 1) < Z.of_nat n <= 4 * ceil_quarter n.
Proof.
  unfold ceil_quarter.
  pose proof (Z.div_mod (Z.of_nat n + 3) 4 ltac:(lia)) as Hdm.
  pose proof (Z.mod_pos_bound (Z.of_nat n + 3) 4 ltac:(lia)) as Hb.
  lia.
Qed.

Lemma estimate_tokens_ceil (s : string) :
  estimate_tokens (Some s) = ceil_quarter (String.length s).
Proof.
  unfold estimate_tokens. destruct (String.eqb_spec s "") as [->|_]; reflexivity.
Qed.

Lemma classify_error_not_200 (e : exn) : fst (classify_error e) <> 200.
Proof.
  unfold classify_error.
  repeat match goal with
         | |- context [if ?c then _ else _] => destruct c
         end; cbn; discriminate.
Qed.

Lemma joined_contents (input_messages contents : list pyval) (parts : list string) (i : nat) :
  message_contents input_messages = Ok contents ->
  join_items contents i = Ok parts ->
  map content_of input_messages = map Some parts.
Proof.
  revert contents parts i.
  induction input_messages as [|m rest IH]; intros contents parts i; cbn.
  - intros [= <-]. cbn. intros [= <-]. reflexivity.
  - destruct (py_get_default m "content" (PStr "")) as [content|e] eqn:Hget; [|discriminate].
    destruct (message_contents rest) as [contents'|e]; [|discriminate].
    intros [= <-]. cbn.
    destruct content; try discriminate.
    destruct (join_items contents' (S i)) as [parts'|e] eqn:Hrest; [|discriminate].
    intros [= <-]. cbn. unfold content_of at 1. rewrite Hget.
    f_equal. exact (IH _ _ _ eq_refl Hrest).
Qed.

Section AdapterUsage.

Variable completion : nat -> completion_options -> (string * option pyval) + response.
Variable repr_of : pyval -> string.

(** A result of [chat] comes from one call of the provider, the next one
    of the process, and holds its text and its usage. *)
Lemma chat_ok_inv (messages : list pyval) (options : gmap string pyval)
    (w w1 : world) (result : pyval) :
  chat completion repr_of messages options w = (Ok result, w1) ->
  exists opts r,
    completion (List.length (completion_calls w)) opts = inr r
    /\ result = PDict (mk_dict [ ("text", PStr (response_text r));
                                 ("usage", response_usage r) ]).
Proof.
  unfold chat. intros H.
  apply bind_ok_inv in H as (api_key & w0 & Hkey & H).
  assert (Hw0 : w0 = w).
  { destruct (negb (truthy (dict_get options "api_key"))).
    - apply bind_ok_inv in Hkey as (info & wk & Hinfo & Hkey).
      unfold lift in Hinfo. injection Hinfo as _ <-.
      destruct info as [[name env_var]|]; run_in Hkey; injection Hkey as _ <-; reflexivity.
    - injection Hkey as _ <-. reflexivity. }
  subst w0.
  destruct (negb (truthy api_key)); [discriminate H|].
  unfold try_except in H.
  match type of H with
  | context [bind (call_completion completion ?o) ?k w] =>
      destruct (bind (call_completion completion o) k w) as [[res|e] w2] eqn:Hbody
  end.
  - injection H as <- <-.
    apply bind_ok_inv in Hbody as (r & wc & Hcall & Hbody).
    unfold call_completion in Hcall.
    match type of Hcall with
    | context [completion ?n ?o] => destruct (completion n o) as [[message code]|r'] eqn:Hc
    end; [discriminate Hcall|].
    injection Hcall as <- <-.
    apply bind_ok_inv in Hbody as ([] & wm & _ & Hbody).
    destruct (negb (truthy (PStr (response_text r')))); [discriminate Hbody|].
    injection Hbody as <- _.
    eexists _, r'. split; [exact Hc | reflexivity].
  - apply bind_ok_inv in H as ([] & wm & _ & H). discriminate H.
Qed.

(** A 200 comes out of [serve] only. *)
Lemma handle_chat_completion_200 (request_body result : pyval) (w w1 : world) :
  handle_chat_completion completion repr_of request_body w = (Ok result, w1) ->
  status_of result = Some 200 ->
  serve completion repr_of request_body w = (Ok result, w1).
Proof.
  unfold handle_chat_completion, try_except, is_emulator_active, gets.
  unfold bind at 1.
  destruct (emulator_active (cfg w)); cbn [negb].
  - destruct (serve completion repr_of request_body w) as [[res|e] ws] eqn:Hserve.
    + intros [= <- <-] _. reflexivity.
    + pose proof (raises_benign_serve completion repr_of request_body _ _ _ Hserve) as Hb.
      unfold benign in Hb.
      destruct (exn_cls e) as [sc ty| | | | | | |]; intros H Hstatus;
        apply bind_ok_inv in H as (context & wc & _ & H);
        apply bind_ok_inv in H as ([] & wl & _ & H).
      1: { injection H as <- _. rewrite status_of_error_response in Hstatus.
           subst sc. discriminate Hstatus. }
      all: destruct (classify_error e) as [sc ty] eqn:Hcl; injection H as <- _;
        rewrite status_of_error_response in Hstatus;
        pose proof (classify_error_not_200 e) as Hne; rewrite Hcl in Hne;
        cbn in Hne; congruence.
  - intros [= <- _] Hstatus. rewrite status_of_error_response in Hstatus.
    discriminate Hstatus.
Qed.

End AdapterUsage.

Lemma validate_request_ok_inv (body : pyval) (valid : bool) :
  validate_request body = Ok valid -> exists b, body = PDict b.
Proof.
  unfold validate_request.
  destruct (negb (truthy body)); [discriminate|].
  destruct body; try discriminate. eauto.
Qed.

Lemma chat_result_usage (text usage : pyval) :
  py_get (PDict (mk_dict [ ("text", text); ("usage", usage) ])) "usage" = Ok usage.
Proof. reflexivity. Qed.

Lemma chat_result_text (text usage : pyval) :
  py_get (PDict (mk_dict [ ("text", text); ("usage", usage) ])) "text" = Ok text.
Proof. reflexivity. Qed.

Lemma success_usage_entry (key : string) (completion_id model choices : pyval) (created : pyval)
    (usage : gmap string pyval) :
  usage_entry key
    (PDict (mk_dict
      [ ("statusCode", PInt 200);
        ("body", PDict (mk_dict
           [ ("id", completion_id);
             ("object", PStr "chat.completion");
             ("created", created);
             ("model", model);
             ("choices", choices);
             ("usage", PDict usage) ])) ]))
  = usage !! key.
Proof. reflexivity. Qed.

Lemma success_returned_text (completion_id model created usage text : pyval) :
  returned_text
    (PDict (mk_dict
      [ ("statusCode", PInt 200);
        ("body", PDict (mk_dict
           [ ("id", completion_id);
             ("object", PStr "chat.completion");
             ("created", created);
             ("model", model);
             ("choices", PList
                [ PDict (mk_dict
                    [ ("index", PInt 0);
                      ("message", PDict (mk_dict
                         [ ("role", PStr "assistant"); ("content", text) ]));
                      ("finish_reason", PStr "stop") ]) ]);
             ("usage", usage) ])) ]))
  = Some text.
Proof. reflexivity. Qed.

Lemma lift_ok_inv {A : Type} (o : outcome A) (w w' : world) (a : A) :
  lift o w = (Ok a, w') -> o = Ok a /\ w' = w.
Proof. unfold lift. intros H. inversion H. split; reflexivity. Qed.

Lemma Ok_inj {A : Type} (a b : A) : Ok a = Ok b -> a = b.
Proof. intros H. inversion H. reflexivity. Qed.

Lemma ret_ok_inv {A : Type} (a b : A) (w w' : world) :
  ret a w = (Ok b, w') -> b = a /\ w' = w.
Proof. unfold ret. intros H. inversion H. split; reflexivity. Qed.

Ltac peel_lift H Ha :=
  let a := fresh "a" in
  let w' := fresh "w" in
  apply bind_ok_inv in H as (a & w' & Ha & H);
  apply lift_ok_inv in Ha as [Ha ->].

Section AdapterEstimate.

Variable completion : nat -> completion_options -> (string * option pyval) + response.
Variable repr_of : pyval -> string.

(** C1, as amended. When a request is answered 200 and the provider's
    answer to the call carries no usage report, the usage block holds:
    as prompt tokens, the ceiling of a quarter of the length of the
    contents of the input messages joined by single spaces; as completion
    tokens, the ceiling of a quarter of the length of the returned text;
    as total, their sum. *)
Theorem usage_estimated_from_joined_prompt
    (request_body result : pyval) (w w1 : world) :
  (forall opts r, completion (List.length (completion_calls w)) opts = inr r ->
                  resp_usage r = None) ->
  handle_chat_completion completion repr_of request_body w = (Ok result, w1) ->
  status_of result = Some 200 ->
  exists (b : gmap string pyval) (parts : list string) (text : string),
    request_body = PDict b
    /\ map content_of (build_input_messages (dict_get b "messages") (dict_get b "prompt"))
       = map Some parts
    /\ returned_text result = Some (PStr text)
    /\ usage_entry "prompt_tokens" result
       = Some (PInt (ceil_quarter (String.length (str_join " " parts))))
    /\ usage_entry "completion_tokens" result
       = Some (PInt (ceil_quarter (String.length text)))
    /\ usage_entry "total_tokens" result
       = Some (PInt (ceil_quarter (String.length (str_join " " parts))
                     + ceil_quarter (String.length text))).
Proof.
  intros Hnousage Hrun Hstatus.
  pose proof (handle_chat_completion_200 completion repr_of _ _ _ _ Hrun Hstatus) as H.
  clear Hrun Hstatus. unfold serve in H.
  peel_lift H Hval.
  destruct (validate_request_ok_inv _ _ Hval) as (b & ->).
  apply bind_ok_inv in H as (config & wc & Hcfg & H).
  pose proof (keeps_calls_get_config _ _ _ Hcfg) as Hcalls1.
  peel_lift H Hrequested. peel_lift H Hmessages. peel_lift H Hprompt.
  peel_lift H Htemperature. peel_lift H Hfirst. peel_lift H Hsecond.
  peel_lift H Hprovider. peel_lift H Hmodel. peel_lift H Hkey.
  cbn [py_get py_get_default] in Hrequested, Hmessages, Hprompt.
  injection Hrequested as <-. injection Hmessages as <-. injection Hprompt as <-.
  apply bind_ok_inv in H as ([] & wl & Hlog & H).
  pose proof (keeps_calls_log_request _ _ _ _ Hlog) as Hcalls2.
  apply bind_ok_inv in H as (res & wch & Hchat & H).
  destruct (chat_ok_inv completion repr_of _ _ _ _ _ Hchat) as (opts & r & Hcall & ->).
  rewrite Hcalls2, Hcalls1 in Hcall.
  assert (Hnone : response_usage r = PNone).
  { unfold response_usage. rewrite (Hnousage _ _ Hcall). reflexivity. }
  rewrite Hnone in H.
  peel_lift H Hreported. rewrite chat_result_usage in Hreported. injection Hreported as <-.
  peel_lift H Htext. rewrite chat_result_text in Htext. injection Htext as <-.
  cbn [truthy] in H.
  peel_lift H Husage.
  unfold estimate_usage in Husage.
  destruct (message_contents _) as [contents|e] eqn:Hcontents; [|discriminate Husage].
  destruct (join_items contents 0) as [parts|e] eqn:Hparts; [|discriminate Husage].
  apply Ok_inj in Husage. destruct Husage.
  peel_lift H Hp. peel_lift H Hc. peel_lift H Ht.
  apply bind_ok_inv in H as ([] & ws & _ & H).
  apply bind_ok_inv in H as (completion_id & wi & _ & H).
  apply bind_ok_inv in H as (created & wt & _ & H).
  apply ret_ok_inv in H as [-> _].
  exists b, parts, (response_text r).
  split; [reflexivity|].
  split; [exact (joined_contents _ _ _ _ Hcontents Hparts)|].
  split; [apply success_returned_text|].
  rewrite !success_usage_entry.
  cbn [py_str_value]. rewrite !estimate_tokens_ceil.
  repeat split; reflexivity.
Qed.

End AdapterEstimate.

Lemma run_pair {A : Type} (m : M A) (w : world) (a : A) :
  fst (m w) = Ok a -> m w = (Ok a, snd (m w)).
Proof. intros H. rewrite <- H. apply surjective_pairing. Defined.

Lemma ok_backend_reports_no_usage (n : nat) (opts : completion_options) (r : response) :
  ok_backend n opts = inr r -> resp_usage r = None.
Proof. unfold ok_backend. intros H. inversion H. reflexivity. Defined.

Lemma usage_estimated_from_joined_prompt_witness :
  let run := handle_chat_completion ok_backend plain_repr (PDict two_message_request)
               active_world in
  let result := match fst run with Ok v => v | Raise _ => PNone end in
  run = (Ok result, snd run)
  /\ status_of result = Some 200
  /\ exists parts text,
       returned_text result = Some (PStr text)
       /\ usage_entry "prompt_tokens" result
          = Some (PInt (ceil_quarter (String.length (str_join " " parts)))).
Proof.
  intros run result.
  assert (Hrun : run = (Ok result, snd run)) by (apply run_pair; vm_compute; reflexivity).
  assert (Hstatus : status_of result = Some 200) by (vm_compute; reflexivity).
  split; [exact Hrun|]. split; [exact Hstatus|].
  destruct (usage_estimated_from_joined_prompt ok_backend plain_repr
              (PDict two_message_request) result active_world (snd run)
              (ok_backend_reports_no_usage _) Hrun Hstatus)
    as (b & parts & text & _ & _ & Htext & Hprompt & _).
  exists parts, text. split; [exact Htext | exact Hprompt].
Defined.

(** C1 as stated fails: for the two messages "a" and "b" the code joins
    the contents into "a b", three characters, and reports one prompt
    token, where the sum of the two ceilings is two. *)
Lemma prompt_tokens_are_summed_counterexample : ~ prompt_tokens_are_summed.
Proof.
  intros Hclaim.
  pose (run := handle_chat_completion ok_backend plain_repr (PDict two_message_request)
                 active_world).
  pose (result := match fst run with Ok v => v | Raise _ => PNone end).
  assert (Hrun : run = (Ok result, snd run)) by (apply run_pair; vm_compute; reflexivity).
  assert (Hstatus : status_of result = Some 200) by (vm_compute; reflexivity).
  assert (Hmessages : dict_get two_message_request "messages"
                      = PList [user_message "a"; user_message "b"])
    by (vm_compute; reflexivity).
  pose proof (Hclaim ok_backend plain_repr two_message_request
                [user_message "a"; user_message "b"] active_world (snd run) result
                ok_backend_reports_no_usage Hmessages Hrun Hstatus) as Hsum.
  vm_compute in Hsum. discriminate Hsum.
Qed.

(* ===================================================================== *)
(** * Further properties of the code *)
(* ===================================================================== *)

(* --------------------------------------------------------------------- *)
(** ** The configuration cache, continued *)
(* --------------------------------------------------------------------- *)

Lemma same_mtime_false (known : option N) (st_mtime : N) :
  known <> Some st_mtime -> same_mtime known st_mtime = false.
Proof.
  destruct known as [m|]; cbn; [|reflexivity].
  intros Hne. apply N.eqb_neq. congruence.
Qed.

(** [get_config] when it loads the file: nothing is cached, or the
    fencepost is not the modification time of the file. *)
Lemma get_config_load (w : world) (f : file) :
  files (sys w) !! CONFIG_PATH = Some f ->
  (is_Some (cached_config (cfg w)) -> config_mtime (cfg w) <> Some (file_mtime f)) ->
  get_config w =
    match file_doc f with
    | Some doc =>
        (Ok doc,
         with_cfg (put_config_mtime (Some (file_mtime f)))
           (with_cfg (put_cached_config (Some doc))
              (match cached_config (cfg w) with
               | Some _ => with_cfg (put_config_mtime (Some (file_mtime f))) w
               | None => w
               end)))
    | None =>
        (Ok get_default_config,
         match cached_config (cfg w) with
         | Some _ => with_cfg (put_config_mtime (Some (file_mtime f))) w
         | None => w
         end)
    end.
Proof.
  intros Hf Hstale. unfold get_config. run.
  destruct (cached_config (cfg w)) as [c|] eqn:Hc; cbn; rewrite Hf; cbn.
  - rewrite (same_mtime_false _ _ (Hstale ltac:(eauto))). cbn. rewrite Hf. cbn.
    destruct (file_doc f); cbn; [rewrite Hf|]; reflexivity.
  - destruct (file_doc f); cbn; [rewrite Hf|]; reflexivity.
Qed.

Lemma get_config_reload (w : world) (f : file) (doc : pyval) :
  files (sys w) !! CONFIG_PATH = Some f ->
  file_doc f = Some doc ->
  (is_Some (cached_config (cfg w)) -> config_mtime (cfg w) <> Some (file_mtime f)) ->
  exists w1,
    get_config w = (Ok doc, w1)
    /\ cached_config (cfg w1) = Some doc
    /\ config_mtime (cfg w1) = Some (file_mtime f)
    /\ sys w1 = sys w
    /\ get_config w1 = (Ok doc, w1).
Proof.
  intros Hf Hdoc Hstale.
  rewrite (get_config_load w f Hf Hstale), Hdoc.
  eexists. split; [reflexivity|].
  assert (Hsys : sys (match cached_config (cfg w) with
                      | Some _ => with_cfg (put_config_mtime (Some (file_mtime f))) w
                      | None => w
                      end) = sys w)
    by (destruct (cached_config (cfg w)); reflexivity).
  cbn. split; [reflexivity|]. split; [reflexivity|]. split; [exact Hsys|].
  apply (get_config_hit _ doc f); cbn; [reflexivity| |reflexivity].
  rewrite Hsys. exact Hf.
Qed.

(** X1. When the configuration file parses and either nothing is cached
    or the cached fencepost is not the file's modification time,
    [get_config] returns the document of the file, caches it with the
    file's modification time as the new fencepost, writes nothing, and the
    next [get_config] returns the same document without any change. *)
Theorem get_config_reloads_changed_file (w : world) (f : file) (doc : pyval) :
  files (sys w) !! CONFIG_PATH = Some f ->
  file_doc f = Some doc ->
  (is_Some (cached_config (cfg w)) -> config_mtime (cfg w) <> Some (file_mtime f)) ->
  exists w1,
    get_config w = (Ok doc, w1)
    /\ cached_config (cfg w1) = Some doc
    /\ config_mtime (cfg w1) = Some (file_mtime f)
    /\ sys w1 = sys w
    /\ get_config w1 = (Ok doc, w1).
Proof.
  intros Hf Hdoc Hstale.
  destruct (get_config_reload w f doc Hf Hdoc Hstale)
    as (w1 & Hget & Hcached & Hmtime & Hsys & Hagain).
  exists w1. split; [exact Hget|]. split; [exact Hcached|].
  split; [exact Hmtime|]. split; [exact Hsys | exact Hagain].
Qed.

Lemma get_config_reloads_changed_file_witness :
  let w := external_write CONFIG_PATH (File (Some get_default_config) 7) fresh_world in
  files (sys w) !! CONFIG_PATH = Some (File (Some get_default_config) 7)
  /\ exists w1, get_config w = (Ok get_default_config, w1)
                /\ config_mtime (cfg w1) = Some 7%N.
Proof.
  intros w.
  assert (Hf : files (sys w) !! CONFIG_PATH = Some (File (Some get_default_config) 7))
    by (vm_compute; reflexivity).
  split; [exact Hf|].
  destruct (get_config_reloads_changed_file w _ get_default_config Hf eq_refl)
    as (w1 & Hget & _ & Hm & _).
  - intros [c Hc]. discriminate Hc.
  - exists w1. split; [exact Hget | exact Hm].
Defined.

(** X2. As long as the configuration file is absent or parses, a second
    [get_config] right after a first returns the same value and changes
    nothing: the cached document is served without a reload, and the
    defaults are served again without having been stored. *)
Theorem get_config_twice (w w1 : world) (v : pyval) :
  (forall f, files (sys w) !! CONFIG_PATH = Some f -> is_Some (file_doc f)) ->
  get_config w = (Ok v, w1) ->
  get_config w1 = (Ok v, w1).
Proof.
  intros Hparse Hget.
  destruct (files (sys w) !! CONFIG_PATH) as [f|] eqn:Hf.
  - destruct (Hparse f eq_refl) as [doc Hdoc].
    destruct (cached_config (cfg w)) as [c|] eqn:Hc.
    + destruct (decide (config_mtime (cfg w) = Some (file_mtime f))) as [Hm|Hm].
      * rewrite (get_config_hit w c f Hc Hf Hm) in Hget. injection Hget as <- <-.
        exact (get_config_hit w c f Hc Hf Hm).
      * destruct (get_config_reload w f doc Hf Hdoc (fun _ => Hm))
          as (w' & Hget' & _ & _ & _ & Hagain).
        rewrite Hget' in Hget. injection Hget as <- <-. exact Hagain.
    + destruct (get_config_reload w f doc Hf Hdoc)
        as (w' & Hget' & _ & _ & _ & Hagain).
      { rewrite Hc. intros [? H]. discriminate H. }
      rewrite Hget' in Hget. injection Hget as <- <-. exact Hagain.
  - rewrite (get_config_no_file w Hf) in Hget. injection Hget as <- <-.
    exact (get_config_no_file w Hf).
Qed.

Lemma get_config_twice_witness :
  get_config fresh_world = (Ok get_default_config, fresh_world)
  /\ get_config fresh_world = (Ok get_default_config, fresh_world).
Proof.
  assert (H : get_config fresh_world = (Ok get_default_config, fresh_world)) by reflexivity.
  split; [exact H|].
  apply (get_config_twice fresh_world fresh_world get_default_config); [|exact H].
  intros f Hf. vm_compute in Hf. discriminate Hf.
Defined.

(** X3. With a configuration cached (one that is not [null]: for the
    code's [is not None] test a cached [null] is no cache), a file that no
    longer parses and whose modification time is not the cached fencepost
    makes [get_config] answer the defaults once. The cached configuration
    is kept, but the fencepost has moved to the new modification time
    before the parse failed, so the next [get_config] is a hit: it answers
    the old cached configuration again and does not try the file any
    more. *)
Theorem get_config_stale_after_corrupt (w : world) (c : pyval) (f : file) :
  cached_config (cfg w) = Some c ->
  c <> PNone ->
  files (sys w) !! CONFIG_PATH = Some f ->
  file_doc f = None ->
  config_mtime (cfg w) <> Some (file_mtime f) ->
  exists w1,
    get_config w = (Ok get_default_config, w1)
    /\ cached_config (cfg w1) = Some c
    /\ config_mtime (cfg w1) = Some (file_mtime f)
    /\ sys w1 = sys w
    /\ get_config w1 = (Ok c, w1).
Proof.
  intros Hc _ Hf Hdoc Hm.
  rewrite (get_config_load w f Hf (fun _ => Hm)), Hdoc, Hc.
  eexists. split; [reflexivity|]. cbn.
  split; [exact Hc|]. split; [reflexivity|]. split; [reflexivity|].
  apply (get_config_hit _ c f); cbn; [exact Hc | exact Hf | reflexivity].
Qed.

Lemma get_config_stale_after_corrupt_witness :
  let w := external_write CONFIG_PATH (File None 9)
             (with_cfg (put_config_mtime (Some 5%N))
                (with_cfg (put_cached_config (Some (PDict (mk_dict [ ("port", PInt 1) ]))))
                   fresh_world)) in
  exists w1,
    get_config w = (Ok get_default_config, w1)
    /\ config_mtime (cfg w1) = Some 9%N
    /\ get_config w1 = (Ok (PDict (mk_dict [ ("port", PInt 1) ])), w1).
Proof.
  intros w.
  destruct (get_config_stale_after_corrupt w (PDict (mk_dict [ ("port", PInt 1) ]))
              (File None 9))
    as (w1 & Hfirst & _ & Hmtime & _ & Hsecond).
  - reflexivity.
  - discriminate.
  - vm_compute. reflexivity.
  - reflexivity.
  - discriminate.
  - exists w1. split; [exact Hfirst|]. split; [exact Hmtime | exact Hsecond].
Defined.

(** What [get_config] can leave in the cache. *)
Lemma get_config_cache_origin (w w1 : world) (r : outcome pyval) :
  get_config w = (r, w1) ->
  cached_config (cfg w1) = cached_config (cfg w)
  \/ (exists f, files (sys w) !! CONFIG_PATH = Some f
                /\ file_doc f = cached_config (cfg w1)
                /\ r = Ok (default PNone (file_doc f))
                /\ is_Some (file_doc f)).
Proof.
  intros Hget.
  destruct (files (sys w) !! CONFIG_PATH) as [f|] eqn:Hf.
  - destruct (decide (is_Some (cached_config (cfg w))
                      /\ config_mtime (cfg w) = Some (file_mtime f))) as [[[c Hc] Hm]|Hno].
    + rewrite (get_config_hit w c f Hc Hf Hm) in Hget. injection Hget as _ <-. left. reflexivity.
    + rewrite (get_config_load w f Hf) in Hget by tauto.
      destruct (file_doc f) as [doc|] eqn:Hdoc; injection Hget as <- <-.
      * right. exists f. rewrite Hdoc. cbn. eauto.
      * left. destruct (cached_config (cfg w)) eqn:E; cbn; rewrite ?E; reflexivity.
  - rewrite (get_config_no_file w Hf) in Hget. injection Hget as _ <-. left. reflexivity.
Qed.

(** X4. [get_config] never writes and never stores the defaults: it leaves
    the files, the environment and every other global alone, and the
    cache after it is either what it was or the document it has just read
    from the file and returned. With nothing cached and no usable file it
    answers the compiled-in defaults and changes nothing at all. *)
Theorem get_config_never_stores_defaults (w w1 : world) (r : outcome pyval) :
  get_config w = (r, w1) ->
  sys w1 = sys w
  /\ (cached_config (cfg w1) = cached_config (cfg w)
      \/ exists doc, r = Ok doc /\ cached_config (cfg w1) = Some doc
                     /\ (file_doc <$> files (sys w) !! CONFIG_PATH) = Some (Some doc))
  /\ (cached_config (cfg w) = None ->
      (file_doc <$> files (sys w) !! CONFIG_PATH) = None
      \/ (file_doc <$> files (sys w) !! CONFIG_PATH) = Some None ->
      r = Ok get_default_config /\ w1 = w).
Proof.
  intros Hget. split; [exact (proj1 (get_config_frame _ _ _ Hget))|]. split.
  - destruct (get_config_cache_origin _ _ _ Hget) as [Hsame | (f & Hf & Hdoc & Hr & [doc Hsome])].
    + left. exact Hsame.
    + right. exists doc. rewrite Hf, <- Hdoc, Hr, Hsome. cbn. rewrite Hsome. auto.
  - intros Hc Hfile.
    destruct (files (sys w) !! CONFIG_PATH) as [f|] eqn:Hf.
    + destruct Hfile as [Hfile | Hfile]; [discriminate Hfile|].
      injection Hfile as Hdoc.
      rewrite (get_config_load w f Hf) in Hget.
      * rewrite Hdoc, Hc in Hget. injection Hget as <- <-. auto.
      * rewrite Hc. intros [? H]. discriminate H.
    + rewrite (get_config_no_file w Hf) in Hget. injection Hget as <- <-. auto.
Qed.

Lemma get_config_never_stores_defaults_witness :
  let w := external_write CONFIG_PATH (File None 9) fresh_world in
  get_config w = (Ok get_default_config, w)
  /\ sys w = sys w.
Proof.
  intros w.
  assert (H : get_config w = (Ok get_default_config, w)) by (vm_compute; reflexivity).
  split; [exact H|].
  exact (proj1 (get_config_never_stores_defaults w w _ H)).
Defined.

(* --------------------------------------------------------------------- *)
(** ** Activation, its snapshot, and restarts *)
(* --------------------------------------------------------------------- *)

(** What a successful [update_config] leaves: the merged document in the
    file and in the cache, the other globals untouched. *)
Lemma update_config_success (updates : gmap string pyval) (w w1 : world) :
  update_config updates w = (Ok true, w1) ->
  exists (current : gmap string pyval) (w0 : world) (t : N),
    get_config w = (Ok (PDict current), w0)
    /\ files (sys w1) !! CONFIG_PATH = Some (File (Some (PDict (updates ∪ current))) t)
    /\ cached_config (cfg w1) = Some (PDict (updates ∪ current))
    /\ config_mtime (cfg w1) = Some t
    /\ emulator_active (cfg w1) = emulator_active (cfg w)
    /\ write_faults (sys w) !! CONFIG_PATH = None
    /\ lg w1 = lg w.
Proof.
  intros Hupd.
  destruct (get_config_total w) as (v & w0 & Hget).
  pose proof (get_config_frame _ _ _ Hget) as (Hsys & Hlg & _ & _ & _ & Hactive & _).
  destruct v as [| | | | | |current];
    try (unfold update_config in Hupd; rewrite (bind_ok _ _ _ _ _ Hget) in Hupd;
         run_in Hupd; discriminate Hupd).
  rewrite (update_config_run updates current w w0 Hget) in Hupd.
  exists current, w0, (clock (sys w0) (clock_reads (sys w0))).
  destruct (write_faults (sys w0) !! CONFIG_PATH) as [[|]|] eqn:Hfault; cbn zeta in Hupd;
    try discriminate Hupd.
  injection Hupd as <-. cbn. rewrite lookup_insert_eq, <- Hsys, Hfault. auto 10.
Qed.

(** What a failed [update_config] leaves alone. *)
Lemma update_config_failure (updates : gmap string pyval) (w w1 : world) :
  update_config updates w = (Ok false, w1) ->
  emulator_active (cfg w1) = emulator_active (cfg w)
  /\ is_Some (write_faults (sys w) !! CONFIG_PATH).
Proof.
  intros Hupd.
  destruct (get_config_total w) as (v & w0 & Hget).
  pose proof (get_config_frame _ _ _ Hget) as (Hsys & _ & _ & _ & _ & Hactive & _).
  destruct v as [| | | | | |current];
    try (unfold update_config in Hupd; rewrite (bind_ok _ _ _ _ _ Hget) in Hupd;
         run_in Hupd; discriminate Hupd).
  rewrite (update_config_run updates current w w0 Hget) in Hupd.
  rewrite <- Hsys.
  destruct (write_faults (sys w0) !! CONFIG_PATH) as [[|]|] eqn:Hfault; cbn zeta in Hupd;
    try discriminate Hupd; injection Hupd as <-; cbn; eauto.
Qed.

(** [start_emulator] and [stop_emulator] in terms of their [update_config]. *)
Lemma start_emulator_inv (provider model api_key_env_var : string) (w w1 : world)
    (success : bool) :
  start_emulator provider model api_key_env_var w = (Ok success, w1) ->
  exists w0,
    update_config (mk_dict
      [ ("provider", PStr provider);
        ("model", PStr model);
        ("apiKeyEnvVar", PStr api_key_env_var);
        ("emulatorActive", PBool true);
        ("lastConfig", PDict (mk_dict
           [ ("provider", PStr provider);
             ("model", PStr model);
             ("apiKeyEnvVar", PStr api_key_env_var) ])) ]) w = (Ok success, w0)
    /\ w1 = if success then with_cfg (put_emulator_active true) w0 else w0.
Proof.
  unfold start_emulator. intros H.
  apply bind_ok_inv in H as (ok & w0 & Hupd & H).
  apply bind_ok_inv in H as ([] & wf & Hflag & H).
  apply ret_ok_inv in H as [-> ->].
  exists w0. split; [exact Hupd|].
  destruct ok; run_in Hflag; injection Hflag as <-; reflexivity.
Qed.

Lemma stop_emulator_inv (w w1 : world) (success : bool) :
  stop_emulator w = (Ok success, w1) ->
  exists w0,
    update_config (mk_dict [ ("emulatorActive", PBool false) ]) w = (Ok success, w0)
    /\ w1 = if success then with_cfg (put_emulator_active false) w0 else w0.
Proof.
  unfold stop_emulator. intros H.
  apply bind_ok_inv in H as (ok & w0 & Hupd & H).
  apply bind_ok_inv in H as ([] & wf & Hflag & H).
  apply ret_ok_inv in H as [-> ->].
  exists w0. split; [exact Hupd|].
  destruct ok; run_in Hflag; injection Hflag as <-; reflexivity.
Qed.

Lemma get_last_config_hit (w : world) (d : gmap string pyval) (f : file) :
  cached_config (cfg w) = Some (PDict d) ->
  files (sys w) !! CONFIG_PATH = Some f ->
  config_mtime (cfg w) = Some (file_mtime f) ->
  get_last_config w = (Ok (dict_get d "lastConfig"), w).
Proof.
  intros Hc Hf Hm. unfold get_last_config.
  rewrite (bind_ok _ _ _ _ _ (get_config_hit w _ f Hc Hf Hm)). reflexivity.
Qed.

(** The start of a process on a system whose configuration file holds the
    object [d]. *)
Lemma start_process_run (s : system) (d : gmap string pyval) (t : N) :
  files s !! CONFIG_PATH = Some (File (Some (PDict d)) t) ->
  exists w,
    start_process s = (Ok tt, w)
    /\ emulator_active (cfg w)
       = match d !! "emulatorActive" with Some (PBool true) => true | _ => false end
    /\ cached_config (cfg w) = Some (PDict d)
    /\ config_mtime (cfg w) = Some t
    /\ cached_saved_configs (cfg w) = None
    /\ cached_models (cfg w) = None
    /\ heap w = []
    /\ get_config_set (lg w) = true
    /\ sys w = s.
Proof.
  intros Hf.
  destruct (get_config_reload (blank_process s) (File (Some (PDict d)) t) (PDict d) Hf eq_refl)
    as (w0 & Hget & Hc & Hm & Hsys & _).
  { intros [c Hc]. discriminate Hc. }
  pose proof (get_config_frame _ _ _ Hget) as (_ & Hlg & Hheap & _ & _ & _ & Hmodels & Hpresets).
  unfold start_process, init_emulator_state.
  unfold bind at 1. unfold bind at 1. rewrite Hget.
  cbn [py_get_default lift]. unfold bind at 1.
  eexists. split; [reflexivity|]. cbn.
  rewrite Hc, Hm, Hpresets, Hmodels, Hheap, Hsys.
  unfold dict_get_default. destruct (d !! "emulatorActive") as [[| [] | | | | |]|]; cbn; auto 10.
Qed.

(** X5. When the configuration is an object, [start_emulator] returns
    [True] exactly when the write succeeds. It then sets the activation
    flag, and the configuration served afterwards holds the provider, the
    model and the key variable given, [emulatorActive] true, and under
    [lastConfig] a snapshot of the three, which [get_last_config] returns;
    every other key of the configuration is kept. When the write fails the
    activation flag is left as it was. *)
Theorem start_emulator_records_snapshot (provider model api_key_env_var : string)
    (current : gmap string pyval) (w w0 : world) :
  get_config w = (Ok (PDict current), w0) ->
  exists (success : bool) (w1 : world),
    start_emulator provider model api_key_env_var w = (Ok success, w1)
    /\ (success = true <-> write_faults (sys w) !! CONFIG_PATH = None)
    /\ (success = false -> emulator_active (cfg w1) = emulator_active (cfg w))
    /\ (success = true ->
        let snapshot := PDict (mk_dict
          [ ("provider", PStr provider);
            ("model", PStr model);
            ("apiKeyEnvVar", PStr api_key_env_var) ]) in
        emulator_active (cfg w1) = true
        /\ get_last_config w1 = (Ok snapshot, w1)
        /\ exists merged,
             get_config w1 = (Ok (PDict merged), w1)
             /\ merged !! "provider" = Some (PStr provider)
             /\ merged !! "model" = Some (PStr model)
             /\ merged !! "apiKeyEnvVar" = Some (PStr api_key_env_var)
             /\ merged !! "emulatorActive" = Some (PBool true)
             /\ merged !! "lastConfig" = Some snapshot
             /\ forall k, k <> "provider" -> k <> "model" -> k <> "apiKeyEnvVar" ->
                          k <> "emulatorActive" -> k <> "lastConfig" ->
                          merged !! k = current !! k).
Proof.
  intros Hget.
  pose proof (get_config_frame _ _ _ Hget) as (Hsys & _ & _ & _ & _ & Hactive & _).
  set (updates := mk_dict
    [ ("provider", PStr provider);
      ("model", PStr model);
      ("apiKeyEnvVar", PStr api_key_env_var);
      ("emulatorActive", PBool true);
      ("lastConfig", PDict (mk_dict
         [ ("provider", PStr provider);
           ("model", PStr model);
           ("apiKeyEnvVar", PStr api_key_env_var) ])) ]).
  pose proof (update_config_run updates current w w0 Hget) as Hrun.
  assert (Hstart : forall ok wu, update_config updates w = (Ok ok, wu) ->
            start_emulator provider model api_key_env_var w
            = (Ok ok, if ok then with_cfg (put_emulator_active true) wu else wu)).
  { intros ok wu Hupd. unfold start_emulator. fold updates.
    rewrite (bind_ok _ _ _ _ _ Hupd). destruct ok; reflexivity. }
  rewrite <- Hsys.
  destruct (write_faults (sys w0) !! CONFIG_PATH) as [[|]|] eqn:Hfault; cbn zeta in Hrun;
    eexists _, _; (split; [exact (Hstart _ _ Hrun)|]);
    (split; [split; intros; congruence|]).
  1, 2: split; [intros _; exact Hactive | intros H; discriminate H].
  split; [intros H; discriminate H|].
  intros _ snapshot.
  split; [reflexivity|].
  split.
  { erewrite get_last_config_hit; cbn; [|reflexivity | apply lookup_insert_eq | reflexivity].
    unfold dict_get. rewrite (lookup_union_Some_l _ _ _ snapshot) by reflexivity.
    reflexivity. }
  exists (updates ∪ current).
  split; [eapply get_config_hit; cbn; [reflexivity | apply lookup_insert_eq | reflexivity]|].
  repeat split; try (apply lookup_union_Some_l; reflexivity).
  intros k H1 H2 H3 H4 H5. apply lookup_union_r.
  subst updates. unfold mk_dict. cbn [list_to_map foldr].
  repeat (rewrite lookup_insert_ne by (apply not_eq_sym; assumption)). apply lookup_empty.
Qed.

Lemma start_emulator_records_snapshot_witness :
  get_config fresh_world = (Ok get_default_config, fresh_world)
  /\ exists success w1,
       start_emulator "groq" "gemma2-9b-it" "GROQ_API_KEY" fresh_world = (Ok success, w1)
       /\ (success = true <-> write_faults (sys fresh_world) !! CONFIG_PATH = None).
Proof.
  split; [reflexivity|].
  destruct (start_emulator_records_snapshot "groq" "gemma2-9b-it" "GROQ_API_KEY" _
              fresh_world fresh_world eq_refl) as (success & w1 & Hrun & Hiff & _).
  exists success, w1. split; [exact Hrun | exact Hiff].
Defined.

(** X6. When the configuration is an object, a successful [stop_emulator]
    clears the activation flag and rewrites [emulatorActive] to false and
    nothing else: every other key, [lastConfig] included, is served as
    before, so [get_last_config] still returns the last snapshot. A failed
    one leaves the flag as it was. *)
Theorem stop_emulator_keeps_snapshot (current : gmap string pyval) (w w0 : world) :
  get_config w = (Ok (PDict current), w0) ->
  exists (success : bool) (w1 : world),
    stop_emulator w = (Ok success, w1)
    /\ (success = true <-> write_faults (sys w) !! CONFIG_PATH = None)
    /\ (success = false -> emulator_active (cfg w1) = emulator_active (cfg w))
    /\ (success = true ->
        emulator_active (cfg w1) = false
        /\ get_last_config w1 = (Ok (dict_get current "lastConfig"), w1)
        /\ exists merged,
             get_config w1 = (Ok (PDict merged), w1)
             /\ merged !! "emulatorActive" = Some (PBool false)
             /\ forall k, k <> "emulatorActive" -> merged !! k = current !! k).
Proof.
  intros Hget.
  pose proof (get_config_frame _ _ _ Hget) as (Hsys & _ & _ & _ & _ & Hactive & _).
  set (updates := mk_dict [ ("emulatorActive", PBool false) ]).
  pose proof (update_config_run updates current w w0 Hget) as Hrun.
  assert (Hstop : forall ok wu, update_config updates w = (Ok ok, wu) ->
            stop_emulator w
            = (Ok ok, if ok then with_cfg (put_emulator_active false) wu else wu)).
  { intros ok wu Hupd. unfold stop_emulator. fold updates.
    rewrite (bind_ok _ _ _ _ _ Hupd). destruct ok; reflexivity. }
  assert (Hother : forall k, k <> "emulatorActive" -> (updates ∪ current) !! k = current !! k).
  { intros k Hk. apply lookup_union_r. subst updates. unfold mk_dict.
    cbn [list_to_map foldr]. rewrite lookup_insert_ne by (apply not_eq_sym; assumption).
    apply lookup_empty. }
  rewrite <- Hsys.
  destruct (write_faults (sys w0) !! CONFIG_PATH) as [[|]|] eqn:Hfault; cbn zeta in Hrun;
    eexists _, _; (split; [exact (Hstop _ _ Hrun)|]);
    (split; [split; intros; congruence|]).
  1, 2: split; [intros _; exact Hactive | intros H; discriminate H].
  split; [intros H; discriminate H|].
  intros _.
  split; [reflexivity|].
  split.
  { erewrite get_last_config_hit; cbn; [|reflexivity | apply lookup_insert_eq | reflexivity].
    unfold dict_get. rewrite Hother by discriminate. reflexivity. }
  exists (updates ∪ current).
  split; [eapply get_config_hit; cbn; [reflexivity | apply lookup_insert_eq | reflexivity]|].
  split; [apply lookup_union_Some_l; reflexivity | exact Hother].
Qed.

Lemma stop_emulator_keeps_snapshot_witness :
  get_config active_world = (Ok get_default_config, active_world)
  /\ exists success w1,
       stop_emulator active_world = (Ok success, w1)
       /\ (success = true -> emulator_active (cfg w1) = false).
Proof.
  split; [reflexivity|].
  destruct (stop_emulator_keeps_snapshot _ active_world active_world eq_refl)
    as (success & w1 & Hrun & _ & _ & Hok).
  exists success, w1. split; [exact Hrun|]. intros Hs. exact (proj1 (Hok Hs)).
Defined.

(** X7. Activation survives a restart, and only the exact value [True]
    activates. A process started on a system whose configuration file holds
    an object is active exactly when [emulatorActive] is the boolean true
    (a number, a string or a missing key leave it inactive); so a process
    restarted after a successful [start_emulator] is active, and one
    restarted after a successful [stop_emulator] is not. *)
Theorem activation_survives_restart :
  (forall (s : system) (d : gmap string pyval) (t : N),
     files s !! CONFIG_PATH = Some (File (Some (PDict d)) t) ->
     exists w, start_process s = (Ok tt, w)
               /\ (emulator_active (cfg w) = true
                   <-> d !! "emulatorActive" = Some (PBool true)))
  /\ (forall provider model api_key_env_var w w1,
        start_emulator provider model api_key_env_var w = (Ok true, w1) ->
        exists w2, start_process (sys w1) = (Ok tt, w2) /\ emulator_active (cfg w2) = true)
  /\ (forall w w1,
        stop_emulator w = (Ok true, w1) ->
        exists w2, start_process (sys w1) = (Ok tt, w2) /\ emulator_active (cfg w2) = false).
Proof.
  split; [|split].
  - intros s d t Hf.
    destruct (start_process_run s d t Hf) as (w & Hrun & Hactive & _).
    exists w. split; [exact Hrun|]. rewrite Hactive.
    destruct (d !! "emulatorActive") as [[| [] | | | | |]|]; split; congruence.
  - intros provider model api_key_env_var w w1 Hstart.
    apply start_emulator_inv in Hstart as (w0 & Hupd & ->).
    apply update_config_success in Hupd as (current & wg & t' & _ & Hfile & _).
    destruct (start_process_run _ _ _ Hfile) as (w2 & Hrun & Hactive & _).
    exists w2. split; [exact Hrun|]. rewrite Hactive.
    rewrite (lookup_union_Some_l _ _ _ (PBool true)); reflexivity.
  - intros w w1 Hstop.
    apply stop_emulator_inv in Hstop as (w0 & Hupd & ->).
    apply update_config_success in Hupd as (current & wg & t' & _ & Hfile & _).
    destruct (start_process_run _ _ _ Hfile) as (w2 & Hrun & Hactive & _).
    exists w2. split; [exact Hrun|]. rewrite Hactive.
    rewrite (lookup_union_Some_l _ _ _ (PBool false)); reflexivity.
Qed.

Lemma activation_survives_restart_witness :
  let s := sys (external_write CONFIG_PATH
                  (File (Some (PDict (mk_dict [ ("emulatorActive", PInt 1) ]))) 3%N)
                  fresh_world) in
  exists w, start_process s = (Ok tt, w) /\ emulator_active (cfg w) = false.
Proof.
  intros s.
  destruct (proj1 activation_survives_restart s (mk_dict [ ("emulatorActive", PInt 1) ]) 3%N
              ltac:(vm_compute; reflexivity)) as (w & Hrun & Hiff).
  exists w. split; [exact Hrun|].
  destruct (emulator_active (cfg w)); [|reflexivity].
  destruct Hiff as [Hiff _]. specialize (Hiff eq_refl). vm_compute in Hiff. discriminate Hiff.
Defined.

(** X8. What [update_config] saves is what a restarted process reads: after
    a successful [update_config], a process started on the resulting
    system gets from [get_config] the merged document, the update over the
    configuration read before. *)
Theorem update_config_survives_restart (updates : gmap string pyval) (w w1 : world) :
  update_config updates w = (Ok true, w1) ->
  exists (current : gmap string pyval) (w0 w2 : world),
    get_config w = (Ok (PDict current), w0)
    /\ start_process (sys w1) = (Ok tt, w2)
    /\ get_config w2 = (Ok (PDict (updates ∪ current)), w2).
Proof.
  intros Hupd.
  apply update_config_success in Hupd as (current & w0 & t & Hget & Hfile & _).
  destruct (start_process_run _ _ _ Hfile) as (w2 & Hrun & _ & Hc & Hm & _ & _ & _ & _ & Hsys).
  exists current, w0, w2. split; [exact Hget|]. split; [exact Hrun|].
  apply (get_config_hit w2 _ (File (Some (PDict (updates ∪ current))) t));
    [exact Hc | rewrite Hsys; exact Hfile | exact Hm].
Qed.

Lemma update_config_survives_restart_witness :
  let r := update_config (mk_dict [ ("port", PInt 8080) ]) fresh_world in
  r = (Ok true, snd r)
  /\ exists w2, start_process (sys (snd r)) = (Ok tt, w2).
Proof.
  intros r.
  assert (H : r = (Ok true, snd r)) by (apply run_pair; vm_compute; reflexivity).
  split; [exact H|].
  destruct (update_config_survives_restart _ fresh_world (snd r) H)
    as (current & w0 & w2 & _ & Hrun & _).
  exists w2. exact Hrun.
Defined.

(* --------------------------------------------------------------------- *)
(** ** The presets store, continued *)
(* --------------------------------------------------------------------- *)

Lemma without_id_filter (config_id : string) (l : list pyval) :
  Forall (fun c => is_dict c = true) l ->
  without_id config_id l = Ok (List.filter (fun c => negb (preset_has_id config_id c)) l).
Proof.
  induction l as [|c l IH]; intros Hall; [reflexivity|].
  apply Forall_cons in Hall as [Hc Hl]. cbn.
  destruct c; try discriminate Hc. rewrite (IH Hl). cbn.
  destruct (eq_str (dict_get d "id") config_id); reflexivity.
Qed.

Lemma find_by_id_none_filter (config_id : string) (l : list pyval) (base : nat) :
  find_by_id config_id l base = Ok None ->
  Forall (fun c => is_dict c = true) l
  /\ List.filter (fun c => negb (preset_has_id config_id c)) l = l.
Proof.
  revert base. induction l as [|c l IH]; intros base; cbn; [auto|].
  destruct c; try discriminate.
  destruct (eq_str (dict_get d "id") config_id) eqn:Heq; [discriminate|].
  intros H. destruct (IH _ H) as [Hall Hfilter]. cbn. rewrite Heq. cbn.
  split; [constructor; [reflexivity | exact Hall] | rewrite Hfilter; reflexivity].
Qed.

Lemma find_by_id_some_in (config_id : string) (l : list pyval) (base i : nat)
    (d : gmap string pyval) :
  find_by_id config_id l base = Ok (Some (i, d)) ->
  In (PDict d) l /\ eq_str (dict_get d "id") config_id = true.
Proof.
  intros H. destruct (find_by_id_index _ _ _ _ _ H) as (_ & Hl & Hid).
  split; [|exact Hid]. apply list_elem_of_In. eapply list_elem_of_lookup_2, Hl.
Qed.

(** [delete_saved_config] once the list is known, up to the save. *)
Lemma delete_saved_config_run (config_id : string) (w w0 : world) (configs : nat)
    (l kept : list pyval) :
  get_saved_configs w = (Ok configs, w0) ->
  default [] (heap w0 !! configs) = l ->
  without_id config_id l = Ok kept ->
  delete_saved_config config_id w
  = if Nat.eqb (List.length kept) (List.length l)
    then (Ok false, with_heap (fun h => (h ++ [kept])%list) w0)
    else save_saved_configs (List.length (heap w0))
           (with_heap (fun h => (h ++ [kept])%list) w0).
Proof.
  intros Hget Hl Hkept. unfold delete_saved_config.
  rewrite (bind_ok _ _ _ _ _ Hget).
  unfold read_list at 1. unfold gets at 1. unfold bind at 1. rewrite Hl.
  unfold lift at 1. unfold bind at 1. rewrite Hkept.
  unfold alloc_list at 1. unfold bind at 1.
  destruct (Nat.eqb (List.length kept) (List.length l)); reflexivity.
Qed.

(** The list that [list_presets] shows, seen from the reference that
    [get_saved_configs] returned. *)
Lemma list_presets_spec (w : world) :
  heap_ok w ->
  exists (configs : nat) (w0 : world) (l : list pyval),
    get_saved_configs w = (Ok configs, w0)
    /\ list_presets w = (Ok l, w0)
    /\ heap w0 !! configs = Some l
    /\ sys w0 = sys w
    /\ heap_ok w0
    /\ (cached_saved_configs (cfg w0) = Some configs
        \/ (l = [] /\ cached_saved_configs (cfg w0) = None /\ presets_document w0 = None)).
Proof.
  intros Hok.
  destruct (get_saved_configs_spec w Hok) as (configs & w0 & l & Hget & Hl & Hsys & Hok0 & Hcase).
  exists configs, w0, l. split; [exact Hget|]. split.
  { unfold list_presets. rewrite (bind_ok _ _ _ _ _ Hget).
    unfold read_list, gets. rewrite Hl. reflexivity. }
  split; [exact Hl|]. split; [exact Hsys|]. split; [exact Hok0|].
  destruct Hcase as [Hc | (Hnil & Hc0 & _ & Hdoc)]; [left; exact Hc|].
  right. split; [exact Hnil|]. split; [exact Hc0|].
  unfold presets_document in *. rewrite Hsys. exact Hdoc.
Qed.

(** Listing again after objects were added to the heap. *)
Lemma list_presets_after_alloc (w0 : world) (configs : nat) (l extra : list pyval) :
  heap w0 !! configs = Some l ->
  cached_saved_configs (cfg w0) = Some configs
  \/ (l = [] /\ cached_saved_configs (cfg w0) = None /\ presets_document w0 = None) ->
  fst (list_presets (with_heap (fun h => (h ++ [extra])%list) w0)) = Ok l.
Proof.
  intros Hl [Hc | (-> & Hc & Hdoc)].
  - rewrite (list_presets_cached _ configs l); [reflexivity | exact Hc |].
    cbn. rewrite lookup_app_l by (eapply lookup_lt_Some, Hl). exact Hl.
  - unfold list_presets.
    rewrite (bind_ok _ _ _ _ _
               (get_saved_configs_new (with_heap (fun h => (h ++ [extra])%list) w0) Hc Hdoc)).
    unfold read_list, gets. cbn.
    rewrite lookup_app_r by reflexivity. rewrite Nat.sub_diag. reflexivity.
Qed.

(** X9. Deleting an id that no stored preset has returns [False], writes
    nothing, and leaves the presets listed as they were. *)
Theorem delete_unknown_id_changes_nothing (config_id : string) (w w0 : world)
    (l : list pyval) :
  heap_ok w ->
  list_presets w = (Ok l, w0) ->
  find_by_id config_id l 0 = Ok None ->
  exists w1,
    delete_saved_config config_id w = (Ok false, w1)
    /\ sys w1 = sys w
    /\ fst (list_presets w1) = Ok l.
Proof.
  intros Hok Hlist Hfind.
  destruct (list_presets_spec w Hok) as (configs & w0' & l' & Hget & Hlist' & Hl & Hsys & _ & Hcase).
  rewrite Hlist' in Hlist. injection Hlist as -> ->.
  destruct (find_by_id_none_filter _ _ _ Hfind) as [Hall Hsame].
  pose proof (without_id_filter config_id l Hall) as Hkept. rewrite Hsame in Hkept.
  assert (Hdef : default [] (heap w0 !! configs) = l) by (rewrite Hl; reflexivity).
  rewrite (delete_saved_config_run config_id w w0 configs l l Hget Hdef Hkept).
  rewrite Nat.eqb_refl. eexists. split; [reflexivity|]. split; [exact Hsys|].
  exact (list_presets_after_alloc w0 configs l l Hl Hcase).
Qed.

Lemma delete_unknown_id_changes_nothing_witness :
  let r := list_presets one_preset_world in
  r = (Ok [sample_preset], snd r)
  /\ exists w1, delete_saved_config "cfg-0-zzzzzz" one_preset_world = (Ok false, w1).
Proof.
  intros r.
  assert (H : r = (Ok [sample_preset], snd r)) by (apply run_pair; vm_compute; reflexivity).
  split; [exact H|].
  destruct (delete_unknown_id_changes_nothing "cfg-0-zzzzzz" one_preset_world (snd r)
              [sample_preset] (heap_ok_nothing_cached one_preset_world eq_refl) H eq_refl)
    as (w1 & Hdel & _).
  exists w1. exact Hdel.
Defined.

(** X10. [delete_saved_config] changes the list in memory only when the
    save succeeds: when the write fails it returns [False] and the presets
    listed afterwards are the old ones, the preset to delete included. *)
Theorem failed_delete_keeps_list (config_id : string) (w w0 : world) (l : list pyval) :
  heap_ok w ->
  list_presets w = (Ok l, w0) ->
  Forall (fun c => is_dict c = true) l ->
  is_Some (write_faults (sys w) !! SAVED_CONFIGS_PATH) ->
  exists w1,
    delete_saved_config config_id w = (Ok false, w1)
    /\ fst (list_presets w1) = Ok l.
Proof.
  intros Hok Hlist Hall [fault Hfault].
  destruct (list_presets_spec w Hok) as (configs & w0' & l' & Hget & Hlist' & Hl & Hsys & _ & Hcase).
  rewrite Hlist' in Hlist. injection Hlist as -> ->.
  pose proof (without_id_filter config_id l Hall) as Hkept.
  set (kept := List.filter _ l) in Hkept.
  assert (Hdef : default [] (heap w0 !! configs) = l) by (rewrite Hl; reflexivity).
  rewrite (delete_saved_config_run config_id w w0 configs l kept Hget Hdef Hkept).
  destruct (Nat.eqb (List.length kept) (List.length l)).
  - eexists. split; [reflexivity|].
    exact (list_presets_after_alloc w0 configs l kept Hl Hcase).
  - rewrite save_saved_configs_run. cbn [sys with_heap].
    rewrite Hsys, Hfault.
    destruct fault; cbn zeta; eexists; (split; [reflexivity|]).
    + exact (list_presets_after_alloc w0 configs l kept Hl Hcase).
    + destruct Hcase as [Hc | (-> & Hc & Hdoc)].
      * rewrite (list_presets_cached _ configs l); [reflexivity | exact Hc |].
        cbn. rewrite lookup_app_l by (eapply lookup_lt_Some, Hl). exact Hl.
      * unfold list_presets.
        erewrite bind_ok; [|apply get_saved_configs_new; [exact Hc|]].
        -- unfold read_list, gets. cbn.
           rewrite lookup_app_r by reflexivity. rewrite Nat.sub_diag. reflexivity.
        -- unfold presets_document. cbn. rewrite lookup_insert_eq. reflexivity.
Qed.

Lemma failed_delete_keeps_list_witness :
  let r := list_presets one_preset_read_only_world in
  r = (Ok [sample_preset], snd r)
  /\ exists w1,
       delete_saved_config "cfg-1699999999999-abc123" one_preset_read_only_world
       = (Ok false, w1)
       /\ fst (list_presets w1) = Ok [sample_preset].
Proof.
  intros r.
  assert (H : r = (Ok [sample_preset], snd r)) by (apply run_pair; vm_compute; reflexivity).
  split; [exact H|].
  apply (failed_delete_keeps_list "cfg-1699999999999-abc123" one_preset_read_only_world
           (snd r) [sample_preset]
           (heap_ok_nothing_cached one_preset_read_only_world eq_refl) H).
  - repeat constructor.
  - exists OpenFails. vm_compute. reflexivity.
Defined.

(** X11. When the write succeeds, [delete_saved_config] of an id that some
    stored preset has returns [True]; the presets listed afterwards, and
    the list in the file, are the old presets without those that have the
    id, the others in their old order. *)
Theorem delete_removes_exactly_the_id (config_id : string) (w w0 : world) (l : list pyval) :
  heap_ok w ->
  list_presets w = (Ok l, w0) ->
  Forall (fun c => is_dict c = true) l ->
  Exists (fun c => preset_has_id config_id c = true) l ->
  write_faults (sys w) !! SAVED_CONFIGS_PATH = None ->
  exists w1,
    delete_saved_config config_id w = (Ok true, w1)
    /\ list_presets w1
       = (Ok (List.filter (fun c => negb (preset_has_id config_id c)) l), w1)
    /\ presets_document w1
       = Some (List.filter (fun c => negb (preset_has_id config_id c)) l).
Proof.
  intros Hok Hlist Hall Hex Hfault.
  destruct (list_presets_spec w Hok) as (configs & w0' & l' & Hget & Hlist' & Hl & Hsys & _ & _).
  rewrite Hlist' in Hlist. injection Hlist as -> ->.
  pose proof (without_id_filter config_id l Hall) as Hkept.
  set (kept := List.filter _ l) in *.
  assert (Hdef : default [] (heap w0 !! configs) = l) by (rewrite Hl; reflexivity).
  rewrite (delete_saved_config_run config_id w w0 configs l kept Hget Hdef Hkept).
  assert (Hshort : (List.length kept < List.length l)%nat).
  { apply Exists_exists in Hex as (c & Hin & Hc).
    destruct c; try discriminate Hc.
    apply list_elem_of_In in Hin.
    exact (without_id_shorter config_id l kept d Hkept Hin Hc). }
  destruct (Nat.eqb_spec (List.length kept) (List.length l)) as [Heq|_]; [lia|].
  rewrite save_saved_configs_run. cbn [sys with_heap]. rewrite Hsys, Hfault. cbn zeta.
  assert (Hlook : forall A (h : list A) (x : A), (h ++ [x])%list !! List.length h = Some x).
  { intros A h x. rewrite lookup_app_r by reflexivity. rewrite Nat.sub_diag. reflexivity. }
  eexists. split; [reflexivity|]. split.
  - apply (list_presets_cached _ (List.length (heap w0))); cbn; [reflexivity | apply Hlook].
  - unfold presets_document. cbn. rewrite lookup_insert_eq, Hlook. reflexivity.
Qed.

Lemma delete_removes_exactly_the_id_witness :
  let r := list_presets one_preset_world in
  r = (Ok [sample_preset], snd r)
  /\ exists w1,
       delete_saved_config "cfg-1699999999999-abc123" one_preset_world = (Ok true, w1)
       /\ list_presets w1 = (Ok [], w1).
Proof.
  intros r.
  assert (H : r = (Ok [sample_preset], snd r)) by (apply run_pair; vm_compute; reflexivity).
  split; [exact H|].
  destruct (delete_removes_exactly_the_id "cfg-1699999999999-abc123" one_preset_world
              (snd r) [sample_preset] (heap_ok_nothing_cached one_preset_world eq_refl) H)
    as (w1 & Hdel & Hlist & _).
  - repeat constructor.
  - constructor. vm_compute. reflexivity.
  - vm_compute. reflexivity.
  - exists w1. split; [exact Hdel | exact Hlist].
Defined.

(** X12. What [update_saved_config] does to the preset it finds under the
    id, for any arguments: [name], [provider] and [model] are overwritten by
    an argument that is given and not empty, [apiKeyEnvVar] by an argument
    that is given (the empty string included), and no other entry changes.
    The change is made to the list in memory before the save: the presets
    listed afterwards show it whether or not the call returned [True],
    and the call returns [True] exactly when the file could be written. *)
Theorem update_saved_config_overwrites
    (config_id : string) (new_name provider model api_key_env_var : option string)
    (w w1 : world) (l : list pyval) (i : nat) (d : gmap string pyval) :
  list_presets w = (Ok l, w1) ->
  find_by_id config_id l 0 = Ok (Some (i, d)) ->
  exists (ok : bool) (w2 : world) (d' : gmap string pyval),
    update_saved_config config_id new_name provider model api_key_env_var w = (Ok ok, w2)
    /\ (ok = true <-> write_faults (sys w) !! SAVED_CONFIGS_PATH = None)
    /\ d' !! "name" = overwritten false new_name (d !! "name")
    /\ d' !! "provider" = overwritten false provider (d !! "provider")
    /\ d' !! "model" = overwritten false model (d !! "model")
    /\ d' !! "apiKeyEnvVar" = overwritten true api_key_env_var (d !! "apiKeyEnvVar")
    /\ (forall k, k <> "name" -> k <> "provider" -> k <> "model" -> k <> "apiKeyEnvVar" ->
          d' !! k = d !! k)
    /\ list_presets w2 = (Ok (<[i := PDict d']> l), w2)
    /\ (ok = true -> presets_document w2 = Some (<[i := PDict d']> l)).
Proof.
  intros Hlist Hfind.
  destruct (list_presets_inv _ _ _ Hlist) as (configs & Hget & Hl).
  assert (Hread : read_list configs w1 = (Ok l, w1)).
  { unfold read_list, gets. rewrite Hl. reflexivity. }
  set (d' := assign_if_not_none "apiKeyEnvVar" api_key_env_var
               (assign_if_truthy "model" model
                  (assign_if_truthy "provider" provider
                     (assign_if_truthy "name" new_name d)))).
  destruct (find_by_id_index _ _ _ _ _ Hfind) as (_ & Hi & Hid).
  rewrite Nat.sub_0_r in Hi.
  assert (Hheap : heap w1 !! configs = Some l).
  { destruct (heap w1 !! configs) as [l'|]; cbn in Hl; subst l; [reflexivity|discriminate Hi]. }
  destruct (get_saved_configs_cases _ _ _ Hget) as (Hsys & Hcase).
  assert (Hcached : cached_saved_configs (cfg w1) = Some configs).
  { destruct Hcase as [Hc | (Hnil & _)]; [exact Hc|].
    rewrite Hheap in Hnil. injection Hnil as ->. discriminate Hi. }
  pose (w1' := with_heap (fun h => <[configs := <[i := PDict d']> l]> h) w1).
  destruct (save_saved_configs_spec configs w1')
    as (ok & w2 & Hsave & Hheap2 & Hiff & Htrue & Hfalse).
  assert (Hlook2 : heap w2 !! configs = Some (<[i := PDict d']> l)).
  { rewrite Hheap2. subst w1'. cbn. apply list_lookup_insert_eq.
    eapply lookup_lt_Some, Hheap. }
  assert (Hcached2 : cached_saved_configs (cfg w2) = Some configs).
  { destruct ok; [apply Htrue; reflexivity | rewrite Hfalse by reflexivity; exact Hcached]. }
  assert (Hkeep : forall k (v : option string) keep (m : gmap string pyval) key,
            k <> key ->
            (match v with
             | Some s => if keep || truthy (PStr s) then <[key := PStr s]> m else m
             | None => m
             end) !! k = m !! k).
  { intros k [s|] keep m key Hk; [|reflexivity].
    destruct (keep || truthy (PStr s)); [|reflexivity].
    apply lookup_insert_ne. apply not_eq_sym. exact Hk. }
  assert (Hset : forall (v : option string) keep (m : gmap string pyval) key,
            (match v with
             | Some s => if keep || truthy (PStr s) then <[key := PStr s]> m else m
             | None => m
             end) !! key = overwritten keep v (m !! key)).
  { intros [s|] keep m key; [|reflexivity]. unfold overwritten.
    destruct (keep || truthy (PStr s)); [apply lookup_insert_eq | reflexivity]. }
  assert (Hnn : forall key v m,
            assign_if_not_none key v m
            = match v with
              | Some s => if true || truthy (PStr s) then <[key := PStr s]> m else m
              | None => m
              end).
  { intros key [s|] m; reflexivity. }
  assert (Htr : forall key v m,
            assign_if_truthy key v m
            = match v with
              | Some s => if false || truthy (PStr s) then <[key := PStr s]> m else m
              | None => m
              end).
  { intros key [s|] m; reflexivity. }
  exists ok, w2, d'. split; [|split; [|split; [|split; [|split; [|split; [|split; [|split]]]]]]].
  - unfold update_saved_config.
    rewrite (bind_ok _ _ _ _ _ Hget), (bind_ok _ _ _ _ _ Hread).
    unfold lift at 1. unfold bind at 1. rewrite Hfind.
    unfold bind at 1. unfold write_list, modify. exact Hsave.
  - rewrite Hiff. subst w1'. cbn. rewrite Hsys. reflexivity.
  - subst d'. rewrite Hnn, !Htr.
    rewrite !Hkeep by discriminate. apply Hset.
  - subst d'. rewrite Hnn, !Htr.
    rewrite !Hkeep by discriminate. rewrite Hset. rewrite Hkeep by discriminate. reflexivity.
  - subst d'. rewrite Hnn, !Htr.
    rewrite Hkeep by discriminate. rewrite Hset. rewrite !Hkeep by discriminate. reflexivity.
  - subst d'. rewrite Hnn, !Htr.
    rewrite Hset. rewrite !Hkeep by discriminate. reflexivity.
  - intros k H1 H2 H3 H4. subst d'. rewrite Hnn, !Htr.
    rewrite !Hkeep by assumption. reflexivity.
  - apply (list_presets_cached _ configs); assumption.
  - intros ->. destruct (Htrue eq_refl) as [_ Hdoc]. rewrite Hdoc.
    subst w1'. cbn. rewrite list_lookup_insert_eq by (eapply lookup_lt_Some, Hheap).
    reflexivity.
Qed.

Lemma update_saved_config_overwrites_witness :
  let r := list_presets one_preset_read_only_world in
  r = (Ok [sample_preset], snd r)
  /\ exists (w2 : world) (d' : gmap string pyval),
       update_saved_config "cfg-1699999999999-abc123" (Some "") (Some "openai") None None
         one_preset_read_only_world = (Ok false, w2)
       /\ d' !! "name" = Some (PStr "work")
       /\ d' !! "provider" = Some (PStr "openai")
       /\ list_presets w2 = (Ok [PDict d'], w2).
Proof.
  intros r.
  assert (H : r = (Ok [sample_preset], snd r)) by (apply run_pair; vm_compute; reflexivity).
  split; [exact H|].
  destruct (update_saved_config_overwrites "cfg-1699999999999-abc123"
              (Some "") (Some "openai") None None one_preset_read_only_world (snd r)
              [sample_preset] 0 _ H eq_refl)
    as (ok & w2 & d' & Hupd & Hiff & Hname & Hprov & _ & _ & _ & Hlist & _).
  exists w2, d'. split; [|split; [exact Hname | split; [exact Hprov | exact Hlist]]].
  destruct ok; [|exact Hupd].
  destruct Hiff as [Hiff _]. specialize (Hiff eq_refl). vm_compute in Hiff. discriminate Hiff.
Defined.

(** The globals after [start_process], however the start ends: nothing of
    the presets or the models is cached, and the system is untouched. *)
Lemma start_process_frame (s : system) (r : outcome unit) (w : world) :
  start_process s = (r, w) ->
  sys w = s
  /\ cached_saved_configs (cfg w) = None
  /\ cached_models (cfg w) = None
  /\ heap w = [].
Proof.
  unfold start_process, init_emulator_state.
  destruct (get_config_total (blank_process s)) as (v & w0 & Hget).
  destruct (get_config_frame _ _ _ Hget) as (Hsys & _ & Hheap & _ & _ & _ & Hmodels & Hsaved).
  unfold bind at 1. unfold bind at 1. rewrite Hget.
  unfold lift at 1. unfold bind at 1.
  destruct (py_get_default v "emulatorActive" (PBool false)) as [flag|e];
    intros [= <- <-]; cbn; auto.
Qed.

(** X13. A preset that [add_saved_config] returns has been appended to the
    stored presets and written to the file: the presets listed afterwards
    are the old ones followed by the new one, and a process restarted on
    the same files lists exactly the same presets. *)
Theorem added_preset_survives_restart (name provider model api_key_env_var : string)
    (w w1 : world) (preset : pyval) :
  heap_ok w ->
  add_saved_config name provider model api_key_env_var w = (Ok (Some preset), w1) ->
  exists (l : list pyval),
    fst (list_presets w) = Ok l
    /\ list_presets w1 = (Ok (l ++ [preset])%list, w1)
    /\ presets_document w1 = Some (l ++ [preset])%list
    /\ (forall r w2, start_process (sys w1) = (r, w2) ->
          fst (list_presets w2) = Ok (l ++ [preset])%list).
Proof.
  intros Hok Hadd.
  destruct (list_presets_spec w Hok) as (configs & w0 & l & Hget & Hlist & Hl & _ & _ & _).
  destruct (add_saved_config_run name provider model api_key_env_var _ _ _ _ Hget Hl)
    as (new_id & _ & Hrun).
  rewrite Hrun in Hadd. clear Hrun.
  set (p := new_preset new_id name provider model api_key_env_var) in *.
  set (wa := with_heap _ (after_generate_id w0)) in Hadd.
  destruct (save_saved_configs_spec configs wa) as (ok & ws & Hsave & Hheap & _ & Htrue & _).
  rewrite (bind_ok _ _ _ _ _ Hsave) in Hadd. unfold ret in Hadd.
  destruct ok; [|discriminate Hadd]. injection Hadd as <- <-.
  destruct (Htrue eq_refl) as [Hcached Hdoc].
  assert (Hlen : (configs < List.length (heap w0))%nat) by (eapply lookup_lt_Some, Hl).
  assert (Hlook : heap wa !! configs = Some (l ++ [p])%list).
  { subst wa. cbn. apply list_lookup_insert_eq. exact Hlen. }
  rewrite Hlook in Hdoc. cbn [default] in Hdoc.
  exists l. split; [rewrite Hlist; reflexivity|]. split; [|split].
  - apply (list_presets_cached _ configs); [exact Hcached|]. rewrite Hheap. exact Hlook.
  - exact Hdoc.
  - intros r w2 Hstart.
    destruct (start_process_frame _ _ _ Hstart) as (Hsys & Hnone & _ & _).
    assert (Hdoc2 : presets_document w2 = Some (l ++ [p])%list).
    { unfold presets_document in *. rewrite Hsys. exact Hdoc. }
    unfold list_presets.
    rewrite (bind_ok _ _ _ _ _ (get_saved_configs_load _ _ Hnone Hdoc2)).
    unfold read_list, gets. cbn.
    rewrite lookup_app_r by reflexivity. rewrite Nat.sub_diag. reflexivity.
Qed.

Lemma added_preset_survives_restart_witness :
  let r := add_saved_config "home" "openai" "gpt-4o" "OPENAI_API_KEY" one_preset_world in
  exists (preset : pyval) (l : list pyval),
    fst r = Ok (Some preset)
    /\ fst (list_presets one_preset_world) = Ok l
    /\ list_presets (snd r) = (Ok (l ++ [preset])%list, snd r).
Proof.
  intros r.
  destruct (fst r) as [[preset|]|] eqn:Hfst;
    [| exfalso; vm_compute in Hfst; discriminate Hfst
     | exfalso; vm_compute in Hfst; discriminate Hfst].
  assert (H : r = (Ok (Some preset), snd r)) by (apply run_pair; exact Hfst).
  destruct (added_preset_survives_restart "home" "openai" "gpt-4o" "OPENAI_API_KEY"
              one_preset_world (snd r) preset
              (heap_ok_nothing_cached one_preset_world eq_refl) H)
    as (l & Hl & Hlist & _).
  exists preset, l. split; [reflexivity|]. split; [exact Hl | exact Hlist].
Defined.

(* --------------------------------------------------------------------- *)
(** ** The models cache, continued *)
(* --------------------------------------------------------------------- *)

(** What a restarted process gets from [get_models_cache]: the document
    in the file. *)
Lemma get_models_cache_after_restart (s : system) (doc : pyval) (r : outcome unit)
    (w : world) :
  start_process s = (r, w) ->
  models_document (blank_process s) = Some doc ->
  fst (get_models_cache w) = Ok doc.
Proof.
  intros Hstart Hdoc.
  destruct (start_process_frame _ _ _ Hstart) as (Hsys & _ & Hnone & _).
  erewrite get_models_cache_load; [reflexivity | exact Hnone |].
  unfold models_document in *. rewrite Hsys. exact Hdoc.
Qed.

(** X14. [save_models_cache] returns [True] exactly when the file can be
    written. The document it then writes holds the models under [models]
    and the time of the call under [lastUpdated], and a process restarted on
    the same files gets that very document from [get_models_cache]. When
    the write fails the document cached in memory is left as it was. *)
Theorem save_models_cache_round_trip (models : list pyval) (w : world) :
  exists (ok : bool) (w1 : world),
    save_models_cache models w = (Ok ok, w1)
    /\ (ok = true <-> write_faults (sys w) !! MODELS_CACHE_PATH = None)
    /\ (ok = true ->
        exists c,
          cached_models (cfg w1) = Some c
          /\ py_get c "models" = Ok (PList models)
          /\ py_get c "lastUpdated"
             = Ok (PInt (Z.of_N (clock (sys w) (clock_reads (sys w)))))
          /\ forall r w2, start_process (sys w1) = (r, w2) ->
               fst (get_models_cache w2) = Ok c)
    /\ (ok = false -> cached_models (cfg w1) = cached_models (cfg w)).
Proof.
  unfold save_models_cache. run.
  destruct (write_faults (sys w) !! MODELS_CACHE_PATH) as [[|]|] eqn:Hfault; cbn;
    eexists _, _; (split; [reflexivity|]);
    (split; [split; intros; congruence|]); split; intros; try congruence; try reflexivity.
  eexists. split; [reflexivity|]. split; [reflexivity|]. split; [reflexivity|].
  intros r w2 Hstart.
  apply (get_models_cache_after_restart _ _ _ _ Hstart).
  unfold models_document. cbn. rewrite lookup_insert_eq. reflexivity.
Qed.

(* --------------------------------------------------------------------- *)
(** ** The client: keys, calls and connectivity *)
(* --------------------------------------------------------------------- *)

(** The ten providers of [SUPPORTED_PROVIDERS]. *)
Lemma supported_provider_cases (p : string) (info : string * string) :
  SUPPORTED_PROVIDERS !! p = Some info ->
  In p ["openai"; "anthropic"; "groq"; "mistral"; "google"; "cohere"; "together_ai";
        "openrouter"; "deepseek"; "cerebras"].
Proof.
  intros H. unfold SUPPORTED_PROVIDERS in H.
  apply elem_of_list_to_map_2 in H. apply list_elem_of_In in H.
  cbn in H.
  repeat (destruct H as [H|H]; [injection H as <- _; cbn; tauto|]).
  destruct H.
Qed.

(** The catalog and [SUPPORTED_PROVIDERS] name the same providers, with the
    same environment variables. *)
Lemma catalog_lookup_supported (p : string) :
  (fun info => (provider_name info, provider_env_var info)) <$> catalog_lookup p
  = SUPPORTED_PROVIDERS !! p.
Proof.
  destruct (SUPPORTED_PROVIDERS !! p) as [info|] eqn:Hs.
  - pose proof (supported_provider_cases p info Hs) as Hin. cbn in Hin.
    repeat (destruct Hin as [<-|Hin]; [rewrite <- Hs; vm_compute; reflexivity|]).
    destruct Hin.
  - unfold catalog_lookup, PROVIDER_CATALOG. cbn [List.find fst].
    repeat match goal with
           | |- context [String.eqb ?a p] =>
               destruct (String.eqb_spec a p) as [<-|_];
               [vm_compute in Hs; discriminate Hs|]
           end.
    reflexivity.
Qed.

(** Every provider of the catalog has a first model, with an id that is
    not empty. *)
Lemma catalog_first_model (p : string) (info : provider_info) :
  catalog_lookup p = Some info ->
  exists m rest, provider_models info = m :: rest /\ truthy (PStr (fst m)) = true.
Proof.
  unfold catalog_lookup, PROVIDER_CATALOG. cbn [List.find fst].
  repeat match goal with
         | |- context [String.eqb ?a p] =>
             destruct (String.eqb_spec a p) as [<-|_];
             [intros [= <-]; eexists _, _; split; reflexivity|]
         end.
  discriminate.
Qed.

Lemma is_provider_online_latest (p : string) (flag : bool) (w : world)
    (history : list (pyval * bool)) :
  provider_online w = (PStr p, flag) :: history ->
  is_provider_online p w = (Ok flag, w).
Proof.
  intros H. unfold is_provider_online, gets. rewrite H. cbn.
  rewrite String.eqb_refl. reflexivity.
Qed.

Section Client.

Variable completion_within :
  Z -> nat -> completion_options -> (string * option pyval) + response.
Variable completion : nat -> completion_options -> (string * option pyval) + response.
Variable repr_of : pyval -> string.

(** X15. [chat] without a usable API key: when the options carry no key
    and the environment variable of the provider is unset or empty (or the
    provider is not a supported one), [chat] raises [ValueError] with the
    message [No API key found for provider '<provider>'] before anything
    else happens: the provider is not called and no connectivity is
    recorded. For each supported provider the adapter classifies this
    failure as 401 [authentication_error]. *)
Theorem chat_without_key_refuses (messages : list pyval) (options : gmap string pyval)
    (p : string) (w : world) :
  truthy (dict_get options "api_key") = false ->
  dict_get_default options "provider" (PStr "openai") = PStr p ->
  (forall name env_var,
     SUPPORTED_PROVIDERS !! p = Some (name, env_var) ->
     opt_falsy (environ (sys w) !! env_var) = true) ->
  exists e,
    chat completion repr_of messages options w = (Raise e, w)
    /\ e = Exn ValueError ("No API key found for provider '" +:+ p +:+ "'") None
    /\ (is_Some (SUPPORTED_PROVIDERS !! p) ->
        classify_error e = (401, "authentication_error")).
Proof.
  intros Hkey Hprov Henv.
  eexists. split; [|split; [reflexivity|]].
  - unfold chat. rewrite Hkey, Hprov. cbn [negb supported_provider].
    unfold lift at 1. unfold bind at 1. unfold bind at 1.
    destruct (SUPPORTED_PROVIDERS !! p) as [[name env_var]|] eqn:Hs.
    + specialize (Henv name env_var eq_refl).
      unfold gets at 1. unfold bind at 1. unfold ret at 1.
      destruct (environ (sys w) !! env_var) as [key|]; cbn [opt_to_py].
      * cbn [opt_falsy] in Henv. apply negb_true_iff in Henv. rewrite Henv. reflexivity.
      * reflexivity.
    + unfold ret at 1. rewrite Hkey. reflexivity.
  - intros [info Hs].
    pose proof (supported_provider_cases p info Hs) as Hin. cbn in Hin.
    repeat (destruct Hin as [<-|Hin]; [vm_compute; reflexivity|]).
    destruct Hin.
Qed.

(** X16. What one [chat] does. Either it refuses for want of a key and
    changes nothing, or it calls the provider exactly once, with the model
    string of the provider and model of the options, the messages as given
    and a key that is not empty. After such a call the provider is recorded
    online exactly when [chat] returns: a failure of the provider is raised
    on as it came, an answer with an empty text is raised as
    [Backend returned empty response], and both leave the provider
    recorded offline. *)
Theorem chat_calls_once_and_records (messages : list pyval) (options : gmap string pyval)
    (p : string) (w w1 : world) (r : outcome pyval) :
  dict_get_default options "provider" (PStr "openai") = PStr p ->
  chat completion repr_of messages options w = (r, w1) ->
  (w1 = w
   /\ r = Raise (Exn ValueError ("No API key found for provider '" +:+ p +:+ "'") None))
  \/ (exists opts,
        completion_calls w1 = opts :: completion_calls w
        /\ co_model opts
           = get_provider_model_string repr_of (PStr p)
               (dict_get_default options "model" (PStr "gpt-4"))
        /\ co_messages opts = messages
        /\ truthy (co_api_key opts) = true
        /\ is_provider_online p w1
           = (Ok (match r with Ok _ => true | Raise _ => false end), w1)
        /\ r = match completion (List.length (completion_calls w)) opts with
               | inl (message, code) => Raise (Exn GenericException message code)
               | inr response =>
                   if truthy (PStr (response_text response))
                   then Ok (PDict (mk_dict [ ("text", PStr (response_text response));
                                             ("usage", response_usage response) ]))
                   else Raise (Exn ValueError "Backend returned empty response" None)
               end).
Proof.
  intros Hprov. unfold chat. rewrite Hprov.
  set (fetch := if negb (truthy (dict_get options "api_key")) then _ else _).
  assert (Hfetch : exists key, fetch w = (Ok key, w)).
  { subst fetch. destruct (negb (truthy (dict_get options "api_key"))).
    - cbn [supported_provider]. unfold lift at 1. unfold bind at 1.
      destruct (SUPPORTED_PROVIDERS !! p) as [[name env_var]|]; eexists; reflexivity.
    - eexists. reflexivity. }
  destruct Hfetch as (key & Hfetch).
  rewrite (bind_ok _ _ _ _ _ Hfetch).
  destruct (truthy key) eqn:Hkey; cbn [negb].
  - intros Hrun. right.
    unfold try_except, call_completion in Hrun. unfold bind at 1 in Hrun.
    match type of Hrun with
    | context [completion ?n ?o] =>
        exists o; destruct (completion n o) as [[message code]|response] eqn:Hc
    end.
    + cbn in Hrun. injection Hrun as <- <-.
      split; [reflexivity|]. split; [reflexivity|]. split; [reflexivity|].
      split; [exact Hkey|]. split; [|reflexivity].
      eapply is_provider_online_latest. reflexivity.
    + cbn [mark_online] in Hrun. unfold bind at 1 in Hrun. unfold modify at 1 in Hrun.
      destruct (truthy (PStr (response_text response))) eqn:Htext; cbn [negb] in Hrun.
      * cbn in Hrun. injection Hrun as <- <-.
        split; [reflexivity|]. split; [reflexivity|]. split; [reflexivity|].
        split; [exact Hkey|]. split; [|reflexivity].
        eapply is_provider_online_latest. reflexivity.
      * cbn in Hrun. injection Hrun as <- <-.
        split; [reflexivity|]. split; [reflexivity|]. split; [reflexivity|].
        split; [exact Hkey|]. split; [|reflexivity].
        eapply is_provider_online_latest. reflexivity.
  - intros [= <- <-]. left. split; reflexivity.
Qed.

(** X17. [check_connectivity] never raises. For a provider that is not in
    the catalog it returns [False] and records nothing. For a provider of
    the catalog it makes at most one test call (none when there is no
    key), with the first model of the provider, the message [Hi] and
    [max_tokens=5], returns whether the call succeeded, and records that
    very outcome as the connectivity of the provider. *)
Theorem check_connectivity_reports (provider : string) (api_key : option string)
    (w : world) :
  exists (online : bool) (w1 : world),
    check_connectivity completion_within repr_of provider api_key w = (Ok online, w1)
    /\ (catalog_lookup provider = None -> online = false /\ w1 = w)
    /\ (is_Some (catalog_lookup provider) ->
        is_provider_online provider w1 = (Ok online, w1))
    /\ (completion_calls w1 = completion_calls w
        \/ exists opts info m rest,
             completion_calls w1 = opts :: completion_calls w
             /\ catalog_lookup provider = Some info
             /\ provider_models info = m :: rest
             /\ co_model opts
                = get_provider_model_string repr_of (PStr provider) (PStr (fst m))
             /\ co_messages opts = [user_message "Hi"]
             /\ co_max_tokens opts = Some (PInt 5)
             /\ truthy (co_api_key opts) = true
             /\ online = match completion_within 10 (List.length (completion_calls w)) opts with
                         | inl _ => false
                         | inr _ => true
                         end)
    /\ (online = true -> completion_calls w1 <> completion_calls w).
Proof.
  unfold check_connectivity.
  destruct (catalog_lookup provider) as [info|] eqn:Hinfo.
  - destruct (catalog_first_model provider info Hinfo) as (m & rest & Hmodels & Hid).
    rewrite Hmodels, Hid. cbn [negb].
    unfold gets at 1. unfold bind at 1.
    set (key := opt_or api_key (environ (sys w) !! provider_env_var info)).
    destruct (opt_falsy key) eqn:Hkey.
    + eexists _, _. split; [reflexivity|]. cbn.
      split; [discriminate|]. split; [|split; [left; reflexivity | discriminate]].
      intros _. eapply is_provider_online_latest. reflexivity.
    + assert (Htruthy : truthy (opt_to_py key) = true).
      { destruct key as [k|]; [|discriminate Hkey]. cbn in *.
        apply negb_false_iff in Hkey. exact Hkey. }
      unfold try_except, call_completion. unfold bind at 1.
      match goal with
      | |- context [completion_within 10 ?n ?o] =>
          destruct (completion_within 10 n o) as [[message code]|resp] eqn:Hc
      end; cbn; eexists _, _; (split; [reflexivity|]); cbn;
        (split; [discriminate|]);
        (split; [intros _; eapply is_provider_online_latest; reflexivity|]).
      * split; [|discriminate]. right. eexists _, info, m, rest.
        split; [reflexivity|]. split; [reflexivity|]. split; [exact Hmodels|].
        split; [reflexivity|]. split; [reflexivity|]. split; [reflexivity|].
        split; [exact Htruthy|].
           exact (eq_sym (f_equal (fun x : (string * option pyval) + response =>
                                     match x with inl _ => false | inr _ => true end) Hc)).
      * split.
        -- right. eexists _, info, m, rest.
           split; [reflexivity|]. split; [reflexivity|]. split; [exact Hmodels|].
           split; [reflexivity|]. split; [reflexivity|]. split; [reflexivity|].
           split; [exact Htruthy|].
           exact (eq_sym (f_equal (fun x : (string * option pyval) + response =>
                                     match x with inl _ => false | inr _ => true end) Hc)).
        -- intros _ Heq. apply (f_equal (@List.length _)) in Heq. cbn in Heq. lia.
  - eexists _, _. split; [reflexivity|]. split; [auto|].
    split; [intros [? ?]; discriminate|]. split; [left; reflexivity | discriminate].
Qed.

End Client.

Lemma chat_without_key_refuses_witness :
  exists e,
    chat ok_backend plain_repr [user_message "hi"]
      (mk_dict [ ("provider", PStr "groq"); ("model", PStr "llama-3.1-8b-instant");
                 ("api_key", PNone) ]) active_world
    = (Raise e, active_world)
    /\ classify_error e = (401, "authentication_error").
Proof.
  destruct (chat_without_key_refuses ok_backend plain_repr [user_message "hi"]
              (mk_dict [ ("provider", PStr "groq"); ("model", PStr "llama-3.1-8b-instant");
                         ("api_key", PNone) ]) "groq" active_world)
    as (e & Hrun & _ & Hclass).
  - reflexivity.
  - reflexivity.
  - intros name env_var Hs. vm_compute in Hs. injection Hs as _ <-. vm_compute. reflexivity.
  - exists e. split; [exact Hrun|]. apply Hclass. eexists. vm_compute. reflexivity.
Defined.


Lemma chat_calls_once_and_records_witness :
  let run := chat ok_backend plain_repr [user_message "hi"]
               (mk_dict [ ("model", PStr "gpt-4o") ]) fresh_world in
  exists opts,
    completion_calls (snd run) = [opts]
    /\ co_model opts = PStr "gpt-4o"
    /\ fst (is_provider_online "openai" (snd run)) = Ok true.
Proof.
  intros run.
  destruct (chat_calls_once_and_records ok_backend plain_repr [user_message "hi"]
              (mk_dict [ ("model", PStr "gpt-4o") ]) "openai" fresh_world (snd run) (fst run)
              eq_refl (surjective_pairing run))
    as [[_ Hraise] | (opts & Hcalls & Hmodel & _ & _ & Honline & Hr)].
  - exfalso. vm_compute in Hraise. discriminate Hraise.
  - exists opts. split; [exact Hcalls|]. split; [exact Hmodel|].
    rewrite Honline. cbn [fst]. rewrite Hr. reflexivity.
Defined.

(* --------------------------------------------------------------------- *)
(** ** The client: the catalog *)
(* --------------------------------------------------------------------- *)

Lemma has_provider_listed (p prov : string) (info : provider_info) (m : string * string) :
  has_provider p (listed_model prov info m) = String.eqb prov p.
Proof. reflexivity. Qed.

Lemma filter_listed (p prov : string) (info : provider_info) (ms : list (string * string)) :
  List.filter (has_provider p) (map (listed_model prov info) ms)
  = if String.eqb prov p then map (listed_model prov info) ms else [].
Proof.
  induction ms as [|m ms IH]; cbn [map List.filter].
  - destruct (String.eqb prov p); reflexivity.
  - rewrite has_provider_listed, IH. destruct (String.eqb prov p); reflexivity.
Qed.

Lemma filter_models_of (p : string) (ps : list string) :
  List.filter (has_provider p) (flat_map models_of ps)
  = flat_map (fun prov => if String.eqb prov p then models_of prov else []) ps.
Proof.
  induction ps as [|prov ps IH]; [reflexivity|].
  cbn [flat_map]. rewrite List.filter_app, IH. f_equal.
  unfold models_of. destruct (catalog_lookup prov) as [info|].
  - apply filter_listed.
  - destruct (String.eqb prov p); reflexivity.
Qed.

Lemma list_models_models_of (provider : option string) :
  list_models provider = flat_map models_of (providers_to_check provider).
Proof. reflexivity. Qed.

(** X18. The provider filter of [list_models] agrees with the unfiltered
    list: for a provider id that is not empty the result is exactly the
    elements of the full list whose [provider] is that id, in the same
    order, so it is empty for an id that is not in the catalog; the empty
    string filters nothing, like no provider at all. *)
Theorem list_models_filters_by_provider (p : string) :
  list_models (Some p)
  = (if String.eqb p "" then list_models None
     else List.filter (has_provider p) (list_models None))
  /\ (p <> "" -> catalog_lookup p = None -> list_models (Some p) = []).
Proof.
  split.
  - destruct (String.eqb_spec p "") as [->|Hp]; [reflexivity|].
    rewrite !list_models_models_of, filter_models_of.
    unfold providers_to_check. cbn [truthy].
    rewrite (proj2 (String.eqb_neq p "") Hp). cbn [negb flat_map].
    rewrite app_nil_r.
    cbn [PROVIDER_CATALOG map fst flat_map].
    unfold models_of at 1. unfold catalog_lookup at 1. unfold PROVIDER_CATALOG at 1.
    cbn [List.find fst].
    repeat match goal with
           | |- context [String.eqb ?a p] =>
               let Heq := fresh "Heq" in
               destruct (String.eqb a p) eqn:Heq;
               [apply String.eqb_eq in Heq; subst p; vm_compute; reflexivity | clear Heq]
           end.
    reflexivity.
  - intros Hp Hnone. rewrite list_models_models_of.
    unfold providers_to_check. cbn [truthy].
    rewrite (proj2 (String.eqb_neq p "") Hp). cbn [negb flat_map].
    unfold models_of. rewrite Hnone. reflexivity.
Qed.




(* --------------------------------------------------------------------- *)
(** ** The validation errors of the request path *)
(* --------------------------------------------------------------------- *)

Ltac std_ok := first [exact I | split; reflexivity | reflexivity].

Lemma raises_standard_ret {A : Type} (a : A) : raises_standard (ret a).
Proof. intros w e w' H. discriminate H. Qed.

Lemma raises_standard_gets {A : Type} (f : world -> A) : raises_standard (gets f).
Proof. intros w e w' H. discriminate H. Qed.

Lemma raises_standard_modify (f : world -> world) : raises_standard (modify f).
Proof. intros w e w' H. discriminate H. Qed.

Lemma raises_standard_raise {A : Type} (e : exn) : standard e -> raises_standard (@raise A e).
Proof. intros He w e' w' [= <- _]. exact He. Qed.

Lemma raises_standard_lift {A : Type} (o : outcome A) :
  (forall e, o = Raise e -> standard e) -> raises_standard (lift o).
Proof. intros Ho w e w' [= -> _]. apply Ho. std_ok. Qed.

Lemma raises_standard_bind {A B : Type} (m : M A) (k : A -> M B) :
  raises_standard m -> (forall a, raises_standard (k a)) -> raises_standard (bind m k).
Proof.
  intros Hm Hk w e w'. unfold bind.
  destruct (m w) as [[a|e0] w1] eqn:Hrun; intros H.
  - exact (Hk a _ _ _ H).
  - injection H as <- _. exact (Hm _ _ _ Hrun).
Qed.

Lemma raises_standard_try_except {A : Type} (m : M A) (h : exn -> M A) :
  raises_standard m -> (forall e, standard e -> raises_standard (h e)) ->
  raises_standard (try_except m h).
Proof.
  intros Hm Hh w e w'. unfold try_except.
  destruct (m w) as [[a|e0] w1] eqn:Hrun; intros H; [discriminate H|].
  exact (Hh e0 (Hm _ _ _ Hrun) _ _ _ H).
Qed.

Lemma raises_standard_get_config : raises_standard get_config.
Proof.
  intros w e w' H. destruct (get_config_total w) as (v & w1 & Hok).
  rewrite Hok in H. discriminate H.
Qed.

Lemma raises_standard_time_ms : raises_standard time_ms.
Proof. intros w e w' H. discriminate H. Qed.

Lemma raises_standard_random_choices (alphabet : string) (k : nat) :
  raises_standard (random_choices alphabet k).
Proof.
  induction k as [|k IH]; cbn [random_choices].
  - apply raises_standard_ret.
  - apply raises_standard_bind; [intros w e w' H; discriminate H|].
    intros i. apply raises_standard_bind; [exact IH|]. intros rest. apply raises_standard_ret.
Qed.

Lemma py_get_standard (v : pyval) (k : string) (e : exn) :
  py_get v k = Raise e -> standard e.
Proof. destruct v; cbn; intros [= <-]; std_ok. Qed.

Lemma py_get_default_standard (v : pyval) (k : string) (dflt : pyval) (e : exn) :
  py_get_default v k dflt = Raise e -> standard e.
Proof. destruct v; cbn; intros [= <-]; std_ok. Qed.

Lemma logging_flag_standard (config : pyval) (flag : string) (e : exn) :
  logging_flag config flag = Raise e -> standard e.
Proof.
  unfold logging_flag.
  destruct (py_get_default config "logging" (PDict ∅)) as [section|e1] eqn:H1.
  - destruct (py_get_default section flag (PBool true)) as [v|e2] eqn:H2;
      intros [= <-]. exact (py_get_default_standard _ _ _ _ H2).
  - intros [= <-]. exact (py_get_default_standard _ _ _ _ H1).
Qed.

Lemma supported_provider_standard (provider : pyval) (e : exn) :
  supported_provider provider = Raise e -> standard e.
Proof. destruct provider; cbn; intros [= <-]; std_ok. Qed.

Lemma validate_messages_standard (messages : list pyval) (e : exn) :
  validate_messages messages = Raise e -> standard e.
Proof.
  induction messages as [|msg rest IH]; cbn; [discriminate|].
  destruct (validate_message msg) as [[]|e1] eqn:Hmsg; [exact IH|].
  intros [= <-]. unfold validate_message in Hmsg.
  destruct msg; try (injection Hmsg as <-; std_ok).
  destruct (_ || _); [injection Hmsg as <-; std_ok | discriminate Hmsg].
Qed.

Lemma validate_request_standard (body : pyval) (e : exn) :
  validate_request body = Raise e -> standard e.
Proof.
  unfold validate_request.
  destruct (negb (truthy body)); [intros [= <-]; std_ok|].
  destruct body; try (intros [= <-]; std_ok).
  destruct (model_missing _); [intros [= <-]; std_ok|].
  destruct (_ && _); [intros [= <-]; std_ok|].
  destruct (dict_get d "messages") as [| | | | |l|]; try (intros [= <-]; std_ok);
    try discriminate.
  destruct l as [|m rest]; [intros [= <-]; std_ok|].
  destruct (validate_messages (m :: rest)) as [[]|e1] eqn:Hmsgs; [discriminate|].
  intros [= <-]. exact (validate_messages_standard _ _ Hmsgs).
Qed.

Lemma message_contents_standard (input_messages : list pyval) (e : exn) :
  message_contents input_messages = Raise e -> standard e.
Proof.
  induction input_messages as [|m rest IH]; cbn; [discriminate|].
  destruct (py_get_default m "content" (PStr "")) as [content|e1] eqn:Hget.
  - destruct (message_contents rest) as [contents|e2]; [discriminate|].
    intros [= <-]. apply IH. std_ok.
  - intros [= <-]. exact (py_get_default_standard _ _ _ _ Hget).
Qed.

Lemma join_items_standard (items : list pyval) (i : nat) (e : exn) :
  join_items items i = Raise e -> standard e.
Proof.
  revert i. induction items as [|v rest IH]; intros i; cbn; [discriminate|].
  destruct v; try (intros [= <-]; std_ok).
  destruct (join_items rest (S i)) as [parts|e1] eqn:Hrest; [discriminate|].
  intros [= <-]. exact (IH _ Hrest).
Qed.

Lemma estimate_usage_standard (input_messages : list pyval) (text : pyval) (e : exn) :
  estimate_usage input_messages text = Raise e -> standard e.
Proof.
  unfold estimate_usage.
  destruct (message_contents input_messages) as [contents|e1] eqn:Hc.
  - destruct (join_items contents 0) as [parts|e2] eqn:Hj; [discriminate|].
    intros [= <-]. exact (join_items_standard _ _ _ Hj).
  - intros [= <-]. exact (message_contents_standard _ _ Hc).
Qed.

Ltac raises_standard_step :=
  first
    [ apply raises_standard_ret
    | apply raises_standard_gets
    | apply raises_standard_modify
    | apply raises_standard_get_config
    | apply raises_standard_time_ms
    | apply raises_standard_random_choices
    | apply raises_standard_raise; first [assumption | std_ok]
    | apply raises_standard_lift; intros ? ?;
      first [ eapply py_get_standard; eassumption
            | eapply py_get_default_standard; eassumption
            | eapply logging_flag_standard; eassumption
            | eapply supported_provider_standard; eassumption
            | eapply validate_request_standard; eassumption
            | eapply estimate_usage_standard; eassumption ]
    | apply raises_standard_bind; [|intros]
    | apply raises_standard_try_except; [|intros]
    | match goal with
      | |- raises_standard (if ?c then _ else _) => destruct c
      | |- raises_standard (match ?x with _ => _ end) => destruct x
      end ].

Lemma raises_standard_log_request (data : gmap string pyval) :
  raises_standard (log_request data).
Proof. unfold log_request, print. repeat raises_standard_step. Qed.

Lemma raises_standard_log_success (data : gmap string pyval) :
  raises_standard (log_success data).
Proof. unfold log_success, print. repeat raises_standard_step. Qed.

Lemma raises_standard_mark_online (provider : pyval) (flag : bool) :
  raises_standard (mark_online provider flag).
Proof. unfold mark_online. destruct provider; repeat raises_standard_step. Qed.

Section AdapterStandard.

Variable completion : nat -> completion_options -> (string * option pyval) + response.
Variable repr_of : pyval -> string.

Lemma raises_standard_call_completion (opts : completion_options) :
  raises_standard (call_completion completion opts).
Proof.
  intros w e w'. unfold call_completion.
  destruct (completion _ opts) as [[message code]|r]; intros [= <- _]; std_ok.
Qed.

Lemma raises_standard_chat (messages : list pyval) (options : gmap string pyval) :
  raises_standard (chat completion repr_of messages options).
Proof.
  unfold chat.
  repeat first [ apply raises_standard_call_completion
               | apply raises_standard_mark_online
               | raises_standard_step ].
Qed.

Lemma raises_standard_serve (request_body : pyval) :
  raises_standard (serve completion repr_of request_body).
Proof.
  unfold serve, generate_completion_id.
  repeat first [ apply raises_standard_chat
               | apply raises_standard_log_request
               | apply raises_standard_log_success
               | raises_standard_step ].
Qed.

End AdapterStandard.

(* --------------------------------------------------------------------- *)
(** ** The answers of the chat handler *)
(* --------------------------------------------------------------------- *)

Lemma classify_error_in_statuses (e : exn) : In (classify_error e) error_statuses.
Proof.
  unfold classify_error, error_statuses.
  repeat match goal with
         | |- context [if ?c then _ else _] => destruct c
         end; cbn; tauto.
Qed.

Lemma generate_completion_id_run (w : world) :
  exists completion_id w1,
    generate_completion_id w = (Ok completion_id, w1)
    /\ matches_id_pattern "chatcmpl-" 7 completion_id = true
    /\ completion_calls w1 = completion_calls w
    /\ clock (sys w1) = clock (sys w)
    /\ clock_reads (sys w1) = S (clock_reads (sys w)).
Proof.
  unfold generate_completion_id.
  destruct (random_choices_run 7 w) as (s & Hrun & Hlen & Hall).
  rewrite (bind_ok _ _ _ _ _ Hrun). run.
  eexists _, _. split; [reflexivity|]. split; [|cbn; auto].
  unfold matches_id_pattern.
  change (drop_prefix "chatcmpl-" ("chatcmpl-" +:+ ?x)) with (Some x).
  cbn [sys with_sys put_rng_draws clock clock_reads].
  set (now := clock (sys w) (clock_reads (sys w))).
  change (decimal_N now +:+ "-" +:+ s) with (decimal_N now +:+ String "-" s).
  destruct (decimal_N_digits now) as [Hd Hne].
  rewrite (span_digits_app _ _ Hd).
  destruct (decimal_N now); [congruence|].
  rewrite Hlen, Hall. reflexivity.
Qed.

Lemma log_request_environ (data : gmap string pyval) (w w1 : world) (r : outcome unit) :
  log_request data w = (r, w1) -> environ (sys w1) = environ (sys w).
Proof.
  unfold log_request, gets. unfold bind at 1.
  destruct (get_config_set (lg w)); cbn [negb]; [|intros [= <- <-]; reflexivity].
  destruct (get_config_total w) as (config & wc & Hget).
  destruct (get_config_frame _ _ _ Hget) as (Hsys & _).
  unfold bind at 1. rewrite Hget. unfold lift at 1. unfold bind at 1.
  destruct (logging_flag config "logRequests") as [[|]|e]; cbn;
    intros [= _ <-]; cbn; rewrite Hsys; reflexivity.
Qed.

Lemma dict_get_insert_if_not_none (k : string) (v : pyval) (d : gmap string pyval) :
  d !! k = None -> dict_get (insert_if_not_none k v d) k = v.
Proof.
  intros Hd. unfold insert_if_not_none, dict_get.
  destruct v; cbn [is_none]; rewrite ?lookup_insert_eq, ?Hd; reflexivity.
Qed.

Lemma dict_get_insert_if_not_none_ne (k k' : string) (v : pyval) (d : gmap string pyval) :
  k <> k' -> insert_if_not_none k v d !! k' = d !! k'.
Proof.
  intros Hk. unfold insert_if_not_none.
  destruct (is_none v); [reflexivity|]. apply lookup_insert_ne. exact Hk.
Qed.

Section AdapterContract.

Variable completion : nat -> completion_options -> (string * option pyval) + response.
Variable repr_of : pyval -> string.

(** A result of [chat] called without a key in the options: the provider
    is a supported one, the key is the value of its environment variable,
    and the one call of the provider carries what the options say. *)
Lemma chat_ok_call (messages : list pyval) (options : gmap string pyval)
    (w w1 : world) (result : pyval) :
  chat completion repr_of messages options w = (Ok result, w1) ->
  truthy (dict_get options "api_key") = false ->
  exists p name env_var key r,
    dict_get_default options "provider" (PStr "openai") = PStr p
    /\ SUPPORTED_PROVIDERS !! p = Some (name, env_var)
    /\ environ (sys w) !! env_var = Some key
    /\ truthy (PStr key) = true
    /\ completion (List.length (completion_calls w))
         (CompletionOptions
            (get_provider_model_string repr_of (PStr p)
               (dict_get_default options "model" (PStr "gpt-4")))
            messages (PStr key)
            (not_none (dict_get options "temperature"))
            (not_none (dict_get options "max_tokens"))) = inr r
    /\ completion_calls w1
       = CompletionOptions
           (get_provider_model_string repr_of (PStr p)
              (dict_get_default options "model" (PStr "gpt-4")))
           messages (PStr key)
           (not_none (dict_get options "temperature"))
           (not_none (dict_get options "max_tokens")) :: completion_calls w
    /\ truthy (PStr (response_text r)) = true
    /\ clock (sys w1) = clock (sys w)
    /\ clock_reads (sys w1) = clock_reads (sys w)
    /\ result = PDict (mk_dict [ ("text", PStr (response_text r));
                                 ("usage", response_usage r) ]).
Proof.
  intros Hrun Hkey. unfold chat in Hrun. rewrite Hkey in Hrun. cbn [negb] in Hrun.
  destruct (dict_get_default options "provider" (PStr "openai")) as [| | | |p| |] eqn:Hprov;
    cbn [supported_provider] in Hrun;
    try (unfold lift at 1 in Hrun; unfold bind at 1 2 in Hrun; unfold ret at 1 in Hrun;
         rewrite Hkey in Hrun; cbn [negb] in Hrun; discriminate Hrun);
    try (unfold lift at 1 in Hrun; unfold bind at 1 2 in Hrun; discriminate Hrun).
  unfold lift at 1 in Hrun. unfold bind at 1 2 in Hrun.
  destruct (SUPPORTED_PROVIDERS !! p) as [[name env_var]|] eqn:Hs.
  2: { unfold ret at 1 in Hrun. rewrite Hkey in Hrun. discriminate Hrun. }
  unfold gets at 1 in Hrun. unfold bind at 1 in Hrun. unfold ret at 1 in Hrun.
  destruct (environ (sys w) !! env_var) as [key|] eqn:Henv; cbn [opt_to_py] in Hrun.
  2: { discriminate Hrun. }
  destruct (truthy (PStr key)) eqn:Htruthy; cbn [negb] in Hrun; [|discriminate Hrun].
  unfold try_except, call_completion in Hrun. unfold bind at 1 in Hrun.
  match type of Hrun with
  | context [completion ?n ?o] =>
      destruct (completion n o) as [[message code]|r] eqn:Hc
  end.
  { cbn in Hrun. discriminate Hrun. }
  cbn [mark_online] in Hrun. unfold bind at 1 in Hrun. unfold modify at 1 in Hrun.
  destruct (truthy (PStr (response_text r))) eqn:Htext; cbn [negb] in Hrun.
  2: { cbn in Hrun. discriminate Hrun. }
  unfold ret in Hrun. apply pair_equal_spec in Hrun as [Hres Hw].
  apply Ok_inj in Hres. subst result w1.
  exists p, name, env_var, key, r.
  split; [reflexivity|]. split; [exact Hs|]. split; [exact Henv|].
  split; [exact Htruthy|]. split; [exact Hc|]. split; [reflexivity|].
  split; [exact Htext|]. split; [reflexivity|]. split; reflexivity.
Qed.

End AdapterContract.

Lemma model_missing_false_inv (model : pyval) :
  model_missing model = false -> exists m, model = PStr m /\ truthy (PStr m) = true.
Proof.
  unfold model_missing. intros H. apply orb_false_iff in H as [Htruthy Hstr].
  apply negb_false_iff in Htruthy.
  destruct model; try discriminate Hstr. eauto.
Qed.

Lemma validate_request_ok_model (b : gmap string pyval) (valid : bool) :
  validate_request (PDict b) = Ok valid ->
  exists m, b !! "model" = Some (PStr m) /\ truthy (PStr m) = true.
Proof.
  unfold validate_request.
  destruct (negb (truthy (PDict b))); [discriminate|].
  destruct (model_missing (dict_get b "model")) eqn:Hmodel; [discriminate|].
  intros _. destruct (model_missing_false_inv _ Hmodel) as (m & Hm & Htruthy).
  exists m. split; [|exact Htruthy].
  unfold dict_get in Hm. destruct (b !! "model") as [v|]; cbn in Hm; [|discriminate Hm].
  rewrite Hm. reflexivity.
Qed.

Section AdapterAnswers.

Variable completion : nat -> completion_options -> (string * option pyval) + response.
Variable repr_of : pyval -> string.

(** The options [serve] hands to [chat], read back. *)
Lemma serve_options (provider model temperature max_tokens : pyval) :
  let options :=
    insert_if_not_none "max_tokens" max_tokens
      (insert_if_not_none "temperature" temperature
         (mk_dict [ ("provider", provider); ("model", model); ("api_key", PNone) ])) in
  dict_get_default options "provider" (PStr "openai") = provider
  /\ dict_get_default options "model" (PStr "gpt-4") = model
  /\ dict_get options "api_key" = PNone
  /\ dict_get options "temperature" = temperature
  /\ dict_get options "max_tokens" = max_tokens.
Proof.
  intros options. subst options.
  unfold dict_get_default.
  rewrite !dict_get_insert_if_not_none_ne by discriminate.
  split; [reflexivity|]. split; [reflexivity|]. split.
  { unfold dict_get. rewrite !dict_get_insert_if_not_none_ne by discriminate. reflexivity. }
  split.
  - unfold dict_get at 1. rewrite dict_get_insert_if_not_none_ne by discriminate.
    apply dict_get_insert_if_not_none. reflexivity.
  - apply dict_get_insert_if_not_none.
    rewrite dict_get_insert_if_not_none_ne by discriminate. reflexivity.
Qed.

(** A 200 of [serve], taken apart: the request, the configuration, the one
    call of the provider and the answer built from it. *)
Lemma serve_ok_inv (request_body result : pyval) (w w1 : world) :
  serve completion repr_of request_body w = (Ok result, w1) ->
  exists (b : gmap string pyval) (config : pyval) (wc : world) (p : string) (model : pyval)
         (name env_var key : string) (r : response) (usage : pyval)
         (completion_id : string) (created : N) (m : string),
    request_body = PDict b
    /\ b !! "model" = Some (PStr m)
    /\ get_config w = (Ok config, wc)
    /\ py_get_default config "provider" (PStr "openai") = Ok (PStr p)
    /\ py_get_default config "model" (PStr "gpt-4") = Ok model
    /\ SUPPORTED_PROVIDERS !! p = Some (name, env_var)
    /\ environ (sys w) !! env_var = Some key
    /\ truthy (PStr key) = true
    /\ completion (List.length (completion_calls w))
         (CompletionOptions
            (get_provider_model_string repr_of (PStr p) model)
            (build_input_messages (dict_get b "messages") (dict_get b "prompt"))
            (PStr key)
            (not_none (dict_get b "temperature"))
            (not_none (py_or (dict_get b "max_tokens") (dict_get b "max_completion_tokens"))))
       = inr r
    /\ completion_calls w1
       = CompletionOptions
           (get_provider_model_string repr_of (PStr p) model)
           (build_input_messages (dict_get b "messages") (dict_get b "prompt"))
           (PStr key)
           (not_none (dict_get b "temperature"))
           (not_none (py_or (dict_get b "max_tokens") (dict_get b "max_completion_tokens")))
         :: completion_calls w
    /\ truthy (PStr (response_text r)) = true
    /\ (if truthy (response_usage r) then Ok (response_usage r)
        else estimate_usage
               (build_input_messages (dict_get b "messages") (dict_get b "prompt"))
               (PStr (response_text r))) = Ok usage
    /\ matches_id_pattern "chatcmpl-" 7 completion_id = true
    /\ result
       = PDict (mk_dict
           [ ("statusCode", PInt 200);
             ("body", PDict (mk_dict
                [ ("id", PStr completion_id);
                  ("object", PStr "chat.completion");
                  ("created", PInt (Z.of_N (created / 1000)));
                  ("model", PStr m);
                  ("choices", PList
                     [ PDict (mk_dict
                         [ ("index", PInt 0);
                           ("message", PDict (mk_dict
                              [ ("role", PStr "assistant");
                                ("content", PStr (response_text r)) ]));
                           ("finish_reason", PStr "stop") ]) ]);
                  ("usage", usage) ])) ]).
Proof.
  intros H. unfold serve in H.
  peel_lift H Hval.
  destruct (validate_request_ok_inv _ _ Hval) as (b & ->).
  destruct (validate_request_ok_model _ _ Hval) as (m & Hm & _).
  apply bind_ok_inv in H as (config & wc & Hcfg & H).
  pose proof (keeps_calls_get_config _ _ _ Hcfg) as Hcalls1.
  destruct (get_config_frame _ _ _ Hcfg) as (Hsys1 & _).
  peel_lift H Hrequested. peel_lift H Hmessages. peel_lift H Hprompt.
  peel_lift H Htemperature. peel_lift H Hfirst. peel_lift H Hsecond.
  peel_lift H Hprovider. peel_lift H Hmodel. peel_lift H Hkeyvar.
  cbn [py_get py_get_default] in Hrequested, Hmessages, Hprompt, Htemperature, Hfirst, Hsecond.
  apply Ok_inj in Hrequested, Hmessages, Hprompt, Htemperature, Hfirst, Hsecond.
  subst.
  apply bind_ok_inv in H as ([] & wl & Hlog & H).
  pose proof (keeps_calls_log_request _ _ _ _ Hlog) as Hcalls2.
  pose proof (log_request_environ _ _ _ _ Hlog) as Henv2.
  apply bind_ok_inv in H as (res & wch & Hchat & H).
  match type of Hchat with
  | chat _ _ _ (insert_if_not_none _ ?mx (insert_if_not_none _ ?t (mk_dict [ (_, ?pv); (_, ?mv); _ ]))) _ = _ =>
      destruct (serve_options pv mv t mx) as (Oprov & Omodel & Okey & Otemp & Omax)
  end.
  assert (Hnokey : truthy PNone = false) by reflexivity.
  rewrite <- Okey in Hnokey.
  destruct (chat_ok_call completion repr_of _ _ _ _ _ Hchat Hnokey)
    as (p & name & env_var & key & r & Hp & Hs & Henv & Htruthy & Hcall & Hcalls3 & Htext
        & _ & _ & ->).
  rewrite Oprov in Hp. rewrite Omodel, Otemp, Omax in Hcall, Hcalls3.
  rewrite Hcalls2, Hcalls1 in Hcall, Hcalls3.
  rewrite Henv2, Hsys1 in Henv.
  peel_lift H Hreported. rewrite chat_result_usage in Hreported. apply Ok_inj in Hreported.
  subst.
  peel_lift H Htxt. rewrite chat_result_text in Htxt. apply Ok_inj in Htxt. subst.
  apply bind_ok_inv in H as (usage & wu & Husage & H).
  assert (Hu : (if truthy (response_usage r) then Ok (response_usage r)
                else estimate_usage
                       (build_input_messages (dict_get b "messages") (dict_get b "prompt"))
                       (PStr (response_text r))) = Ok usage /\ wu = wch).
  { destruct (truthy (response_usage r)).
    - apply ret_ok_inv in Husage as [-> ->]. split; reflexivity.
    - apply lift_ok_inv in Husage as [Husage ->]. split; [exact Husage | reflexivity]. }
  destruct Hu as [Hu ->].
  peel_lift H Hpt. peel_lift H Hct. peel_lift H Htt.
  apply bind_ok_inv in H as ([] & ws & Hsuccess & H).
  pose proof (keeps_calls_log_success _ _ _ _ Hsuccess) as Hcalls4.
  destruct (generate_completion_id_run ws) as (cid & wi & Hgen & Hpat & Hcalls5 & _ & _).
  rewrite (bind_ok _ _ _ _ _ Hgen) in H.
  apply bind_ok_inv in H as (created & wt & Htime & H).
  apply ret_ok_inv in H as [-> ->].
  unfold time_ms in Htime. apply pair_equal_spec in Htime as [_ <-].
  eexists b, config, wc, p, _, name, env_var, key, r, usage, cid, created, m.
  split; [reflexivity|]. split; [exact Hm|]. split; [exact Hcfg|].
  split; [exact Hprovider|]. split; [exact Hmodel|].
  split; [exact Hs|]. split; [exact Henv|]. split; [exact Htruthy|].
  split; [exact Hcall|].
  split; [cbn [completion_calls with_sys]; rewrite Hcalls5, Hcalls4; exact Hcalls3|].
  split; [exact Htext|]. split; [exact Hu|]. split; [exact Hpat|].
  unfold dict_get_default. rewrite Hm. reflexivity.
Qed.

End AdapterAnswers.

Section HandlerContract.

Variable completion : nat -> completion_options -> (string * option pyval) + response.
Variable repr_of : pyval -> string.

(** What the handler does with a request when the emulator is active. *)
Lemma handle_chat_completion_active (request_body : pyval) (w : world) :
  emulator_active (cfg w) = true ->
  handle_chat_completion completion repr_of request_body w
  = match serve completion repr_of request_body w with
    | (Ok result, w1) => (Ok result, w1)
    | (Raise e, w1) =>
        (context <- lift (error_context request_body) ;;
         log_error e context ;;;
         ret (match exn_cls e with
              | ValidationError status_code type => create_error_response e status_code type
              | _ => let '(status_code, error_type) := classify_error e in
                     create_error_response e status_code error_type
              end)) w1
    end.
Proof.
  intros Hon. unfold handle_chat_completion, try_except, is_emulator_active, gets.
  unfold bind at 1. rewrite Hon. cbn [negb].
  destruct (serve completion repr_of request_body w) as [[result|e] w1]; [reflexivity|].
  destruct (exn_cls e); try reflexivity; destruct (classify_error e); reflexivity.
Qed.

(** X20. Every answer of [handle_chat_completion] is either a 200 with a
    [chat.completion] object, or an error whose status code and error type
    go together: 400 [invalid_request_error], 401 [authentication_error],
    403 [permission_error], 404 [not_found_error], 429 [rate_limit_error],
    500 [internal_server_error] or 503 [service_unavailable]. *)
Theorem handler_answers_in_contract (request_body result : pyval) (w w1 : world) :
  handle_chat_completion completion repr_of request_body w = (Ok result, w1) ->
  (status_of result = Some 200
   /\ body_entry "object" result = Some (PStr "chat.completion"))
  \/ (exists status_code error_type,
        In (status_code, error_type) error_statuses
        /\ status_of result = Some status_code
        /\ error_type_of result = Some error_type).
Proof.
  destruct (emulator_active (cfg w)) eqn:Hactive.
  - rewrite (handle_chat_completion_active _ _ Hactive).
    destruct (serve completion repr_of request_body w) as [[res|e] ws] eqn:Hserve.
    + intros [= <- <-]. left.
      destruct (serve_ok_inv completion repr_of _ _ _ _ Hserve)
        as (b & config & wc & p & model & name & env_var & key & r & usage & cid & created
            & m & _ & _ & _ & _ & _ & _ & _ & _ & _ & _ & _ & _ & _ & ->).
      split; reflexivity.
    + pose proof (raises_standard_serve completion repr_of request_body _ _ _ Hserve) as Hstd.
      intros H. right.
      apply bind_ok_inv in H as (context & wc & _ & H).
      apply bind_ok_inv in H as ([] & wl & _ & H).
      apply ret_ok_inv in H as [-> _].
      unfold standard in Hstd.
      destruct (exn_cls e) as [sc ty| | | | | | |].
      1: { destruct Hstd as [-> ->]. exists 400, "invalid_request_error".
           split; [cbn; tauto|]. split; reflexivity. }
      all: pose proof (classify_error_in_statuses e) as Hin;
        destruct (classify_error e) as [sc ty];
        exists sc, ty; (split; [exact Hin|]); split; reflexivity.
  - rewrite (handle_chat_completion_inactive completion repr_of _ _ Hactive).
    intros [= <- _]. right. exists 503, "service_unavailable".
    split; [cbn; tauto|]. split; reflexivity.
Qed.

(** X21. The call behind a 200. A request is answered 200 after exactly
    one call of the provider. The call names the provider and the model of
    the configuration, not the model of the request; its API key is the
    value of the environment variable that [SUPPORTED_PROVIDERS] gives for
    the provider, so the [apiKeyEnvVar] of the configuration plays no part;
    it carries the messages of the request (or the prompt as one user
    message), the temperature, and [max_tokens] or else
    [max_completion_tokens]. *)
Theorem success_calls_configured_backend (request_body result : pyval) (w w1 : world) :
  handle_chat_completion completion repr_of request_body w = (Ok result, w1) ->
  status_of result = Some 200 ->
  exists (b : gmap string pyval) (config : pyval) (wc : world) (p : string) (model : pyval)
         (name env_var key : string) (opts : completion_options),
    request_body = PDict b
    /\ get_config w = (Ok config, wc)
    /\ py_get_default config "provider" (PStr "openai") = Ok (PStr p)
    /\ py_get_default config "model" (PStr "gpt-4") = Ok model
    /\ SUPPORTED_PROVIDERS !! p = Some (name, env_var)
    /\ environ (sys w) !! env_var = Some key
    /\ completion_calls w1 = opts :: completion_calls w
    /\ co_model opts = get_provider_model_string repr_of (PStr p) model
    /\ co_api_key opts = PStr key
    /\ co_messages opts
       = build_input_messages (dict_get b "messages") (dict_get b "prompt")
    /\ co_temperature opts = not_none (dict_get b "temperature")
    /\ co_max_tokens opts
       = not_none (py_or (dict_get b "max_tokens") (dict_get b "max_completion_tokens")).
Proof.
  intros Hrun Hstatus.
  pose proof (handle_chat_completion_200 completion repr_of _ _ _ _ Hrun Hstatus) as H.
  destruct (serve_ok_inv completion repr_of _ _ _ _ H)
    as (b & config & wc & p & model & name & env_var & key & r & usage & cid & created
        & m & Hb & _ & Hcfg & Hp & Hmodel & Hs & Henv & _ & _ & Hcalls & _).
  eexists b, config, wc, p, model, name, env_var, key, _.
  split; [exact Hb|]. split; [exact Hcfg|]. split; [exact Hp|]. split; [exact Hmodel|].
  split; [exact Hs|]. split; [exact Henv|]. split; [exact Hcalls|].
  repeat split; reflexivity.
Qed.

(** X22. The body of a 200: the [model] is the model string of the
    request, echoed (not the model that was called); the [id] has the
    form [chatcmpl-<digits>-<7 lowercase letters or digits>]; there is one
    choice, with index 0, the role [assistant], the finish reason [stop]
    and as content the text of the provider's answer, which is not empty. *)
Theorem success_response_shape (request_body result : pyval) (w w1 : world) :
  handle_chat_completion completion repr_of request_body w = (Ok result, w1) ->
  status_of result = Some 200 ->
  exists (b : gmap string pyval) (m completion_id text : string)
         (opts : completion_options) (r : response),
    request_body = PDict b
    /\ b !! "model" = Some (PStr m)
    /\ body_entry "model" result = Some (PStr m)
    /\ body_entry "object" result = Some (PStr "chat.completion")
    /\ body_entry "id" result = Some (PStr completion_id)
    /\ matches_id_pattern "chatcmpl-" 7 completion_id = true
    /\ completion (List.length (completion_calls w)) opts = inr r
    /\ text = response_text r
    /\ text <> ""
    /\ body_entry "choices" result
       = Some (PList
           [ PDict (mk_dict
               [ ("index", PInt 0);
                 ("message", PDict (mk_dict
                    [ ("role", PStr "assistant"); ("content", PStr text) ]));
                 ("finish_reason", PStr "stop") ]) ]).
Proof.
  intros Hrun Hstatus.
  pose proof (handle_chat_completion_200 completion repr_of _ _ _ _ Hrun Hstatus) as H.
  destruct (serve_ok_inv completion repr_of _ _ _ _ H)
    as (b & config & wc & p & model & name & env_var & key & r & usage & cid & created
        & m & Hb & Hm & _ & _ & _ & _ & _ & _ & Hcall & _ & Htext & _ & Hpat & ->).
  eexists b, m, cid, _, _, r.
  split; [exact Hb|]. split; [exact Hm|]. split; [reflexivity|]. split; [reflexivity|].
  split; [reflexivity|]. split; [exact Hpat|]. split; [exact Hcall|].
  split; [reflexivity|]. split; [|reflexivity].
  intros Hempty. rewrite Hempty in Htext. discriminate Htext.
Qed.

(** X23. Usage that the provider reports is passed on, not estimated: in
    a 200 whose provider answer carries a usage object, the prompt and
    completion tokens are the reported numbers (0 for a missing one), and
    the total is the reported total, or the sum of the two when the total
    is missing or 0. *)
Theorem reported_usage_passed_on (request_body result : pyval) (w w1 : world) :
  handle_chat_completion completion repr_of request_body w = (Ok result, w1) ->
  status_of result = Some 200 ->
  exists (opts : completion_options) (r : response),
    completion (List.length (completion_calls w)) opts = inr r
    /\ forall u, resp_usage r = Some u ->
         usage_entry "prompt_tokens" result = Some (PInt (or_zero (u_prompt_tokens u)))
         /\ usage_entry "completion_tokens" result
            = Some (PInt (or_zero (u_completion_tokens u)))
         /\ usage_entry "total_tokens" result
            = Some (PInt (if Z.eqb (or_zero (u_total_tokens u)) 0
                          then or_zero (u_prompt_tokens u) + or_zero (u_completion_tokens u)
                          else or_zero (u_total_tokens u))).
Proof.
  intros Hrun Hstatus.
  pose proof (handle_chat_completion_200 completion repr_of _ _ _ _ Hrun Hstatus) as H.
  destruct (serve_ok_inv completion repr_of _ _ _ _ H)
    as (b & config & wc & p & model & name & env_var & key & r & usage & cid & created
        & m & _ & _ & _ & _ & _ & _ & _ & _ & Hcall & _ & _ & Husage & _ & ->).
  eexists _, r. split; [exact Hcall|].
  intros u Hu. unfold response_usage in Husage. rewrite Hu in Husage.
  cbn [truthy] in Husage.
  change (negb (Nat.eqb (size (mk_dict _)) 0)) with true in Husage.
  apply Ok_inj in Husage. subst usage.
  rewrite !success_usage_entry. repeat split; reflexivity.
Qed.

(** X24. The route [POST /v1/chat/completions] while the emulator is
    active: a body that is not a JSON object ([null], a number, a string,
    a list) is not answered 400. The handler's own error handling fails on
    [request_body.get], the exception leaves the handler, and the route
    answers 500 [Internal server error] without any call of the provider.
    A request whose JSON does not parse is answered the same way. *)
Theorem route_answers_500_without_object (w : world) :
  logger_can_read "logErrors" w ->
  (forall body,
     emulator_active (cfg w) = true ->
     is_dict body = false ->
     exists w1,
       chat_completions completion repr_of (Ok body) w
       = (Ok (PInt 500, internal_server_error_content), w1)
       /\ completion_calls w1 = completion_calls w)
  /\ (forall e,
        exists w1,
          chat_completions completion repr_of (Raise e) w
          = (Ok (PInt 500, internal_server_error_content), w1)
          /\ completion_calls w1 = completion_calls w).
Proof.
  intros Hread. split.
  - intros body Hactive Hbody.
    assert (Hserve : exists e, serve completion repr_of body w = (Raise e, w)).
    { unfold serve. unfold lift at 1. unfold bind at 1. unfold validate_request.
      destruct (negb (truthy body)); [eexists; reflexivity|].
      destruct body; try discriminate Hbody; eexists; reflexivity. }
    destruct Hserve as (e & Hserve).
    assert (Hhandler : handle_chat_completion completion repr_of body w
                       = (Raise (no_attribute_get body), w)).
    { rewrite (handle_chat_completion_active _ _ Hactive), Hserve.
      unfold error_context, lift, bind.
      destruct body; try discriminate Hbody; reflexivity. }
    destruct (log_error_returns (no_attribute_get body)
                (mk_dict [ ("endpoint", PStr "/v1/chat/completions") ]) w Hread)
      as (w1 & Hlog & Hcalls).
    exists w1. split; [|exact Hcalls].
    unfold chat_completions, try_except. unfold lift at 1. unfold bind at 1 2.
    rewrite Hhandler. unfold bind. rewrite Hlog. reflexivity.
  - intros e.
    destruct (log_error_returns e
                (mk_dict [ ("endpoint", PStr "/v1/chat/completions") ]) w Hread)
      as (w1 & Hlog & Hcalls).
    exists w1. split; [|exact Hcalls].
    unfold chat_completions, try_except, lift, bind. cbn beta iota.
    rewrite Hlog. reflexivity.
Qed.

End HandlerContract.

Lemma handler_answers_in_contract_witness :
  let run := handle_chat_completion ok_backend plain_repr (PDict no_model_request)
               active_world in
  let result := match fst run with Ok v => v | Raise _ => PNone end in
  run = (Ok result, snd run)
  /\ exists status_code error_type,
       In (status_code, error_type) error_statuses
       /\ status_of result = Some status_code
       /\ error_type_of result = Some error_type.
Proof.
  intros run result.
  assert (Hrun : run = (Ok result, snd run)) by (apply run_pair; vm_compute; reflexivity).
  split; [exact Hrun|].
  destruct (handler_answers_in_contract ok_backend plain_repr _ _ _ _ Hrun)
    as [[Hstatus _] | Herror]; [|exact Herror].
  exfalso. vm_compute in Hstatus. discriminate Hstatus.
Defined.

Lemma success_calls_configured_backend_witness :
  let run := handle_chat_completion ok_backend plain_repr (PDict two_message_request)
               active_world in
  let result := match fst run with Ok v => v | Raise _ => PNone end in
  run = (Ok result, snd run)
  /\ status_of result = Some 200
  /\ exists (opts : completion_options) (env_var key : string),
       completion_calls (snd run) = opts :: completion_calls active_world
       /\ environ (sys active_world) !! env_var = Some key
       /\ co_api_key opts = PStr key.
Proof.
  intros run result.
  assert (Hrun : run = (Ok result, snd run)) by (apply run_pair; vm_compute; reflexivity).
  assert (Hstatus : status_of result = Some 200) by (vm_compute; reflexivity).
  split; [exact Hrun|]. split; [exact Hstatus|].
  destruct (success_calls_configured_backend ok_backend plain_repr _ _ _ _ Hrun Hstatus)
    as (b & config & wc & p & model & name & env_var & key & opts & _ & _ & _ & _ & _
        & Henv & Hcalls & _ & Hkey & _).
  exists opts, env_var, key. split; [exact Hcalls|]. split; [exact Henv | exact Hkey].
Defined.

Lemma success_response_shape_witness :
  let run := handle_chat_completion ok_backend plain_repr (PDict two_message_request)
               active_world in
  let result := match fst run with Ok v => v | Raise _ => PNone end in
  run = (Ok result, snd run)
  /\ status_of result = Some 200
  /\ exists (m completion_id : string),
       two_message_request !! "model" = Some (PStr m)
       /\ body_entry "model" result = Some (PStr m)
       /\ body_entry "id" result = Some (PStr completion_id)
       /\ matches_id_pattern "chatcmpl-" 7 completion_id = true.
Proof.
  intros run result.
  assert (Hrun : run = (Ok result, snd run)) by (apply run_pair; vm_compute; reflexivity).
  assert (Hstatus : status_of result = Some 200) by (vm_compute; reflexivity).
  split; [exact Hrun|]. split; [exact Hstatus|].
  destruct (success_response_shape ok_backend plain_repr _ _ _ _ Hrun Hstatus)
    as (b & m & cid & text & opts & r & Hb & Hm & Hmodel & _ & Hid & Hpat & _).
  apply (f_equal (fun v => match v with PDict d => d | _ => ∅ end)) in Hb. cbn in Hb.
  subst b.
  exists m, cid. split; [exact Hm|]. split; [exact Hmodel|]. split; [exact Hid | exact Hpat].
Defined.

Lemma reported_usage_passed_on_witness :
  let run := handle_chat_completion reporting_backend plain_repr (PDict two_message_request)
               active_world in
  let result := match fst run with Ok v => v | Raise _ => PNone end in
  run = (Ok result, snd run)
  /\ status_of result = Some 200
  /\ usage_entry "prompt_tokens" result = Some (PInt 7)
  /\ usage_entry "total_tokens" result = Some (PInt 9).
Proof.
  intros run result.
  assert (Hrun : run = (Ok result, snd run)) by (apply run_pair; vm_compute; reflexivity).
  assert (Hstatus : status_of result = Some 200) by (vm_compute; reflexivity).
  split; [exact Hrun|]. split; [exact Hstatus|].
  destruct (reported_usage_passed_on reporting_backend plain_repr _ _ _ _ Hrun Hstatus)
    as (opts & r & Hcall & Husage).
  unfold reporting_backend in Hcall. apply (f_equal (fun x => match x with
                                                              | inr v => Some v
                                                              | inl _ => None
                                                              end)) in Hcall.
  cbn in Hcall. injection Hcall as <-.
  destruct (Husage _ eq_refl) as (Hprompt & _ & Htotal).
  split; [exact Hprompt | exact Htotal].
Defined.

Lemma route_answers_500_without_object_witness :
  exists w1,
    chat_completions ok_backend plain_repr (Ok PNone) active_world
    = (Ok (PInt 500, internal_server_error_content), w1)
    /\ completion_calls w1 = completion_calls active_world.
Proof.
  assert (Hread : logger_can_read "logErrors" active_world).
  { intros _. exists get_default_config, active_world, true. split; reflexivity. }
  exact (proj1 (route_answers_500_without_object ok_backend plain_repr active_world Hread)
           PNone eq_refl eq_refl).
Defined.

(* --------------------------------------------------------------------- *)
(** ** One request, at most one call *)
(* --------------------------------------------------------------------- *)

Lemma calls_at_most_keeps {A : Type} (n : nat) (m : M A) :
  keeps_calls m -> calls_at_most n m.
Proof.
  intros Hm w r w' Hrun. exists []. split; [exact (Hm _ _ _ Hrun) | cbn; lia].
Qed.

Lemma calls_at_most_bind_l {A B : Type} (n : nat) (m : M A) (k : A -> M B) :
  keeps_calls m -> (forall a, calls_at_most n (k a)) -> calls_at_most n (bind m k).
Proof.
  intros Hm Hk w r w'. unfold bind.
  destruct (m w) as [[a|e] w1] eqn:Hrun; intros H.
  - destruct (Hk a _ _ _ H) as (calls & Hcalls & Hlen).
    exists calls. rewrite Hcalls, (Hm _ _ _ Hrun). auto.
  - injection H as <- <-. exists []. split; [exact (Hm _ _ _ Hrun) | cbn; lia].
Qed.

Lemma calls_at_most_bind_r {A B : Type} (n : nat) (m : M A) (k : A -> M B) :
  calls_at_most n m -> (forall a, keeps_calls (k a)) -> calls_at_most n (bind m k).
Proof.
  intros Hm Hk w r w'. unfold bind.
  destruct (m w) as [[a|e] w1] eqn:Hrun; intros H.
  - destruct (Hm _ _ _ Hrun) as (calls & Hcalls & Hlen).
    exists calls. rewrite (Hk a _ _ _ H), Hcalls. auto.
  - injection H as <- <-. exact (Hm _ _ _ Hrun).
Qed.

Lemma calls_at_most_try_except {A : Type} (n : nat) (m : M A) (h : exn -> M A) :
  calls_at_most n m -> (forall e, keeps_calls (h e)) -> calls_at_most n (try_except m h).
Proof.
  intros Hm Hh w r w'. unfold try_except.
  destruct (m w) as [[a|e] w1] eqn:Hrun; intros H.
  - injection H as <- <-. exact (Hm _ _ _ Hrun).
  - destruct (Hm _ _ _ Hrun) as (calls & Hcalls & Hlen).
    exists calls. rewrite (Hh e _ _ _ H), Hcalls. auto.
Qed.

Lemma keeps_calls_mark_online (provider : pyval) (flag : bool) :
  keeps_calls (mark_online provider flag).
Proof. unfold mark_online. destruct provider; repeat keeps_calls_step. Qed.

Lemma keeps_calls_random_choices (alphabet : string) (k : nat) :
  keeps_calls (random_choices alphabet k).
Proof.
  induction k as [|k IH]; cbn [random_choices].
  - apply keeps_calls_ret.
  - apply keeps_calls_bind; [intros w r w' [= <- <-]; reflexivity|].
    intros i. apply keeps_calls_bind; [exact IH|]. intros rest. apply keeps_calls_ret.
Qed.

Lemma keeps_calls_generate_completion_id : keeps_calls generate_completion_id.
Proof.
  unfold generate_completion_id.
  repeat first [apply keeps_calls_random_choices | keeps_calls_step].
Qed.

Section OneCall.

Variable completion : nat -> completion_options -> (string * option pyval) + response.
Variable repr_of : pyval -> string.

Lemma calls_at_most_call_completion (opts : completion_options) :
  calls_at_most 1 (call_completion completion opts).
Proof.
  intros w r w'. unfold call_completion.
  destruct (completion _ opts) as [[message code]|resp]; intros [= <- <-];
    exists [opts]; split; first [reflexivity | cbn; lia].
Qed.

Lemma calls_at_most_chat (messages : list pyval) (options : gmap string pyval) :
  calls_at_most 1 (chat completion repr_of messages options).
Proof.
  unfold chat. apply calls_at_most_bind_l.
  { repeat first [ keeps_calls_step
                 | match goal with
                   | |- keeps_calls (match ?x with _ => _ end) => destruct x
                   end ]. }
  intros key. destruct (negb (truthy key)).
  { apply calls_at_most_keeps. apply keeps_calls_raise. }
  apply calls_at_most_try_except.
  - apply calls_at_most_bind_r; [apply calls_at_most_call_completion|].
    intros resp. repeat first [apply keeps_calls_mark_online | keeps_calls_step].
  - intros e. repeat first [apply keeps_calls_mark_online | keeps_calls_step].
Qed.

Lemma calls_at_most_serve (request_body : pyval) :
  calls_at_most 1 (serve completion repr_of request_body).
Proof.
  unfold serve.
  do 12 (apply calls_at_most_bind_l;
         [first [apply keeps_calls_log_request | keeps_calls_step] | intros]).
  apply calls_at_most_bind_r; [apply calls_at_most_chat|].
  intros result.
  repeat first [ apply keeps_calls_log_success
               | apply keeps_calls_generate_completion_id
               | keeps_calls_step ].
Qed.

Lemma keeps_calls_error_answer (request_body : pyval) (e : exn) (answer : pyval) :
  keeps_calls (context <- lift (error_context request_body) ;;
               log_error e context ;;;
               ret answer).
Proof. repeat first [apply keeps_calls_log_error | keeps_calls_step]. Qed.

Lemma calls_at_most_handle_chat_completion (request_body : pyval) :
  calls_at_most 1 (handle_chat_completion completion repr_of request_body).
Proof.
  unfold handle_chat_completion. apply calls_at_most_try_except.
  - apply calls_at_most_bind_l; [unfold is_emulator_active; apply keeps_calls_gets|].
    intros active. destruct (negb active).
    + apply calls_at_most_keeps, keeps_calls_ret.
    + apply calls_at_most_serve.
  - intros e. generalize (classify_error e). intros [status_code error_type].
    destruct (exn_cls e); apply keeps_calls_error_answer.
Qed.

(** X25. One request makes at most one call of the provider, however it
    ends: whether the handler returns an answer or raises, and whether the
    route answers with the handler's result or with its own 500, the
    calls recorded afterwards are the old ones and at most one new one. *)
Theorem one_request_one_call_at_most :
  (forall request_body,
     calls_at_most 1 (handle_chat_completion completion repr_of request_body))
  /\ (forall parsed, calls_at_most 1 (chat_completions completion repr_of parsed)).
Proof.
  split; [exact calls_at_most_handle_chat_completion|].
  intros parsed. unfold chat_completions. apply calls_at_most_try_except.
  - apply calls_at_most_bind_l; [apply keeps_calls_lift|]. intros body.
    apply calls_at_most_bind_r; [apply calls_at_most_handle_chat_completion|].
    intros result. repeat keeps_calls_step.
  - intros e. repeat first [apply keeps_calls_log_error | keeps_calls_step].
Qed.

End OneCall.

(* --------------------------------------------------------------------- *)
(** ** main.py: normalising a model *)
(* --------------------------------------------------------------------- *)

Lemma py_or_truthy_l (a b : pyval) : truthy a = true -> py_or a b = a.
Proof. intros H. unfold py_or. rewrite H. reflexivity. Qed.

Lemma py_or_truthy_r (a b : pyval) : truthy b = true -> truthy (py_or a b) = true.
Proof. intros H. unfold py_or. destruct (truthy a) eqn:Ha; assumption. Qed.

Lemma normalized_lookups (i l p pn : pyval) :
  let d := mk_dict [ ("id", i); ("label", l); ("provider", p); ("providerName", pn) ] in
  dict_get d "id" = i /\ dict_get d "model" = PNone /\ dict_get d "name" = PNone
  /\ dict_get d "label" = l /\ dict_get d "title" = PNone
  /\ dict_get d "display_name" = PNone
  /\ dict_get d "provider" = p /\ dict_get d "providerName" = pn
  /\ truthy (PDict d) = true.
Proof. repeat split; reflexivity. Qed.

(** X26. What [normalize_model] returns, when it returns a model, is an
    object whose [id], [label] and [provider] are all set to something
    that is not empty; and on objects it is idempotent: normalising the
    result of normalising an object gives the same object again. (The
    result for a model given as a string has no [providerName], so
    normalising it again adds one.) *)
Theorem normalize_model_stable (model normalized : pyval) :
  normalize_model model = Ok (Some normalized) ->
  exists d,
    normalized = PDict d
    /\ truthy (dict_get d "id") = true
    /\ truthy (dict_get d "label") = true
    /\ truthy (dict_get d "provider") = true
    /\ (is_dict model = true -> normalize_model normalized = Ok (Some normalized))
    /\ (is_dict model = false ->
        d !! "providerName" = None
        /\ exists d', normalize_model normalized = Ok (Some (PDict d'))
                      /\ d' !! "providerName" = Some (PStr "unknown")).
Proof.
  unfold normalize_model at 1.
  destruct (truthy model) eqn:Hmodel; cbn [negb]; [|discriminate].
  destruct model as [| | | |s| |d0]; try discriminate.
  - intros [= <-]. eexists. split; [reflexivity|].
    split; [exact Hmodel|]. split; [exact Hmodel|]. split; [reflexivity|].
    split; [discriminate|]. intros _. split; [reflexivity|].
    eexists. split; [|shelve].
    unfold normalize_model.
    change (truthy (PDict (mk_dict [ ("id", PStr s); ("label", PStr s);
                                     ("provider", PStr "unknown") ]))) with true.
    cbn [negb].
    change (dict_get (mk_dict [ ("id", PStr s); ("label", PStr s);
                                ("provider", PStr "unknown") ]) "id") with (PStr s).
    rewrite (py_or_truthy_l (PStr s)) by exact Hmodel.
    rewrite (py_or_truthy_l (PStr s)) by exact Hmodel.
    rewrite Hmodel. cbn [negb]. reflexivity.
    Unshelve. reflexivity.
  - set (model_id := py_or (py_or (dict_get d0 "id") (dict_get d0 "model"))
                       (dict_get d0 "name")).
    destruct (truthy model_id) eqn:Hid; cbn [negb]; [|discriminate].
    set (label := py_or (py_or (py_or (dict_get d0 "label") (dict_get d0 "title"))
                           (dict_get d0 "display_name")) model_id).
    set (provider := py_or (dict_get d0 "provider") (PStr "unknown")).
    set (provider_name := py_or (py_or (dict_get d0 "providerName") (dict_get d0 "provider"))
                            (PStr "Unknown")).
    assert (Hlabel : truthy label = true) by (apply py_or_truthy_r; exact Hid).
    assert (Hprovider : truthy provider = true) by (apply py_or_truthy_r; reflexivity).
    assert (Hname : truthy provider_name = true) by (apply py_or_truthy_r; reflexivity).
    intros H. apply Ok_inj in H.
    apply (inj Some) in H. subst normalized. eexists. split; [reflexivity|].
    destruct (normalized_lookups model_id label provider provider_name)
      as (Li & Lm & Ln & Ll & Lt & Ld & Lp & Lpn & Ltruthy).
    split; [rewrite Li; exact Hid|]. split; [rewrite Ll; exact Hlabel|].
    split; [rewrite Lp; exact Hprovider|]. split; [|discriminate].
    intros _. unfold normalize_model.
    rewrite Ltruthy. cbn [negb].
    rewrite Li, Lm, Ln, Ll, Lt, Ld, Lp, Lpn.
    rewrite (py_or_truthy_l model_id) by exact Hid.
    rewrite (py_or_truthy_l model_id) by exact Hid.
    rewrite Hid. cbn [negb].
    rewrite (py_or_truthy_l label) by exact Hlabel.
    rewrite (py_or_truthy_l label) by exact Hlabel.
    rewrite (py_or_truthy_l label) by exact Hlabel.
    rewrite (py_or_truthy_l provider) by exact Hprovider.
    rewrite (py_or_truthy_l provider_name) by exact Hname.
    rewrite (py_or_truthy_l provider_name) by exact Hname.
    reflexivity.
Qed.

Lemma normalize_model_stable_witness :
  exists d,
    normalize_model (PDict (mk_dict [ ("name", PStr "gpt-4o"); ("title", PStr "GPT-4o") ]))
    = Ok (Some (PDict d))
    /\ truthy (dict_get d "id") = true
    /\ normalize_model (PDict d) = Ok (Some (PDict d)).
Proof.
  destruct (normalize_model_stable
              (PDict (mk_dict [ ("name", PStr "gpt-4o"); ("title", PStr "GPT-4o") ]))
              (PDict (mk_dict [ ("id", PStr "gpt-4o"); ("label", PStr "GPT-4o");
                                ("provider", PStr "unknown");
                                ("providerName", PStr "Unknown") ])))
    as (d & Hd & Hid & _ & _ & Hagain & _).
  - vm_compute. reflexivity.
  - exists d. rewrite <- Hd. split; [vm_compute; reflexivity|].
    split; [exact Hid|]. apply Hagain. reflexivity.
Defined.

(* --------------------------------------------------------------------- *)
(** ** The logger and the health report *)
(* --------------------------------------------------------------------- *)

Lemma keeps_logger_ret {A : Type} (a : A) : keeps_logger (ret a).
Proof. intros w r w' [= <- <-]. reflexivity. Qed.

Lemma keeps_logger_raise {A : Type} (e : exn) : keeps_logger (@raise A e).
Proof. intros w r w' [= <- <-]. reflexivity. Qed.

Lemma keeps_logger_lift {A : Type} (o : outcome A) : keeps_logger (lift o).
Proof. intros w r w' [= <- <-]. reflexivity. Qed.

Lemma keeps_logger_gets {A : Type} (f : world -> A) : keeps_logger (gets f).
Proof. intros w r w' [= <- <-]. reflexivity. Qed.

Lemma keeps_logger_modify (f : world -> world) :
  (forall w, lg (f w) = lg w) -> keeps_logger (modify f).
Proof. intros Hf w r w' [= <- <-]. apply Hf. Qed.

Lemma keeps_logger_bind {A B : Type} (m : M A) (k : A -> M B) :
  keeps_logger m -> (forall a, keeps_logger (k a)) -> keeps_logger (bind m k).
Proof.
  intros Hm Hk w r w'. unfold bind.
  destruct (m w) as [[a|e] w1] eqn:Hrun; intros H.
  - rewrite (Hk a _ _ _ H). exact (Hm _ _ _ Hrun).
  - injection H as <- <-. exact (Hm _ _ _ Hrun).
Qed.

Lemma keeps_logger_try_except {A : Type} (m : M A) (h : exn -> M A) :
  keeps_logger m -> (forall e, keeps_logger (h e)) -> keeps_logger (try_except m h).
Proof.
  intros Hm Hh w r w'. unfold try_except.
  destruct (m w) as [[a|e] w1] eqn:Hrun; intros H.
  - injection H as <- <-. exact (Hm _ _ _ Hrun).
  - rewrite (Hh e _ _ _ H). exact (Hm _ _ _ Hrun).
Qed.

Lemma keeps_logger_get_config : keeps_logger get_config.
Proof. intros w r w' H. apply get_config_frame in H. tauto. Qed.

Lemma keeps_logger_time_ms : keeps_logger time_ms.
Proof. intros w r w' [= <- <-]. reflexivity. Qed.

Lemma keeps_logger_random_choices (alphabet : string) (k : nat) :
  keeps_logger (random_choices alphabet k).
Proof.
  induction k as [|k IH]; cbn [random_choices].
  - apply keeps_logger_ret.
  - apply keeps_logger_bind; [intros w r w' [= <- <-]; reflexivity|].
    intros i. apply keeps_logger_bind; [exact IH|]. intros rest. apply keeps_logger_ret.
Qed.

Ltac keeps_logger_step :=
  first
    [ apply keeps_logger_ret
    | apply keeps_logger_raise
    | apply keeps_logger_lift
    | apply keeps_logger_gets
    | apply keeps_logger_get_config
    | apply keeps_logger_time_ms
    | apply keeps_logger_random_choices
    | apply keeps_logger_modify; intros; reflexivity
    | apply keeps_logger_bind; [|intros]
    | apply keeps_logger_try_except; [|intros]
    | match goal with
      | |- keeps_logger (if ?c then _ else _) => destruct c
      | |- keeps_logger (match ?x with _ => _ end) => destruct x
      end ].

Lemma keeps_logger_log_request (data : gmap string pyval) : keeps_logger (log_request data).
Proof. unfold log_request, print. repeat keeps_logger_step. Qed.

Lemma keeps_logger_mark_online (provider : pyval) (flag : bool) :
  keeps_logger (mark_online provider flag).
Proof. unfold mark_online. destruct provider; repeat keeps_logger_step. Qed.

Lemma keeps_logger_generate_completion_id : keeps_logger generate_completion_id.
Proof. unfold generate_completion_id. repeat keeps_logger_step. Qed.

(** [log_success] either records nothing (the logger is not wired, or
    logging is switched off) or records the data it was given. *)
Lemma log_success_logger (provider model prompt_tokens completion_tokens total_tokens : pyval)
    (w w1 : world) :
  log_success (mk_dict
    [ ("provider", provider);
      ("model", model);
      ("promptTokens", prompt_tokens);
      ("completionTokens", completion_tokens);
      ("totalTokens", total_tokens) ]) w = (Ok tt, w1) ->
  lg w1 = lg w
  \/ exists stamp,
       lg w1 = put_last_successful_completion
                 (Some (success_record stamp provider model
                          prompt_tokens completion_tokens total_tokens)) (lg w).
Proof.
  unfold log_success, gets. unfold bind at 1.
  destruct (get_config_set (lg w)); cbn [negb]; [|intros [= <-]; left; reflexivity].
  destruct (get_config_total w) as (config & wc & Hget).
  destruct (get_config_frame _ _ _ Hget) as (_ & Hlg & _).
  unfold bind at 1. rewrite Hget. unfold lift at 1. unfold bind at 1.
  destruct (logging_flag config "enabled") as [[|]|e]; cbn [negb]; [| |discriminate].
  - intros H. right.
    unfold bind, time_ms, print, modify in H. cbn in H.
    apply (f_equal snd) in H. cbn [snd] in H. subst w1.
    eexists. cbn [lg with_lg with_sys]. rewrite Hlg. reflexivity.
  - intros [= <-]. left. exact Hlg.
Qed.

Section Health.

Variable completion : nat -> completion_options -> (string * option pyval) + response.
Variable repr_of : pyval -> string.

Lemma keeps_logger_call_completion (opts : completion_options) :
  keeps_logger (call_completion completion opts).
Proof.
  intros w r w'. unfold call_completion.
  destruct (completion _ opts) as [[message code]|resp]; intros [= <- <-]; reflexivity.
Qed.

Lemma keeps_logger_chat (messages : list pyval) (options : gmap string pyval) :
  keeps_logger (chat completion repr_of messages options).
Proof.
  unfold chat.
  repeat first [ apply keeps_logger_call_completion
               | apply keeps_logger_mark_online
               | keeps_logger_step ].
Qed.

(** The logger after a 200 of [serve]. *)
Lemma serve_ok_logger (request_body result : pyval) (w w1 : world) :
  serve completion repr_of request_body w = (Ok result, w1) ->
  lg w1 = lg w
  \/ exists (config : pyval) (wc : world) (provider model : pyval) (stamp : N),
       get_config w = (Ok config, wc)
       /\ py_get_default config "provider" (PStr "openai") = Ok provider
       /\ py_get_default config "model" (PStr "gpt-4") = Ok model
       /\ lg w1 = put_last_successful_completion
                    (Some (success_record stamp provider model
                             (default PNone (usage_entry "prompt_tokens" result))
                             (default PNone (usage_entry "completion_tokens" result))
                             (default PNone (usage_entry "total_tokens" result))))
                    (lg w).
Proof.
  intros H. unfold serve in H.
  peel_lift H Hval.
  apply bind_ok_inv in H as (config & wc & Hcfg & H).
  pose proof (keeps_logger_get_config _ _ _ Hcfg) as Hlg1.
  peel_lift H Hrequested. peel_lift H Hmessages. peel_lift H Hprompt.
  peel_lift H Htemperature. peel_lift H Hfirst. peel_lift H Hsecond.
  peel_lift H Hprovider. peel_lift H Hmodel. peel_lift H Hkeyvar.
  apply bind_ok_inv in H as ([] & wl & Hlog & H).
  pose proof (keeps_logger_log_request _ _ _ _ Hlog) as Hlg2.
  apply bind_ok_inv in H as (res & wch & Hchat & H).
  pose proof (keeps_logger_chat _ _ _ _ _ Hchat) as Hlg3.
  peel_lift H Hreported. peel_lift H Htxt.
  apply bind_ok_inv in H as (usage & wu & Husage & H).
  assert (Hwu : wu = wch).
  { destruct (truthy _).
    - apply ret_ok_inv in Husage as [_ ->]. reflexivity.
    - apply lift_ok_inv in Husage as [_ ->]. reflexivity. }
  subst wu.
  peel_lift H Hpt. peel_lift H Hct. peel_lift H Htt.
  destruct usage as [| | | | | |u]; try discriminate Hpt.
  cbn [py_get] in Hpt, Hct, Htt. apply Ok_inj in Hpt, Hct, Htt.
  apply bind_ok_inv in H as ([] & ws & Hsuccess & H).
  apply bind_ok_inv in H as (cid & wi & Hgen & H).
  pose proof (keeps_logger_generate_completion_id _ _ _ Hgen) as Hlg5.
  apply bind_ok_inv in H as (created & wt & Htime & H).
  pose proof (keeps_logger_time_ms _ _ _ Htime) as Hlg6.
  apply ret_ok_inv in H as [-> ->].
  rewrite !success_usage_entry.
  assert (Hbase : lg wch = lg w) by (rewrite Hlg3, Hlg2, Hlg1; reflexivity).
  destruct (log_success_logger _ _ _ _ _ _ _ Hsuccess) as [Hsame | (stamp & Hrec)].
  - left. rewrite Hlg6, Hlg5, Hsame. exact Hbase.
  - right. eexists config, wc, _, _, stamp.
    split; [exact Hcfg|]. split; [exact Hprovider|]. split; [exact Hmodel|].
    rewrite Hlg6, Hlg5, Hrec, Hbase. subst. reflexivity.
Qed.

(** X27. The health report after a 200. Either nothing was recorded (the
    logger is not wired or logging is switched off) and the health report
    is as before, or [get_health_info] now reports as the last successful
    completion the provider and the model of the configuration and the
    very token counts of the [usage] block of the answer; the last error
    stays as it was. *)
Theorem health_reports_last_success (request_body result : pyval) (w w1 : world) :
  handle_chat_completion completion repr_of request_body w = (Ok result, w1) ->
  status_of result = Some 200 ->
  fst (get_health_info w1) = fst (get_health_info w)
  \/ exists (config : pyval) (wc : world) (provider model : pyval) (stamp : N),
       get_config w = (Ok config, wc)
       /\ py_get_default config "provider" (PStr "openai") = Ok provider
       /\ py_get_default config "model" (PStr "gpt-4") = Ok model
       /\ get_health_info w1
          = (Ok (PDict (mk_dict
               [ ("lastSuccessfulCompletion",
                   success_record stamp provider model
                     (default PNone (usage_entry "prompt_tokens" result))
                     (default PNone (usage_entry "completion_tokens" result))
                     (default PNone (usage_entry "total_tokens" result)));
                 ("lastError", default PNone (last_error (lg w))) ])), w1).
Proof.
  intros Hrun Hstatus.
  pose proof (handle_chat_completion_200 completion repr_of _ _ _ _ Hrun Hstatus) as H.
  destruct (serve_ok_logger _ _ _ _ H)
    as [Hsame | (config & wc & provider & model & stamp & Hcfg & Hp & Hm & Hrec)].
  - left. unfold get_health_info, gets. cbn [fst]. rewrite Hsame. reflexivity.
  - right. exists config, wc, provider, model, stamp.
    split; [exact Hcfg|]. split; [exact Hp|]. split; [exact Hm|].
    unfold get_health_info, gets. rewrite Hrec. reflexivity.
Qed.

End Health.

Lemma health_reports_last_success_witness :
  let run := handle_chat_completion reporting_backend plain_repr (PDict two_message_request)
               active_world in
  let result := match fst run with Ok v => v | Raise _ => PNone end in
  run = (Ok result, snd run)
  /\ status_of result = Some 200
  /\ exists stamp,
       fst (get_health_info (snd run))
       = Ok (PDict (mk_dict
           [ ("lastSuccessfulCompletion",
               success_record stamp (PStr "openai") (PStr "gpt-4")
                 (PInt 7) (PInt 2) (PInt 9));
             ("lastError", PNone) ])).
Proof.
  intros run result.
  assert (Hrun : run = (Ok result, snd run)) by (apply run_pair; vm_compute; reflexivity).
  assert (Hstatus : status_of result = Some 200) by (vm_compute; reflexivity).
  split; [exact Hrun|]. split; [exact Hstatus|].
  destruct (health_reports_last_success reporting_backend plain_repr _ _ _ _ Hrun Hstatus)
    as [Hsame | (config & wc & provider & model & stamp & Hcfg & Hp & Hm & Hhealth)].
  - exfalso. vm_compute in Hsame. discriminate Hsame.
  - exists stamp. rewrite Hhealth. cbn [fst].
    assert (Hc : get_config active_world = (Ok get_default_config, active_world))
      by reflexivity.
    rewrite Hc in Hcfg. apply (f_equal fst) in Hcfg. cbn [fst] in Hcfg.
    apply Ok_inj in Hcfg. subst config.
    cbn in Hp, Hm. apply Ok_inj in Hp, Hm. subst provider model.
    reflexivity.
Defined.

(* --------------------------------------------------------------------- *)
(** ** Instances *)
(* --------------------------------------------------------------------- *)

Lemma save_models_cache_round_trip_witness :
  exists (w1 : world) (c : pyval),
    save_models_cache [PStr "gpt-4"] fresh_world = (Ok true, w1)
    /\ cached_models (cfg w1) = Some c
    /\ py_get c "models" = Ok (PList [PStr "gpt-4"]).
Proof.
  destruct (save_models_cache_round_trip [PStr "gpt-4"] fresh_world)
    as (ok & w1 & Hsave & Hiff & Htrue & _).
  assert (Hok : ok = true) by (apply Hiff; reflexivity).
  subst ok. destruct (Htrue eq_refl) as (c & Hc & Hmodels & _).
  exists w1, c. split; [exact Hsave|]. split; [exact Hc | exact Hmodels].
Defined.

Lemma check_connectivity_reports_witness :
  exists w1,
    check_connectivity (fun _ => ok_backend) plain_repr "groq" (Some "gsk-test") fresh_world
    = (Ok true, w1)
    /\ is_provider_online "groq" w1 = (Ok true, w1).
Proof.
  destruct (check_connectivity_reports (fun _ => ok_backend) plain_repr "groq"
              (Some "gsk-test") fresh_world)
    as (online & w1 & Hrun & _ & Honline & Hcalls & _).
  assert (Htrue : online = true).
  { destruct Hcalls as [Hsame | (opts & info & m & rest & _ & _ & _ & _ & _ & _ & _ & Hon)].
    - apply (f_equal fst) in Hrun. vm_compute in Hrun. apply Ok_inj in Hrun.
      symmetry. exact Hrun.
    - exact Hon. }
  subst online. exists w1. split; [exact Hrun|]. apply Honline. eexists. reflexivity.
Defined.

Lemma list_models_filters_by_provider_witness :
  list_models (Some "no-such-provider") = [].
Proof.
  apply (proj2 (list_models_filters_by_provider "no-such-provider")).
  - discriminate.
  - reflexivity.
Defined.

Lemma one_request_one_call_at_most_witness :
  let run := handle_chat_completion ok_backend plain_repr (PDict two_message_request)
               active_world in
  exists calls,
    completion_calls (snd run) = (calls ++ completion_calls active_world)%list
    /\ (List.length calls <= 1)%nat.
Proof.
  intros run.
  exact (proj1 (one_request_one_call_at_most ok_backend plain_repr)
           (PDict two_message_request) active_world (fst run) (snd run)
           (surjective_pairing run)).
Defined.
